(** * DKIM domain-ownership verification: a shallow embedding

    The development follows the TypeScript/JavaScript sources of the
    repository:

    - [services/server/dkim.ts]: the headers-only DKIM verifier
      ([verifyHeadersOnly], [verifyRawEmailWithLibrary] and their helpers),
      module [Dkim];
    - the e-mail parser CLI ([parseHeaders], [parseDKIMHeaderIntoTags],
      [canonicalizeHeader], [assembleCanonicalizedHeaderBlock],
      [chooseDKIMSignature]), module [EmailParser];
    - [services/store/session.ts]: the session store, module
      [SessionStore];
    - [services/store/zkUsers.ts]: the store of commitments, module
      [ZkUsers];
    - the commitment key that the scripts and the ZK routes compute from a
      SHA-256 digest ([be128ToBigInt] and the [hHex] expression), module
      [Commitment];
    - [app/api/verify-dkim-headers/route.ts]: the [POST] handler that binds
      a verified signing domain to a session, and [app/api/session/route.ts],
      module [Route].

    Conventions of the embedding.

    - Strings are sequences of 8-bit code units read as Latin-1
      (ISO 8859-1), which is what the CLI reads
      ([Buffer.toString('binary')]) and a superset of the 7-bit header text
      of RFC 5322.  The JavaScript string primitives and the regular
      expressions the sources use are written out in module [JS] and next
      to their callers, with their ECMAScript behaviour on such strings.
    - A call that may throw returns a [result]; [try]/[catch] is a match
      on it.
    - What lies outside the repository is a parameter: the DNS resolver
      ([resolveTxt]), the RSA verification of [node:crypto] ([rsaVerify]),
      the [mailauth] package ([importDkimVerify]), [keccak256]
      ([domainHashOf]), the clock and the random values of the session
      store.
    - The session store is a state that [getSession] and [POST] take and
      return.
    - Objects that the sources update in place (the header a continuation
      line is appended to) are positions in the array that owns them.

    The modules with the program come first, then the specification-side
    definitions ([Spec]) and the concrete messages ([Examples]), then the
    lemmas and theorems. *)

From Stdlib Require Import Ascii String ZArith Lia Bool.
From Stdlib.Strings Require Byte.
From stdpp Require Import base option list gmap strings.

Local Open Scope Z_scope.

(* ===================================================================== *)
(** * JavaScript string primitives *)
(* ===================================================================== *)

Module JS.

Definition TAB : ascii := "009"%char.
Definition LF : ascii := "010"%char.
Definition CR : ascii := "013"%char.
Definition SP : ascii := " "%char.

Definition CRLF : string := String CR (String LF "").

Definition code (c : ascii) : N := N_of_ascii c.

(** [\s] of regular expressions and the characters [trim] strips, on
    Latin-1: TAB, LF, VT, FF, CR, SP and NBSP. *)
Definition isWhiteSpace (c : ascii) : bool :=
  let n := code c in
  ((9 <=? n) && (n <=? 13) || (n =? 32) || (n =? 160))%N.

(** The class [[ \t]]. *)
Definition isWsp (c : ascii) : bool :=
  Ascii.eqb c SP || Ascii.eqb c TAB.

(** [\w], which decides the word boundary [\b]. *)
Definition isWordChar (c : ascii) : bool :=
  let n := code c in
  ((48 <=? n) && (n <=? 57) || (65 <=? n) && (n <=? 90)
   || (97 <=? n) && (n <=? 122) || (n =? 95))%N.

(** [.] matches everything but line terminators. *)
Definition isLineTerminator (c : ascii) : bool :=
  Ascii.eqb c LF || Ascii.eqb c CR.

(** [String.prototype.toLowerCase] on one Latin-1 code unit: A-Z and the
    accented capitals U+00C0..U+00DE (U+00D7, the multiplication sign,
    apart) move up by 32. *)
Definition lowerChar (c : ascii) : ascii :=
  let n := code c in
  if ((65 <=? n) && (n <=? 90)
      || (192 <=? n) && (n <=? 222) && negb (n =? 215))%N
  then ascii_of_N (n + 32) else c.

Fixpoint toLowerCase (s : string) : string :=
  match s with
  | EmptyString => EmptyString
  | String c r => String (lowerChar c) (toLowerCase r)
  end.

(** Truthiness of a string: [Boolean(s)], [!s], [s || d]. *)
Definition truthy (s : string) : bool :=
  match s with EmptyString => false | _ => true end.

Definition orElse (s d : string) : string := if truthy s then s else d.

(** [o || d] for [o : string | undefined]. *)
Definition optOr (o : option string) (d : string) : string :=
  match o with Some s => orElse s d | None => d end.

(** [!o] for [o : string | undefined]. *)
Definition optFalsy (o : option string) : bool :=
  match o with Some s => negb (truthy s) | None => true end.

Fixpoint trimStart (s : string) : string :=
  match s with
  | EmptyString => EmptyString
  | String c r => if isWhiteSpace c then trimStart r else s
  end.

Fixpoint trimEnd (s : string) : string :=
  match s with
  | EmptyString => EmptyString
  | String c r =>
      let r' := trimEnd r in
      if isWhiteSpace c && negb (truthy r') then EmptyString else String c r'
  end.

Definition trim (s : string) : string := trimEnd (trimStart s).

Fixpoint startsWith (s p : string) : bool :=
  match p, s with
  | EmptyString, _ => true
  | String a p', String b s' => Ascii.eqb a b && startsWith s' p'
  | String _ _, EmptyString => false
  end.

Fixpoint endsWith (s p : string) : bool :=
  match s with
  | EmptyString => String.eqb p EmptyString
  | String _ r => String.eqb s p || endsWith r p
  end.

(** [s.indexOf(p)]: the first position at which [p] occurs, or [-1]. *)
Fixpoint indexOf (s p : string) : Z :=
  if startsWith s p then 0
  else match s with
       | EmptyString => -1
       | String _ r => let i := indexOf r p in if i <? 0 then -1 else 1 + i
       end.

Definition includes (s p : string) : bool := 0 <=? indexOf s p.

Fixpoint skipn (n : nat) (s : string) : string :=
  match n, s with
  | O, _ => s
  | S n', String _ r => skipn n' r
  | S _, EmptyString => EmptyString
  end.

Fixpoint firstn (n : nat) (s : string) : string :=
  match n, s with
  | S n', String c r => String c (firstn n' r)
  | _, _ => EmptyString
  end.

Definition len (s : string) : Z := Z.of_nat (String.length s).

(** Relative index resolution of [slice]: a negative index counts from the
    end, and the result is clamped to [0 .. length]. *)
Definition clampIndex (s : string) (i : Z) : Z :=
  if i <? 0 then Z.max (len s + i) 0 else Z.min i (len s).

(** [s.slice(from, to)]. *)
Definition slice (s : string) (from to : Z) : string :=
  let a := clampIndex s from in
  let b := clampIndex s to in
  firstn (Z.to_nat (b - a)) (skipn (Z.to_nat a) s).

(** [s.slice(from)]. *)
Definition sliceFrom (s : string) (from : Z) : string :=
  skipn (Z.to_nat (clampIndex s from)) s.

(** [s.substring(from, to)] and [s.substring(from)] for arguments that are
    already in order; negative arguments count as 0. *)
Definition substring (s : string) (from to : Z) : string :=
  let a := Z.min (Z.max from 0) (len s) in
  let b := Z.min (Z.max to 0) (len s) in
  firstn (Z.to_nat (Z.max a b - Z.min a b)) (skipn (Z.to_nat (Z.min a b)) s).

Definition substringFrom (s : string) (from : Z) : string :=
  skipn (Z.to_nat (Z.min (Z.max from 0) (len s))) s.

(** Prepend a character to the first piece of a split. *)
Definition consFirst (c : ascii) (l : list string) : list string :=
  match l with
  | w :: ws => String c w :: ws
  | [] => [String c EmptyString]
  end.

(** [s.split(sep)] for a one-character separator. *)
Fixpoint split (sep : ascii) (s : string) : list string :=
  match s with
  | EmptyString => [EmptyString]
  | String c r =>
      if Ascii.eqb c sep then EmptyString :: split sep r
      else consFirst c (split sep r)
  end.

(** [s.split(/\r?\n/)]. *)
Fixpoint splitLines (s : string) : list string :=
  match s with
  | EmptyString => [EmptyString]
  | String c r =>
      if Ascii.eqb c LF then EmptyString :: splitLines r
      else
        match r with
        | String c2 r2 =>
            if Ascii.eqb c CR && Ascii.eqb c2 LF
            then EmptyString :: splitLines r2
            else consFirst c (splitLines r)
        | EmptyString => consFirst c (splitLines r)
        end
  end.

(** [s.split(/\r\n/)] (also [s.split('\r\n')]). *)
Fixpoint splitCRLF (s : string) : list string :=
  match s with
  | EmptyString => [EmptyString]
  | String c r =>
      match r with
      | String c2 r2 =>
          if Ascii.eqb c CR && Ascii.eqb c2 LF
          then EmptyString :: splitCRLF r2
          else consFirst c (splitCRLF r)
      | EmptyString => consFirst c (splitCRLF r)
      end
  end.

(** [l.join(sep)]. *)
Fixpoint join (sep : string) (l : list string) : string :=
  match l with
  | [] => EmptyString
  | [x] => x
  | x :: r => x +:+ sep +:+ join sep r
  end.

(** [s.replace(/C+/g, rep)] for a character class [C]: every maximal run
    of class characters becomes [rep]. *)
Fixpoint replaceRuns (isC : ascii -> bool) (rep : string) (inRun : bool)
         (s : string) : string :=
  match s with
  | EmptyString => EmptyString
  | String c r =>
      if isC c then
        if inRun then replaceRuns isC rep true r
        else rep +:+ replaceRuns isC rep true r
      else String c (replaceRuns isC rep false r)
  end.

(** [s.replace(/[ \t]+/g, " ")]. *)
Definition collapseWsp (s : string) : string :=
  replaceRuns isWsp (String SP EmptyString) false s.

(** [s.replace(/\s+/g, " ")]. *)
Definition collapseWhiteSpace (s : string) : string :=
  replaceRuns isWhiteSpace (String SP EmptyString) false s.

(** [s.replace(/\s+/g, "")]. *)
Definition stripWhiteSpace (s : string) : string :=
  replaceRuns isWhiteSpace EmptyString false s.

Definition headIs (p : ascii -> bool) (s : string) : bool :=
  match s with String c _ => p c | EmptyString => false end.

(** [s.replace(/\r?\n[ \t]+/g, " ")] when [optCR] is set and
    [s.replace(/\r\n[ \t]+/g, " ")] otherwise: a line break followed by at
    least one space or tab becomes one space.  [inRun] says that the
    whitespace run of a match is being consumed. *)
Fixpoint unfoldGo (optCR : bool) (inRun : bool) (s : string) : string :=
  match s with
  | EmptyString => EmptyString
  | String c r =>
      if inRun && isWsp c then unfoldGo optCR true r
      else if optCR && Ascii.eqb c LF && headIs isWsp r
      then String SP (unfoldGo optCR true r)
      else
        match r with
        | String c2 r2 =>
            if Ascii.eqb c CR && Ascii.eqb c2 LF && headIs isWsp r2
            then String SP (unfoldGo optCR true r2)
            else String c (unfoldGo optCR false r)
        | EmptyString => String c (unfoldGo optCR false r)
        end
  end.

Definition unfoldLF (s : string) : string := unfoldGo true false s.
Definition unfoldCRLF (s : string) : string := unfoldGo false false s.

(** [s.replace(/[ \t]+$/g, "")]. *)
Fixpoint trimEndWsp (s : string) : string :=
  match s with
  | EmptyString => EmptyString
  | String c r =>
      let r' := trimEndWsp r in
      if isWsp c && negb (truthy r') then EmptyString else String c r'
  end.

Fixpoint trimStartWsp (s : string) : string :=
  match s with
  | EmptyString => EmptyString
  | String c r => if isWsp c then trimStartWsp r else s
  end.

(** [s.replace(/^[ \t]+|[ \t]+$/g, "")]. *)
Definition trimWsp (s : string) : string := trimEndWsp (trimStartWsp s).

(** The text from the first character satisfying [p] on. *)
Fixpoint dropUntil (p : ascii -> bool) (s : string) : string :=
  match s with
  | EmptyString => EmptyString
  | String c r => if p c then s else dropUntil p r
  end.

(** The text before the first character satisfying [p]. *)
Fixpoint takeUntil (p : ascii -> bool) (s : string) : string :=
  match s with
  | EmptyString => EmptyString
  | String c r => if p c then EmptyString else String c (takeUntil p r)
  end.

(** [s.search(/\r?\n\r?\n/)]: the position of the first empty line
    break pair, or [-1]. *)
Definition atLineBreak (s : string) : option string :=
  match s with
  | String c r =>
      if Ascii.eqb c LF then Some r
      else match r with
           | String c2 r2 =>
               if Ascii.eqb c CR && Ascii.eqb c2 LF then Some r2 else None
           | EmptyString => None
           end
  | EmptyString => None
  end.

Definition atBlankLine (s : string) : bool :=
  match atLineBreak s with
  | Some r => bool_decide (is_Some (atLineBreak r))
  | None => false
  end.

Fixpoint searchBlankLine (s : string) : Z :=
  if atBlankLine s then 0
  else match s with
       | EmptyString => -1
       | String _ r =>
           let i := searchBlankLine r in if i <? 0 then -1 else 1 + i
       end.

(** [s.split(/\r?\n(?=\S)/)]: split at the line breaks that are followed
    by a character that is not white space. *)
Fixpoint splitBlocks (s : string) : list string :=
  match s with
  | EmptyString => [EmptyString]
  | String c r =>
      if Ascii.eqb c LF && headIs (fun x => negb (isWhiteSpace x)) r
      then EmptyString :: splitBlocks r
      else
        match r with
        | String c2 r2 =>
            if Ascii.eqb c CR && Ascii.eqb c2 LF
               && headIs (fun x => negb (isWhiteSpace x)) r2
            then EmptyString :: splitBlocks r2
            else consFirst c (splitBlocks r)
        | EmptyString => consFirst c (splitBlocks r)
        end
  end.

End JS.

(** Fallible computations: a JavaScript call either returns or throws.  The
    payload of [Throw] is the text a [catch (e)] clause of the sources
    reports, [e?.message || String(e)]. *)
Inductive result (A : Type) : Type :=
  | Ok (a : A)
  | Throw (msg : string).
Arguments Ok {A} a.
Arguments Throw {A} msg.

Definition bindR {A B : Type} (r : result A) (k : A -> result B) : result B :=
  match r with
  | Ok a => k a
  | Throw msg => Throw msg
  end.


(* ===================================================================== *)
(** * services/server/dkim.ts *)
(* ===================================================================== *)

Module Dkim.

Record Header : Type := mkHeader { name : string; value : string }.

Record VerifyResult : Type := mkVerifyResult {
  ok : bool;
  domain : option string;
  subject : option string;
  signedHeaders : option (list string);
  reason : option string
}.

Definition failure (why : string) : VerifyResult :=
  {| ok := false; domain := None; subject := None; signedHeaders := None;
     reason := Some why |}.

(** ** getHeaderValue *)

(** The loop [for (i = list.length - 1; i >= 0; i--)]; [k] is the number
    of positions still to visit, [k-1] down to [0]. *)
Fixpoint getHeaderValueFrom (hdrs : list Header) (n : string) (k : nat)
  : option string :=
  match k with
  | O => None
  | S i =>
      match hdrs !! i with
      | Some h =>
          if String.eqb (JS.toLowerCase (name h)) n then Some (value h)
          else getHeaderValueFrom hdrs n i
      | None => getHeaderValueFrom hdrs n i
      end
  end.

Definition getHeaderValue (hdrs : list Header) (nm : string)
  : option string :=
  getHeaderValueFrom hdrs (JS.toLowerCase nm) (length hdrs).

(** ** parseHeaders *)

(** The loop state.  Every header object is pushed on [list] when it is
    created, so an object is identified by its position there; [current]
    is the position of the object the variable [current] refers to, and
    [current.value += ...] updates the array at that position.  The
    array [list] of the source is the field [headers]. *)
Record ParseState : Type := mkParseState {
  headers : list Header;
  current : option nat;
  rawBlocks : list string;
  block : string
}.

Definition appendValue (extra : string) (h : Header) : Header :=
  {| name := name h; value := value h +:+ extra |}.

Fixpoint parseLoop (lines : list string) (st : ParseState) : ParseState :=
  match lines with
  | [] => st
  | line :: rest =>
      if JS.headIs JS.isWsp line then
        (* continuation *)
        let headers' :=
          match current st with
          | Some i => alter (appendValue (JS.trim line)) i (headers st)
          | None => headers st
          end in
        parseLoop rest
          {| headers := headers'; current := current st;
             rawBlocks := rawBlocks st;
             block := block st +:+ JS.CRLF +:+ line |}
      else if String.eqb (JS.trim line) "" then
        (* end of headers *)
        st
      else
        let rawBlocks' :=
          match current st with
          | Some _ => rawBlocks st ++ [block st]
          | None => rawBlocks st
          end in
        let idx := JS.indexOf line ":" in
        if idx =? -1 then
          parseLoop rest
            {| headers := headers st; current := current st;
               rawBlocks := rawBlocks'; block := block st |}
        else
          let hdr := {| name := JS.slice line 0 idx;
                        value := JS.trim (JS.sliceFrom line (idx + 1)) |} in
          parseLoop rest
            {| headers := headers st ++ [hdr];
               current := Some (length (headers st));
               rawBlocks := rawBlocks'; block := line |}
  end.

(** [/^dkim-signature:/i.test(b)]: on Latin-1 text a character matches an
    ASCII letter of the pattern case-insensitively exactly when its lower
    case is that letter. *)
Definition isDkimBlock (b : string) : bool :=
  JS.startsWith (JS.toLowerCase b) "dkim-signature:".

(** The result [{ list, rawDkim }]; the field [list] is [hlist] here. *)
Record ParsedHeaders : Type := mkParsedHeaders {
  hlist : list Header;
  rawDkim : string
}.

Definition initialState : ParseState :=
  {| headers := []; current := None; rawBlocks := []; block := "" |}.

(** [rawBlocks] after the final [if (block) rawBlocks.push(block)]. *)
Definition allRawBlocks (raw : string) : list string :=
  let st := parseLoop (JS.splitLines raw) initialState in
  if JS.truthy (block st) then rawBlocks st ++ [block st]
  else rawBlocks st.

Definition parseHeaders (raw : string) : ParsedHeaders :=
  let st := parseLoop (JS.splitLines raw) initialState in
  {| hlist := headers st;
     rawDkim := default "" (List.find isDkimBlock (allRawBlocks raw)) |}.

(** ** parseDkimSignature *)

Record DkimSig : Type := mkDkimSig {
  sig_a : string; sig_d : string; sig_s : string; sig_h : list string;
  sig_b : string; sig_c : string
}.

(** One [k=v] piece of the tag list. *)
Definition parseTag (kv : string) : string * string :=
  let idx := JS.indexOf kv "=" in
  if idx =? -1 then (JS.toLowerCase kv, "")
  else (JS.toLowerCase (JS.trim (JS.slice kv 0 idx)),
        JS.trim (JS.sliceFrom kv (idx + 1))).

(** [Object.fromEntries]: a later entry replaces an earlier one. *)
Definition fromEntries (l : list (string * string)) : gmap string string :=
  foldl (fun m kv => <[kv.1 := kv.2]> m) ∅ l.

(** The tag object of a raw DKIM-Signature block. *)
Definition dkimTags (raw : string) : gmap string string :=
  let paramsStr := JS.sliceFrom raw (JS.indexOf raw ":" + 1) in
  fromEntries
    (parseTag <$> List.filter JS.truthy (JS.trim <$> JS.split ";" paramsStr)).

Definition hNames (tags : gmap string string) : list string :=
  List.filter JS.truthy
    ((fun x => JS.toLowerCase (JS.trim x))
       <$> JS.split ":" (JS.optOr (tags !! "h") "")).

Definition bValue (tags : gmap string string) : string :=
  JS.stripWhiteSpace (JS.optOr (tags !! "b") "").

Definition parseDkimSignature (raw : string) : option DkimSig :=
  if negb (JS.truthy raw) then None
  else if negb (JS.startsWith (JS.toLowerCase raw) "dkim-signature:")
  then None
  else
    let tags := dkimTags raw in
    let a := JS.optOr (tags !! "a") "rsa-sha256" in
    let d := tags !! "d" in
    let s := tags !! "s" in
    let h := hNames tags in
    let b := bValue tags in
    let c := JS.optOr (tags !! "c") "relaxed/relaxed" in
    if JS.optFalsy d || JS.optFalsy s || (length h =? 0)%nat
       || negb (JS.truthy b)
    then None
    else Some {| sig_a := a; sig_d := default "" d; sig_s := default "" s;
                 sig_h := h; sig_b := b; sig_c := c |}.

(** ** relaxedHeader *)

Definition relaxedHeaderObj (hd : Header) : string :=
  JS.toLowerCase (name hd) +:+ ":" +:+ JS.trim (JS.collapseWsp (value hd)).

Definition relaxedHeaderStr (hs : string) : string :=
  let idx := JS.indexOf hs ":" in
  JS.toLowerCase (JS.slice hs 0 idx) +:+ ":"
    +:+ JS.trim (JS.collapseWsp (JS.sliceFrom hs (idx + 1))).

(** The argument is an object or, when [typeof h === "string"], a raw
    line. *)
Definition relaxedHeader (hd : Header + string) : string :=
  match hd with
  | inl o => relaxedHeaderObj o
  | inr t => relaxedHeaderStr t
  end.

(** ** selectSignedHeaders *)

(** [indicesByName]: for each lower-cased name, the positions of its
    occurrences in increasing order. *)
Definition indexHeaders (hdrs : list Header) : gmap string (list nat) :=
  foldl (fun m ih =>
           let n := JS.toLowerCase (name ih.2) in
           <[n := default [] (m !! n) ++ [ih.1]]> m)
        ∅ (imap pair hdrs).

(** [ptr]: for each name, the position in its array of the last
    occurrence not selected so far. *)
Definition initialPtr (indicesByName : gmap string (list nat))
  : gmap string Z :=
  (fun arr => Z.of_nat (length arr) - 1) <$> indicesByName.

(** One iteration of [for (const nRaw of hList)]; the state is [ptr] and
    [selected].  [ptr] has the keys of [indicesByName] and never exceeds
    the last position of an array, so the two lookups marked below always
    succeed. *)
Definition selectStep (hdrs : list Header)
           (indicesByName : gmap string (list nat))
           (st : gmap string Z * list Header) (nRaw : string)
  : gmap string Z * list Header :=
  let n := JS.toLowerCase nRaw in
  match indicesByName !! n with
  | None => st
  | Some arr =>
      if (length arr =? 0)%nat then st
      else
        match st.1 !! n with
        | None => st (* ptr.get(n)! *)
        | Some p =>
            if p <? 0 then st
            else
              match arr !! Z.to_nat p ≫= (fun idx => hdrs !! idx) with
              | Some hdr => (<[n := p - 1]> st.1, st.2 ++ [hdr])
              | None => st (* list[arr[p]] *)
              end
        end
  end.

Definition selectSignedHeaders (hdrs : list Header) (hList : list string)
  : list Header :=
  let indicesByName := indexHeaders hdrs in
  (foldl (selectStep hdrs indicesByName)
         (initialPtr indicesByName, []) hList).2.

(** ** withEmptyB *)

Definition isSemi (x : ascii) : bool := Ascii.eqb x ";".
Definition isLetterB (x : ascii) : bool := Ascii.eqb (JS.lowerChar x) "b".

(** [s.replace(/\bb=([^;]+)(;?)/i, "b=$2")]: the first [b=] that starts
    a word and has a non-empty value loses the value; the text from the
    following semicolon on is kept.  [prevWord] says that the character
    before the current position is a word character. *)
Fixpoint blankB (prevWord : bool) (s : string) : string :=
  match s with
  | EmptyString => EmptyString
  | String x r =>
      if negb prevWord && isLetterB x
         && match r with
            | String e v =>
                Ascii.eqb e "=" && JS.headIs (fun y => negb (isSemi y)) v
            | EmptyString => false
            end
      then "b=" +:+ JS.dropUntil isSemi (JS.skipn 1 r)
      else String x (blankB (JS.isWordChar x) r)
  end.

Definition withEmptyB (rawDkim : string) : Header + string :=
  let idx := JS.indexOf (JS.toLowerCase rawDkim) "dkim-signature:" in
  if negb (idx =? 0) then inr rawDkim
  else
    let headerValue := JS.sliceFrom rawDkim (JS.indexOf rawDkim ":" + 1) in
    let headerValue := JS.unfoldLF headerValue in
    let headerValue := blankB false headerValue in
    inl {| name := "dkim-signature"; value := JS.trim headerValue |}.

(** ** wrapPem and fetchDkimPublicKey *)

(** [base64.match(/.{1,64}/g) || []]: pieces of up to 64 characters, none
    of which spans a line terminator.  [acc] is the piece being read and
    [n] its length. *)
Fixpoint chunksGo (acc : string) (n : nat) (s : string) : list string :=
  match s with
  | EmptyString => if JS.truthy acc then [acc] else []
  | String x r =>
      if JS.isLineTerminator x
      then (if JS.truthy acc then [acc] else []) ++ chunksGo "" 0 r
      else if (n =? 64)%nat then acc :: chunksGo (String x "") 1 r
      else chunksGo (acc +:+ String x "") (S n) r
  end.

Definition NL : string := String JS.LF "".

Definition wrapPem (base64 : string) : string :=
  let lines := chunksGo "" 0 base64 in
  "-----BEGIN PUBLIC KEY-----" +:+ NL +:+ JS.join NL lines +:+ NL
    +:+ "-----END PUBLIC KEY-----" +:+ NL.

Definition endsKey (x : ascii) : bool := isSemi x || JS.isWhiteSpace x.

(** [flat.match(/\bp=([^;\s]+)/)]: the first capture, if the pattern
    matches. *)
Fixpoint matchP (prevWord : bool) (s : string) : option string :=
  match s with
  | EmptyString => None
  | String x r =>
      if negb prevWord && Ascii.eqb x "p"
         && match r with
            | String e v =>
                Ascii.eqb e "=" && JS.headIs (fun y => negb (endsKey y)) v
            | EmptyString => false
            end
      then Some (JS.takeUntil endsKey (JS.skipn 1 r))
      else matchP (JS.isWordChar x) r
  end.

Section Verifier.

(** [dns.resolveTxt]: the TXT records of a name, each a list of
    character-strings, or a rejection (ENOTFOUND, ENODATA, a timeout). *)
Variable resolveTxt : string -> result (list (list string)).

(** [crypto.createVerify("RSA-SHA256")] fed [data] and asked to
    [verify(pem, Buffer.from(sig, "base64"))]: a verdict, or an
    exception when the key cannot be decoded. *)
Variable rsaVerify : forall (pem data sig : string), result bool.

Definition keyName (selector dom : string) : string :=
  selector +:+ "._domainkey." +:+ dom.

Definition fetchDkimPublicKey (selector dom : string) : option string :=
  match resolveTxt (keyName selector dom) with
  | Throw _ => None
  | Ok records =>
      let flat := JS.join "" (JS.join "" <$> records) in
      match matchP false flat with
      | None => None
      | Some p => Some (wrapPem p)
      end
  end.

(** [getHeaderValue(headers.list, "subject") || undefined]. *)
Definition subjectOf (hdrs : list Header) : option string :=
  match getHeaderValue hdrs "subject" with
  | Some v => if JS.truthy v then Some v else None
  | None => None
  end.

(** The signing input of lines 27-30. *)
Definition signedData (ph : ParsedHeaders) (dkim : DkimSig) : string :=
  let selected := selectSignedHeaders (hlist ph) (sig_h dkim) in
  let canon :=
    JS.join JS.CRLF ((fun x => relaxedHeader (inl x)) <$> selected) in
  let dkimHeaderCanon := relaxedHeader (withEmptyB (rawDkim ph)) in
  canon +:+ JS.CRLF +:+ dkimHeaderCanon.

(** Lines 24-43 of [verifyHeadersOnly]: what happens once a signature
    with a supported algorithm has been parsed. *)
Definition checkSignature (ph : ParsedHeaders) (dkim : DkimSig)
  : VerifyResult :=
  let subject := subjectOf (hlist ph) in
  match fetchDkimPublicKey (sig_s dkim) (sig_d dkim) with
  | None =>
      failure ("dkim public key not found for "
                 +:+ keyName (sig_s dkim) (sig_d dkim))
  | Some pubKey =>
      match rsaVerify pubKey (signedData ph dkim) (sig_b dkim) with
      | Throw msg => failure msg
      | Ok false => failure "dkim signature invalid"
      | Ok true =>
          {| ok := true; domain := Some (sig_d dkim); subject := subject;
             signedHeaders := Some (sig_h dkim); reason := None |}
      end
  end.

Definition verifyHeadersOnly (headersText : string) : VerifyResult :=
  let raw := JS.trim headersText in
  let ph := parseHeaders raw in
  match parseDkimSignature (rawDkim ph) with
  | None => failure "no dkim-signature header"
  | Some dkim =>
      if negb (String.eqb (JS.toLowerCase (sig_a dkim)) "rsa-sha256")
      then failure ("unsupported a=" +:+ sig_a dkim)
      else checkSignature ph dkim
  end.

End Verifier.

(** ** verifyRawEmailWithLibrary *)

(** One entry of the [results] array of the [mailauth] verifier, with the
    fields the function reads. *)
Record LibResult : Type := mkLibResult {
  statusResult : option string;       (* status.result *)
  signingDomain : option string;
  selector : option string;
  signature : option string;
  signingHeaderKeys : option (list string)  (* signingHeaders.keys *)
}.

Section Library.

(** [await import("mailauth/lib/dkim/verify")]: the import may fail, the
    module may lack [dkimVerify], and a call of [dkimVerify] may throw;
    its [results] are read as a list ([[]] when it is not an array). *)
Variable importDkimVerify :
  result (option (string -> result (list LibResult))).

Definition isPass (r : LibResult) : bool :=
  bool_decide (statusResult r = Some "pass").

(** The loop over [matching], lines 85-94. *)
Fixpoint matchingSignedHeaders (d s passSig : string)
         (matching : list string) : option (list string) :=
  match matching with
  | [] => None
  | blk :: rest =>
      match parseDkimSignature blk with
      | None => matchingSignedHeaders d s passSig rest
      | Some parsed =>
          if String.eqb (JS.toLowerCase (sig_d parsed)) (JS.toLowerCase d)
             && String.eqb (sig_s parsed) s
             && (negb (JS.truthy passSig)
                 || String.eqb passSig (sig_b parsed))
          then Some (sig_h parsed)
          else matchingSignedHeaders d s passSig rest
      end
  end.

Definition verifyRawEmailWithLibrary (rawEmail : string) : VerifyResult :=
  match importDkimVerify with
  | Throw msg => failure msg
  | Ok None => failure "dkim library not available"
  | Ok (Some dkimVerify) =>
      match dkimVerify rawEmail with
      | Throw msg => failure msg
      | Ok results =>
          match (match List.find isPass results with
                 | Some r => Some r
                 | None => head results
                 end) with
          | None => failure "no dkim signatures found"
          | Some pass =>
              if JS.optFalsy (signingDomain pass)
                 || JS.optFalsy (selector pass)
              then failure "dkim signature missing selector/domain"
              else
                let d := default "" (signingDomain pass) in
                let s := default "" (selector pass) in
                let idx := JS.searchBlankLine rawEmail in
                let headersText :=
                  if 0 <=? idx then JS.slice rawEmail 0 idx
                  else rawEmail in
                let ph := parseHeaders headersText in
                let subject :=
                  match getHeaderValue (hlist ph) "subject" with
                  | Some v => if JS.truthy v then Some v else None
                  | None => None
                  end in
                let signedHeaders :=
                  match signingHeaderKeys pass with
                  | Some (k :: ks) => Some (k :: ks)
                  | _ =>
                      let passSig :=
                        JS.stripWhiteSpace
                          (JS.optOr (signature pass) "") in
                      let matching :=
                        if JS.truthy (rawDkim ph) then [rawDkim ph]
                        else List.filter isDkimBlock
                               (JS.splitBlocks headersText) in
                      match matchingSignedHeaders d s passSig matching with
                      | Some hs => Some hs
                      | None => signingHeaderKeys pass
                      end
                  end in
                {| ok := true; domain := Some d; subject := subject;
                   signedHeaders :=
                     (fun l : list string => JS.toLowerCase <$> l)
                       <$> signedHeaders;
                   reason := None |}
          end
      end
  end.

End Library.

End Dkim.

(* ===================================================================== *)
(** * The e-mail parser CLI (index.js) *)
(* ===================================================================== *)

Module EmailParser.

Record Header : Type := mkHeader {
  name : string;
  value : string;
  raw : string;
  index : Z
}.

(** [normalizeLineEndings]: CRLF and lone CR become LF, then every LF
    becomes CRLF. *)
Fixpoint normalizeLineEndings (s : string) : string :=
  match s with
  | EmptyString => EmptyString
  | String c r =>
      if Ascii.eqb c JS.LF then JS.CRLF +:+ normalizeLineEndings r
      else if Ascii.eqb c JS.CR then
        match r with
        | String c2 r2 =>
            if Ascii.eqb c2 JS.LF then JS.CRLF +:+ normalizeLineEndings r2
            else JS.CRLF +:+ normalizeLineEndings r
        | EmptyString => JS.CRLF
        end
      else String c (normalizeLineEndings r)
  end.

(** [splitHeadersAndBody(...).headersRaw]. *)
Definition headersRawOf (normalizedText : string) : string :=
  let idx := JS.indexOf normalizedText (JS.CRLF +:+ JS.CRLF) in
  if idx =? -1 then normalizedText
  else JS.substring normalizedText 0 (idx + 2).

(** ** parseHeaders *)

Definition continueHeader (line : string) (h : Header) : Header :=
  {| name := name h;
     value := value h +:+ " " +:+ JS.trim line;
     raw := raw h +:+ JS.CRLF +:+ line;
     index := index h |}.

(** The loop over [lines].  [current] refers to the header pushed last,
    so [current.raw += ...] and [current.value += ...] update the last
    element of [headers]; [index] is the running counter. *)
Fixpoint parseLoop (lines : list string) (headers : list Header)
         (index : Z) : list Header :=
  match lines with
  | [] => headers
  | line :: rest =>
      if String.eqb line "" then parseLoop rest headers index
      else if JS.headIs JS.isWsp line then
        parseLoop rest
          (alter (continueHeader line) (length headers - 1)%nat headers)
          index
      else
        let pos := JS.indexOf line ":" in
        let hdr :=
          if pos =? -1 then
            {| name := ""; value := line; raw := line +:+ JS.CRLF;
               index := index |}
          else
            {| name := JS.substring line 0 pos;
               value := JS.trim (JS.substringFrom line (pos + 1));
               raw := line +:+ JS.CRLF; index := index |} in
        parseLoop rest (headers ++ [hdr]) (index + 1)
  end.

Definition parseHeaders (headersRaw : string) : list Header :=
  parseLoop (JS.splitCRLF headersRaw) [] 0.

Definition findDKIMSignatureHeaders (headersList : list Header)
  : list Header :=
  List.filter
    (fun h => String.eqb (JS.toLowerCase (name h)) "dkim-signature")
    headersList.

Definition unfoldDKIMValue (v : string) : string :=
  JS.trim (JS.collapseWhiteSpace (JS.unfoldCRLF v)).

(** ** parseDKIMHeaderIntoTags *)

(** A tag without [=] is stored as [true], every other one as a string. *)
Inductive TagVal : Type :=
  | TTrue
  | TStr (v : string).

Record ParsedDKIM : Type := mkParsedDKIM {
  praw : string;                 (* raw *)
  tags : gmap string TagVal;     (* tags, without _h_list *)
  h_list : list string           (* tags._h_list *)
}.

(** [tags[k] = v] on a plain object: assigning a primitive to
    [__proto__] changes nothing. *)
Definition setTag (k : string) (v : TagVal) (tags : gmap string TagVal)
  : gmap string TagVal :=
  if String.eqb k "__proto__" then tags else <[k := v]> tags.

Definition DQUOTE : string := String (ascii_of_nat 34) "".

Definition unquote (val : string) : string :=
  if JS.startsWith val DQUOTE && JS.endsWith val DQUOTE
  then JS.substring val 1 (JS.len val - 1)
  else val.

Definition addPiece (tags : gmap string TagVal) (piece0 : string)
  : gmap string TagVal :=
  let piece := JS.trim piece0 in
  if negb (JS.truthy piece) then tags
  else
    let eq := JS.indexOf piece "=" in
    if eq =? -1 then setTag piece TTrue tags
    else
      let tag := JS.trim (JS.substring piece 0 eq) in
      let val := JS.trim (JS.substringFrom piece (eq + 1)) in
      setTag tag (TStr (unquote val)) tags.

Definition tagsOf (v : string) : gmap string TagVal :=
  foldl addPiece ∅ (JS.split ";" v).

(** [x.split(...)], [x.toLowerCase()] on the value [true] is a
    [TypeError]. *)
Definition notAFunction (what : string) : string :=
  what +:+ " is not a function".

Definition parseDKIMHeaderIntoTags (dkimHeader : Header)
  : result ParsedDKIM :=
  let v := unfoldDKIMValue (value dkimHeader) in
  let tags := tagsOf v in
  match tags !! "h" with
  | Some TTrue => Throw (notAFunction "tags.h.split")
  | Some (TStr hs) =>
      Ok {| praw := raw dkimHeader;
            tags := delete "_h_list" tags;
            h_list :=
              if JS.truthy hs
              then List.filter JS.truthy (JS.trim <$> JS.split ":" hs)
              else [] |}
  | None =>
      Ok {| praw := raw dkimHeader; tags := delete "_h_list" tags;
            h_list := [] |}
  end.

(** ** canonicalizeHeader *)

Definition canonicalizeHeader (headerObj : Header) (headerMode0 : string)
  : string :=
  let headerMode := JS.toLowerCase (JS.orElse headerMode0 "simple") in
  if String.eqb headerMode "simple" then
    let s := raw headerObj in
    if negb (JS.endsWith s JS.CRLF) then s +:+ JS.CRLF else s
  else
    let name := JS.toLowerCase (name headerObj) in
    let value := JS.unfoldCRLF (value headerObj) in
    let value := JS.trimWsp value in
    let value := JS.collapseWsp value in
    name +:+ ":" +:+ value +:+ JS.CRLF.

(** ** assembleCanonicalizedHeaderBlock *)

(** [findRightmostUnused], scanning positions [k-1 .. 0]. *)
Fixpoint findRightmostUnusedFrom (usedIndices : gset Z)
         (headersList : list Header) (lname : string) (k : nat)
  : option Header :=
  match k with
  | O => None
  | S i =>
      match headersList !! i with
      | Some h =>
          if String.eqb (JS.toLowerCase (name h)) lname
             && negb (bool_decide (index h ∈ usedIndices))
          then Some h
          else findRightmostUnusedFrom usedIndices headersList lname i
      | None => findRightmostUnusedFrom usedIndices headersList lname i
      end
  end.

Definition findRightmostUnused (usedIndices : gset Z)
           (headersList : list Header) (headerName : string)
  : option Header :=
  findRightmostUnusedFrom usedIndices headersList
    (JS.toLowerCase headerName) (length headersList).

(** One iteration of [for (let name of hlist)]; the state is
    [usedIndices] and the headers selected so far, whose
    canonicalizations are [blockPieces]. *)
Definition selectStep (headersList : list Header)
           (st : gset Z * list Header) (name : string)
  : gset Z * list Header :=
  match findRightmostUnused st.1 headersList name with
  | None => st
  | Some found => ({[index found]} ∪ st.1, st.2 ++ [found])
  end.

Definition selectedHeaders (headersList : list Header)
           (hlist : list string) : list Header :=
  (foldl (selectStep headersList) (∅, []) hlist).2.

(** [s.replace(/^DKIM-Signature:\s*/i, "")]. *)
Definition stripDkimName (s : string) : string :=
  if JS.startsWith (JS.toLowerCase s) "dkim-signature:"
  then JS.trimStart (JS.skipn 15 s) else s.

Definition isSemi (x : ascii) : bool := Ascii.eqb x ";".
Definition isLetterB (x : ascii) : bool := Ascii.eqb (JS.lowerChar x) "b".

(** The part of the pattern below after the group [(^|;)], matched at the
    start of [s]: optional white space, the letter b, optional white
    space, [=], and then everything up to the next semicolon.  The result
    is what follows the match. *)
Definition matchBTag (s : string) : option string :=
  match JS.trimStart s with
  | String x r =>
      if isLetterB x then
        match JS.trimStart r with
        | String e v =>
            if Ascii.eqb e "=" then Some (JS.dropUntil isSemi v) else None
        | EmptyString => None
        end
      else None
  | EmptyString => None
  end.

Fixpoint blankBTagGo (s : string) : string :=
  match s with
  | EmptyString => EmptyString
  | String x r =>
      if isSemi x then
        match matchBTag r with
        | Some rest => ";b=" +:+ rest
        | None => String x (blankBTagGo r)
        end
      else String x (blankBTagGo r)
  end.

(** [s.replace(re, "$1b=")] where [re] is, case-insensitively, the group
    [(^|;)] followed by [\s*b\s*=\s*] and a captured run of
    non-semicolons: the first [b] tag, at the start or after a semicolon,
    loses its value. *)
Definition blankBTag (s : string) : string :=
  match matchBTag s with
  | Some rest => "b=" +:+ rest
  | None => blankBTagGo s
  end.

(** [(chosenDKIM.tags.c || "simple").split("/")[0] || "simple"].  The
    exception names the callee as the engine prints it, the string literal
    between double quotes. *)
Definition headerModeOf (chosenDKIM : ParsedDKIM) : result string :=
  match tags chosenDKIM !! "c" with
  | Some TTrue =>
      Throw (notAFunction ("(chosenDKIM.tags.c || " +:+ DQUOTE +:+ "simple"
                             +:+ DQUOTE +:+ ").split"))
  | Some (TStr cs) =>
      Ok (JS.orElse (default "" (head (JS.split "/" (JS.orElse cs "simple"))))
                    "simple")
  | None => Ok "simple"
  end.

(** The synthetic DKIM-Signature header of lines 253-263. *)
Definition fakeHeaderObj (chosenDKIM : ParsedDKIM) : Header :=
  let dkimValueUnfold := unfoldDKIMValue (stripDkimName (praw chosenDKIM)) in
  let replaced := blankBTag dkimValueUnfold in
  let dkimHeaderForCanon := "dkim-signature:" +:+ replaced +:+ JS.CRLF in
  {| name := "dkim-signature"; value := replaced;
     raw := dkimHeaderForCanon; index := -1 |}.

Definition assembleCanonicalizedHeaderBlock (chosenDKIM : option ParsedDKIM)
           (headersList : list Header) : result (option string) :=
  match chosenDKIM with
  | None => Ok None
  | Some chosen =>
      bindR (headerModeOf chosen) (fun headerMode =>
        let blockPieces :=
          (fun h => canonicalizeHeader h headerMode)
            <$> selectedHeaders headersList (h_list chosen) in
        let dkimCanon := canonicalizeHeader (fakeHeaderObj chosen) headerMode in
        Ok (Some (JS.join "" (blockPieces ++ [dkimCanon]))))
  end.

(** ** chooseDKIMSignature *)

(** [p.tags.k && p.tags.k.toLowerCase()], for the test that follows:
    [None] when the tag is falsy. *)
Definition lowerTag (what : string) (p : ParsedDKIM) (k : string)
  : result (option string) :=
  match tags p !! k with
  | None => Ok None
  | Some TTrue => Throw (notAFunction what)
  | Some (TStr v) => Ok (if JS.truthy v then Some (JS.toLowerCase v) else None)
  end.

(** The first element whose lower-cased tag [k] satisfies [test]; the
    scan stops with the exception of the first element read whose tag is
    [true]. *)
Fixpoint findByTag (what k : string) (test : string -> bool)
         (l : list ParsedDKIM) : result (option ParsedDKIM) :=
  match l with
  | [] => Ok None
  | p :: rest =>
      bindR (lowerTag what p k) (fun v =>
        match v with
        | Some x => if test x then Ok (Some p) else findByTag what k test rest
        | None => findByTag what k test rest
        end)
  end.

Definition supported : list string := ["rsa-sha256"; "ed25519-sha256"].

(** [claimedDomain] is [None] when the caller passes no domain. *)
Definition chooseDKIMSignature (parsedDKIMs : list ParsedDKIM)
           (claimedDomain : option string) : result (option ParsedDKIM) :=
  match parsedDKIMs with
  | [] => Ok None
  | first :: _ =>
      bindR (if negb (JS.optFalsy claimedDomain) then
               findByTag "p.tags.d.toLowerCase" "d"
                 (fun x => String.eqb x
                             (JS.toLowerCase (default "" claimedDomain)))
                 parsedDKIMs
             else Ok None)
        (fun byDomain =>
           match byDomain with
           | Some p => Ok (Some p)
           | None =>
               bindR (findByTag "p.tags.a.toLowerCase" "a"
                        (fun x => bool_decide (x ∈ supported)) parsedDKIMs)
                 (fun byAlg =>
                    match byAlg with
                    | Some p => Ok (Some p)
                    | None => Ok (Some first)
                    end)
           end)
  end.

(** ** parseEmailRawBuffer, as far as the header block goes *)

Fixpoint mapR {A B : Type} (f : A -> result B) (l : list A)
  : result (list B) :=
  match l with
  | [] => Ok []
  | x :: r => bindR (f x) (fun y => bindR (mapR f r) (fun ys => Ok (y :: ys)))
  end.

(** The signature [parseEmailRawBuffer] canonicalizes for:
    [parsedDKIMs.length ? parsedDKIMs[0] : null]. *)
Definition chosenDKIMOf (normalized : string) : result (option ParsedDKIM) :=
  let headersList := parseHeaders (headersRawOf normalized) in
  bindR (mapR parseDKIMHeaderIntoTags (findDKIMSignatureHeaders headersList))
    (fun parsedDKIMs => Ok (head parsedDKIMs)).

(** ** splitHeadersAndBody and canonicalizeBody *)

(** [splitHeadersAndBody(...).bodyRaw]. *)
Definition bodyRawOf (normalizedText : string) : string :=
  let idx := JS.indexOf normalizedText (JS.CRLF +:+ JS.CRLF) in
  if idx =? -1 then ""
  else JS.substringFrom normalizedText (idx + 4).

(** The body mode chosen by [canonicalizeBody]: [parts[1] || "simple"]
    when [c] has exactly two parts, [simple] otherwise; [dkimTags] is [None]
    for [null]. *)
Definition bodyModeOf (dkimTags : option (gmap string TagVal))
  : result string :=
  match dkimTags with
  | None => Ok "simple"
  | Some tags =>
      match tags !! "c" with
      | None => Ok "simple"
      | Some TTrue => Throw (notAFunction "ctag.split")
      | Some (TStr ctag) =>
          if negb (JS.truthy ctag) then Ok "simple"
          else
            match JS.split "/" ctag with
            | [_; second] => Ok (JS.orElse second "simple")
            | _ => Ok "simple"
            end
      end
  end.

(** [lines.slice(0, end)] after [while (end > 0 && lines[end - 1] === "")
    end--]. *)
Fixpoint dropTrailingEmpty (lines : list string) : list string :=
  match lines with
  | [] => []
  | x :: r =>
      match dropTrailingEmpty r with
      | [] => if JS.truthy x then [x] else []
      | r' => x :: r'
      end
  end.

(** The line of the relaxed mode: trailing white space removed, runs of
    white space compressed. *)
Definition relaxLine (ln : string) : string :=
  JS.collapseWsp (JS.trimEndWsp ln).

Definition canonicalizeBody (bodyRawString : string)
           (dkimTags : option (gmap string TagVal)) : result string :=
  bindR (bodyModeOf dkimTags) (fun bodyMode =>
    let lines :=
      if (String.length bodyRawString =? 0)%nat then []
      else JS.splitCRLF bodyRawString in
    if String.eqb bodyMode "simple" then
      Ok (JS.join JS.CRLF (dropTrailingEmpty lines) +:+ JS.CRLF)
    else
      Ok (JS.join JS.CRLF (dropTrailingEmpty (relaxLine <$> lines))
            +:+ JS.CRLF)).

(** The field [canonicalizedHeaderBlock] of the output of
    [parseEmailRawBuffer].  The body is canonicalized first (line 375), for
    the tags of the chosen signature or for [null], and an exception
    thrown there ends the function before the header block is
    assembled. *)
Definition canonicalizedHeaderBlockOf (rawText : string)
  : result (option string) :=
  let normalized := normalizeLineEndings rawText in
  let headersList := parseHeaders (headersRawOf normalized) in
  bindR (chosenDKIMOf normalized) (fun chosenDKIM =>
    bindR (canonicalizeBody (bodyRawOf normalized) (tags <$> chosenDKIM))
      (fun canonicalizedBody =>
         assembleCanonicalizedHeaderBlock chosenDKIM headersList)).

End EmailParser.

(* ===================================================================== *)
(** * services/store/session.ts *)
(* ===================================================================== *)

Module SessionStore.

Record Session : Type := mkSession {
  id : string;
  domain : string;
  nonce : string;
  createdAt : Z
}.

Definition TTL_MS : Z := 30 * 60 * 1000.

(** The module state: the [SESSIONS] map and the content of the data
    file, [None] when it cannot be read or parsed. *)
Record Store : Type := mkStore {
  SESSIONS : gmap string Session;
  disk : option (list Session)
}.

Definition fresh (now : Z) (s : Session) : bool :=
  now - createdAt s <? TTL_MS.

Definition loadFromDisk (now : Z) (st : Store) : Store :=
  match disk st with
  | None => st
  | Some arr =>
      {| SESSIONS :=
           foldl (fun m s => if fresh now s then <[id s := s]> m else m)
                 (SESSIONS st) arr;
         disk := disk st |}
  end.

(** The part of [loadFromDisk] that runs once [fs.readFile] has
    answered.  [content] is what the read returned, [None] when it failed
    or the text does not parse.  The read is not atomic with the rest of
    the module: it is started at line 76 (by [getSession], and once when
    the module is loaded, line 98) and answered later, so [content] can be
    an older data file than [disk st]. *)
Definition completeLoad (content : option (list Session)) (now : Z)
           (st : Store) : Store :=
  match content with
  | None => st
  | Some arr =>
      {| SESSIONS :=
           foldl (fun m s => if fresh now s then <[id s := s]> m else m)
                 (SESSIONS st) arr;
         disk := disk st |}
  end.

(** The state once the write that [persistToDisk] starts has completed.
    The source does not await it ([void persistToDisk()]). *)
Definition persistToDisk (st : Store) : Store :=
  {| SESSIONS := SESSIONS st;
     disk := Some ((map_to_list (SESSIONS st)).*2) |}.

(** [createSession(domain)]; [newId] and [newNonce] are the random
    values drawn by [crypto.randomUUID] and [crypto.randomBytes]. *)
Definition createSession (newId newNonce : string) (now : Z)
           (dom : string) (st : Store) : Session * Store :=
  let s := {| id := newId; domain := JS.toLowerCase dom;
              nonce := newNonce; createdAt := now |} in
  (s, persistToDisk {| SESSIONS := <[newId := s]> (SESSIONS st);
                       disk := disk st |}).

(** [getSession(id)]; [now] is the clock read on entry and [nowLoad] the
    clock read by the fall-back to the data file. *)
Definition getSession (now nowLoad : Z) (sid : string) (st : Store)
  : option Session * Store :=
  let pruned := {| SESSIONS := filter (fun ks => fresh now ks.2 = true)
                                      (SESSIONS st);
                   disk := disk st |} in
  match SESSIONS pruned !! sid with
  | Some found => (Some found, pruned)
  | None =>
      let loaded := loadFromDisk nowLoad pruned in
      (SESSIONS loaded !! sid, loaded)
  end.

(** [deleteSession(id)], up to its return: the entry has left the map,
    and the write of the data file has been started only.  The data file
    holds the map without the entry in the state
    [persistToDisk (deleteSession sid st)], once that write has
    completed. *)
Definition deleteSession (sid : string) (st : Store) : Store :=
  {| SESSIONS := delete sid (SESSIONS st); disk := disk st |}.

End SessionStore.

(* ===================================================================== *)
(** * services/store/zkUsers.ts *)
(* ===================================================================== *)

Module ZkUsers.

(** [MEM], a plain object from lower-cased domain to its commitments.  The
    map holds its own properties; a key that is not one of them is looked up
    in [Object.prototype]. *)

(** The lower-case names that [Object.prototype] answers: [constructor]
    (a function) and [__proto__] (an object). *)
Definition inherited (k : string) : bool :=
  String.eqb k "constructor" || String.eqb k "__proto__".

(** [MEM[d] || []], then a call of [arr.includes]: the array, or the
    [TypeError] of calling [includes] on what the prototype answers. *)
Definition commitments (MEM : gmap string (list string)) (d : string)
  : result (list string) :=
  match MEM !! d with
  | Some arr => Ok arr
  | None =>
      if inherited d then Throw "arr.includes is not a function" else Ok []
  end.

(** [arr.includes(hHex)]. *)
Definition includes (arr : list string) (hHex : string) : bool :=
  bool_decide (hHex ∈ arr).

(** [addZKUser(domain, hHex)]; the store that results (the write to the
    data file apart), or the exception. *)
Definition addZKUser (dom hHex : string) (MEM : gmap string (list string))
  : result (gmap string (list string)) :=
  let d := JS.toLowerCase dom in
  bindR (commitments MEM d) (fun arr =>
    let arr' := if includes arr hHex then arr else arr ++ [hHex] in
    Ok (<[d := arr']> MEM)).

Definition hasZKUser (dom hHex : string) (MEM : gmap string (list string))
  : result bool :=
  let d := JS.toLowerCase dom in
  bindR (commitments MEM d) (fun arr => Ok (includes arr hHex)).

End ZkUsers.

(* ===================================================================== *)
(** * The commitment key (scripts/login_zk_test.js and its siblings) *)
(* ===================================================================== *)

Module Commitment.

(** [bytes.reduce((x, b) => (x << 8n) + BigInt(b), 0n)] on the bytes of a
    [Buffer] or [Uint8Array]; [limb128ToBigInt] of the pages is the same
    loop. *)
Definition be128ToBigInt (bytes : list Byte.byte) : N :=
  foldl (fun x b => (N.shiftl x 8 + Byte.to_N b)%N) 0%N bytes.

(** The digit of a value below 16, from [0123456789abcdef]. *)
Definition hexDigit (d : N) : ascii :=
  if (d <? 10)%N then ascii_of_N (48 + d) else ascii_of_N (87 + d).

(** The digits of [n] in base 16, most significant first, in front of
    [acc]; [fuel] bounds their number. *)
Fixpoint hexGo (fuel : nat) (n : N) (acc : string) : string :=
  match fuel with
  | O => acc
  | S fuel' =>
      if (n =? 0)%N then acc
      else hexGo fuel' (n / 16)%N (String (hexDigit (n mod 16)%N) acc)
  end.

(** [n.toString(16)] for a BigInt that is not negative.  A number has no
    more digits in base 16 than in base 2. *)
Definition toString16 (n : N) : string :=
  if (n =? 0)%N then "0" else hexGo (N.to_nat (N.size n)) n "".

Fixpoint zeros (n : nat) : string :=
  match n with
  | O => ""
  | S k => String "0" (zeros k)
  end.

(** [s.padStart(n, "0")]. *)
Definition padStart (n : nat) (s : string) : string :=
  zeros (n - String.length s) +:+ s.

(** ['0x' + hi.toString(16).padStart(32, '0')
          + lo.toString(16).padStart(32, '0')]. *)
Definition hHexOfLimbs (hi lo : N) : string :=
  "0x" +:+ padStart 32 (toString16 hi) +:+ padStart 32 (toString16 lo).

(** The commitment key the scripts compute from a digest: the limbs are
    [digest.subarray(0, 16)] and [digest.subarray(16, 32)]. *)
Definition hHexOfDigest (digest : list Byte.byte) : string :=
  hHexOfLimbs (be128ToBigInt (take 16 digest))
              (be128ToBigInt (take 16 (drop 16 digest))).

(** [buf.toString("hex")], which is what [digest("hex")] returns: two
    digits for each byte. *)
Fixpoint toHex (bytes : list Byte.byte) : string :=
  match bytes with
  | [] => ""
  | b :: r =>
      String (hexDigit (Byte.to_N b / 16)%N)
             (String (hexDigit (Byte.to_N b mod 16)%N) (toHex r))
  end.

End Commitment.

(* ===================================================================== *)
(** * app/api/verify-dkim-headers/route.ts *)
(* ===================================================================== *)

Module Route.

Import SessionStore.

Inductive Body : Type :=
  | ErrorBody (error : string)
  | Rejected (reason : string)
  | Bound (domain domainHash : string).

Record Response : Type := mkResponse { status : Z; body : Body }.

(** The reason strings of the handler. *)
Definition DomainMismatch : string := "domain mismatch".
Definition NonceNotFound : string := "nonce not found in subject".
Definition SubjectNotSigned : string := "subject not signed by dkim".

Section Handler.

Variable resolveTxt : string -> result (list (list string)).
Variable rsaVerify : forall (pem data sig : string), result bool.

Variable importDkimVerify :
  result (option (string -> result (list Dkim.LibResult))).

(** [keccak256(toUtf8Bytes(domain))]. *)
Variable domainHashOf : string -> string.

(** The checks the handler runs on a verification result once the
    session is known: lines 20-36 on the raw-message path and, with the
    same text, lines 44-62 on the headers-only path. *)
Definition bind (session : Session) (v : Dkim.VerifyResult) : Response :=
  if negb (Dkim.ok v) || JS.optFalsy (Dkim.domain v) then
    {| status := 400;
       body := Rejected (JS.optOr (Dkim.reason v) "dkim failed") |}
  else
    let domain := JS.toLowerCase (default "" (Dkim.domain v)) in
    if negb (String.eqb domain (SessionStore.domain session)) then
      {| status := 400; body := Rejected DomainMismatch |}
    else
      let subject := JS.toLowerCase (JS.optOr (Dkim.subject v) "") in
      if negb (JS.includes subject (JS.toLowerCase (nonce session))) then
        {| status := 400; body := Rejected NonceNotFound |}
      else
        let signed :=
          JS.toLowerCase <$> default [] (Dkim.signedHeaders v) in
        if negb (bool_decide ("subject" ∈ signed)) then
          {| status := 400; body := Rejected SubjectNotSigned |}
        else
          {| status := 200;
             body := Bound domain (domainHashOf domain) |}.

(** Lines 11-62 of [POST], what the handler does once [await req.json()]
    has returned; the request body is given by the three strings the
    handler reads from it. *)
Definition POST (now nowLoad : Z) (sessionId headersText rawEmail : string)
           (st : Store) : Response * Store :=
  if negb (JS.truthy sessionId) then
    ({| status := 400; body := ErrorBody "sessionId required" |}, st)
  else if JS.truthy rawEmail then
    let v := Dkim.verifyRawEmailWithLibrary importDkimVerify rawEmail in
    let '(session, st') := getSession now nowLoad sessionId st in
    match session with
    | None =>
        ({| status := 404; body := ErrorBody "session not found" |}, st')
    | Some session => (bind session v, st')
    end
  else if negb (JS.truthy headersText) then
    ({| status := 400;
        body := ErrorBody "headersText or rawEmail required" |}, st)
  else
    let '(session, st') := getSession now nowLoad sessionId st in
    match session with
    | None =>
        ({| status := 404; body := ErrorBody "session not found" |}, st')
    | Some session =>
        (bind session (Dkim.verifyHeadersOnly resolveTxt rsaVerify
                                              headersText), st')
    end.


End Handler.

(** The answer of [POST /api/session] (app/api/session/route.ts). *)
Inductive SessionBody : Type :=
  | SessionError (error : string)
  | SessionCreated (sessionId nonce domain : string).

(** [POST /api/session]; [bodyDomain] is [String(body?.domain || "")]. *)
Definition sessionPOST (newId newNonce : string) (now : Z)
           (bodyDomain : string) (st : Store)
  : (Z * SessionBody) * Store :=
  let dom := JS.trim bodyDomain in
  if negb (JS.truthy dom) then ((400, SessionError "domain required"), st)
  else
    let '(session, st') := createSession newId newNonce now dom st in
    ((200, SessionCreated (SessionStore.id session)
             (SessionStore.nonce session)
             (SessionStore.domain session)), st').

End Route.

(* ===================================================================== *)
(** * Specification-side definitions *)
(* ===================================================================== *)

Module Spec.

Section Selection.

Context {H : Type} (nameOf : H -> string).

(** Position [i] of [hdrs] holds a header called [n], case apart. *)
Definition named (hdrs : list H) (n : string) (i : nat) : Prop :=
  exists h, hdrs !! i = Some h
            /\ JS.toLowerCase (nameOf h) = JS.toLowerCase n.

(** Rightmost-unused selection, in the words of the specification:
    [Selects hdrs used hList idxs] says that, with the positions [used]
    taken already, going through [hList] in listed order selects the
    positions [idxs].  Each name takes the rightmost position of that
    name that is not used yet, which is then used; a name with no
    position left is skipped. *)
Inductive Selects (hdrs : list H)
  : list nat -> list string -> list nat -> Prop :=
  | Selects_done used : Selects hdrs used [] []
  | Selects_pick used n ns i idxs :
      named hdrs n i ->
      i ∉ used ->
      (forall j, named hdrs n j -> j ∉ used -> (j <= i)%nat) ->
      Selects hdrs (i :: used) ns idxs ->
      Selects hdrs used (n :: ns) (i :: idxs)
  | Selects_skip used n ns idxs :
      (forall j, named hdrs n j -> j ∈ used) ->
      Selects hdrs used ns idxs ->
      Selects hdrs used (n :: ns) idxs.

(** The selected headers are the ones at the selected positions. *)
Definition At (hdrs : list H) (idxs : list nat) (sel : list H) : Prop :=
  Forall2 (fun i h => hdrs !! i = Some h) idxs sel.

End Selection.

(** The positions of the headers whose lower-cased name is [n], in
    increasing order. *)
Definition positions (hdrs : list Dkim.Header) (n : string) : list nat :=
  omap (fun ih : nat * Dkim.Header =>
          if String.eqb (JS.toLowerCase (Dkim.name ih.2)) n
          then Some ih.1 else None)
       (imap pair hdrs).

(** The loop invariant of [selectSignedHeaders]: for each name, [ptr]
    splits the array of its positions into the ones still free (up to
    [ptr]) and the ones in [used] (after [ptr]). *)
Definition ptrInv (hdrs : list Dkim.Header) (used : list nat)
           (ptr : gmap string Z) : Prop :=
  forall n arr,
    Dkim.indexHeaders hdrs !! n = Some arr ->
    exists p, ptr !! n = Some p
              /\ -1 <= p < Z.of_nat (length arr)
              /\ forall k i, arr !! k = Some i ->
                             (i ∈ used <-> p < Z.of_nat k).

(** The [index] field of a parsed header is its position in the list. *)
Definition indexed (hl : list EmailParser.Header) : Prop :=
  forall i h, hl !! i = Some h -> EmailParser.index h = Z.of_nat i.

(** A tag is missing when the tag object has no value for it or an empty
    one: the test [!tags[k]] of the parser. *)
Definition missing (tags : gmap string string) (k : string) : Prop :=
  tags !! k = None \/ tags !! k = Some "".

(** The candidate selection policy, in the words of the specification. *)

(** Tag [k] of [p] has a non-empty value whose lower case passes [test]. *)
Definition tagIs (k : string) (test : string -> bool)
           (p : EmailParser.ParsedDKIM) : Prop :=
  exists v, EmailParser.tags p !! k = Some (EmailParser.TStr v)
            /\ v <> "" /\ test (JS.toLowerCase v) = true.

(** [d=] equals the claimed domain, case apart. *)
Definition domainIs (claimed : string) (p : EmailParser.ParsedDKIM) : Prop :=
  tagIs "d" (fun x => String.eqb x (JS.toLowerCase claimed)) p.

(** [a=] is [rsa-sha256] or [ed25519-sha256], case apart. *)
Definition supportedAlg (p : EmailParser.ParsedDKIM) : Prop :=
  tagIs "a" (fun x => bool_decide (x ∈ EmailParser.supported)) p.

(** [p] is the first element of [l] with property [P]. *)
Definition firstSuch (P : EmailParser.ParsedDKIM -> Prop)
           (l : list EmailParser.ParsedDKIM) (p : EmailParser.ParsedDKIM)
  : Prop :=
  exists pre post, l = pre ++ p :: post /\ P p /\ forall q, q ∈ pre -> ~ P q.

(** Tag [k] of [p] is not the value [true] of a tag written without [=]. *)
Definition plain (k : string) (p : EmailParser.ParsedDKIM) : Prop :=
  EmailParser.tags p !! k <> Some EmailParser.TTrue.

(** No element of [l] is preferred for its domain: no domain is claimed, or
    no [d=] equals the claimed one. *)
Definition noDomainMatch (l : list EmailParser.ParsedDKIM)
           (claimedDomain : option string) : Prop :=
  JS.optFalsy claimedDomain = true
  \/ exists claimed,
      claimedDomain = Some claimed
      /\ forall q, q ∈ l -> plain "d" q /\ ~ domainIs claimed q.

(** The base64 alphabet, padding included. *)
Definition isBase64Char (x : ascii) : bool :=
  let n := JS.code x in
  ((48 <=? n) && (n <=? 57) || (65 <=? n) && (n <=? 90)
   || (97 <=? n) && (n <=? 122) || (n =? 43) || (n =? 47) || (n =? 61))%N.

Fixpoint isBase64 (s : string) : bool :=
  match s with
  | EmptyString => true
  | String x r => isBase64Char x && isBase64 r
  end.

(** The TXT records of a name joined into one string, as
    [fetchDkimPublicKey] joins them. *)
Definition flatTxt (records : list (list string)) : string :=
  JS.join "" (JS.join "" <$> records).

(** The outcome [KeyNotFound] for a selector and a domain. *)
Definition KeyNotFound (selector dom : string) : Dkim.VerifyResult :=
  Dkim.failure ("dkim public key not found for "
                  +:+ selector +:+ "._domainkey." +:+ dom).

(** The verification result the handler binds to the session: the
    library path when a raw message is posted, the headers-only path
    otherwise. *)
Definition attempt (resolveTxt : string -> result (list (list string)))
           (rsaVerify : string -> string -> string -> result bool)
           (importDkimVerify :
              result (option (string -> result (list Dkim.LibResult))))
           (headersText rawEmail : string) : Dkim.VerifyResult :=
  if JS.truthy rawEmail
  then Dkim.verifyRawEmailWithLibrary importDkimVerify rawEmail
  else Dkim.verifyHeadersOnly resolveTxt rsaVerify headersText.

(** ** Definitions for the further properties *)

(** The keys of the session map are the ids of the sessions. *)
Definition keyedById (st : SessionStore.Store) : Prop :=
  forall k s, SessionStore.SESSIONS st !! k = Some s -> SessionStore.id s = k.

(** The header of the verifier that a header of the CLI stands for. *)
Definition toDkim (h : EmailParser.Header) : Dkim.Header :=
  {| Dkim.name := EmailParser.name h; Dkim.value := EmailParser.value h |}.

(** Every character of [s] satisfies [p]. *)
Fixpoint allChars (p : ascii -> bool) (s : string) : bool :=
  match s with
  | EmptyString => true
  | String x r => p x && allChars p r
  end.

(** An unfolded header line: it does not start with a space or a tab, has
    a colon and no line terminator. *)
Definition isColon (x : ascii) : bool := Ascii.eqb x ":".

Definition headerLine (line : string) : bool :=
  negb (JS.headIs JS.isWsp line) && JS.includes line ":"
  && allChars (fun x => negb (JS.isLineTerminator x)) line.

(** The header such a line stands for: the name is the text before the
    first colon, the value the trimmed text after it. *)
Definition headerOf (line : string) : Dkim.Header :=
  {| Dkim.name := JS.takeUntil isColon line;
     Dkim.value := JS.trim (JS.skipn 1 (JS.dropUntil isColon line)) |}.

(** The text made of the lines, each followed by CRLF. *)
Fixpoint crlfLines (lines : list string) : string :=
  match lines with
  | [] => ""
  | line :: rest => line +:+ JS.CRLF +:+ crlfLines rest
  end.

(** White space that is a space or a tab: the character is no CR, LF, VT,
    FF or NBSP. *)
Definition plainWs (x : ascii) : bool :=
  implb (JS.isWhiteSpace x) (JS.isWsp x).

(** The [k] digits of [n] modulo [16^k] in base 16. *)
Fixpoint hexFixed (k : nat) (n : N) : string :=
  match k with
  | O => ""
  | S k' =>
      hexFixed k' (n / 16)%N
        +:+ String (Commitment.hexDigit (n mod 16)%N) ""
  end.

(** A digit of base 16 in lower case. *)
Definition isLowerHex (x : ascii) : bool :=
  let n := JS.code x in
  ((48 <=? n) && (n <=? 57) || (97 <=? n) && (n <=? 102))%N.

(** [s] has no tab and no two spaces in a row; [prevSp] says that a space
    stands before [s]. *)
Fixpoint collapsedFrom (prevSp : bool) (s : string) : bool :=
  match s with
  | EmptyString => true
  | String c r =>
      if JS.isWsp c
      then Ascii.eqb c JS.SP && negb prevSp && collapsedFrom true r
      else collapsedFrom false r
  end.

(** Every line break of [s] is a CRLF: no LF without a CR before it and no
    CR without a LF after it. *)
Fixpoint crlfOnly (s : string) : bool :=
  match s with
  | EmptyString => true
  | String c r =>
      if Ascii.eqb c JS.LF then false
      else if Ascii.eqb c JS.CR then
        match r with
        | String c2 r2 => Ascii.eqb c2 JS.LF && crlfOnly r2
        | EmptyString => false
        end
      else crlfOnly r
  end.

End Spec.

(* ===================================================================== *)
(** * Concrete messages *)
(* ===================================================================== *)

Module Examples.

(** Headers [A, B, A] and the signed-header list [a, a, b]. *)
Definition abaDkim : list Dkim.Header :=
  [ {| Dkim.name := "A"; Dkim.value := "first" |};
    {| Dkim.name := "B"; Dkim.value := "middle" |};
    {| Dkim.name := "A"; Dkim.value := "last" |} ].

Definition abaText : string :=
  "A: first" +:+ JS.CRLF +:+ "B: middle" +:+ JS.CRLF +:+ "A: last"
    +:+ JS.CRLF.

Definition abaParsed : list EmailParser.Header :=
  EmailParser.parseHeaders abaText.

Definition aab : list string := ["a"; "a"; "b"].

(** A message with two Subject headers. *)
Definition twoSubjects : string :=
  "Subject: first 7f3a9c21" +:+ JS.CRLF
    +:+ "DKIM-Signature: v=1; a=rsa-sha256; d=example.com; s=sel1; "
    +:+ "h=from:subject; bh=abc=; b=AAAA" +:+ JS.CRLF
    +:+ "From: a@example.com" +:+ JS.CRLF
    +:+ "Subject: second" +:+ JS.CRLF.

(** A resolver that publishes one key for every name, and a verifier
    that accepts every signature. *)
Definition anyKey (qname : string) : result (list (list string)) :=
  Ok [["v=DKIM1; k=rsa; p="; "QUJD"]].

Definition accept (pem data sig : string) : result bool := Ok true.

Definition twoSubjectsLast : Dkim.Header :=
  {| Dkim.name := "Subject"; Dkim.value := "second" |}.

Definition twoSubjectsBefore : list Dkim.Header :=
  take 3 (Dkim.hlist (Dkim.parseHeaders (JS.trim twoSubjects))).

(** No [mailauth] package. *)
Definition noLibrary
  : result (option (string -> result (list Dkim.LibResult))) := Ok None.

Definition hashOf (dom : string) : string := "0x" +:+ dom.

(** A store with one session for [example.com]. *)
Definition theSession : SessionStore.Session :=
  {| SessionStore.id := "sid-1"; SessionStore.domain := "example.com";
     SessionStore.nonce := "7f3a9c21"; SessionStore.createdAt := 1000 |}.

Definition theStore : SessionStore.Store :=
  {| SessionStore.SESSIONS := {[ "sid-1" := theSession ]};
     SessionStore.disk := None |}.

(** The same store once the data file has been written. *)
Definition savedStore : SessionStore.Store :=
  {| SessionStore.SESSIONS := {[ "sid-1" := theSession ]};
     SessionStore.disk := Some [theSession] |}.

(** A signed message for [example.com] with selector [sel1]. *)
Definition signedMsg : string :=
  "From: a@example.com" +:+ JS.CRLF
    +:+ "Subject: Verify 7f3a9c21" +:+ JS.CRLF
    +:+ "DKIM-Signature: v=1; a=rsa-sha256; d=example.com; s=sel1; "
    +:+ "h=from:subject; bh=abc=; b=AAAA; t=1" +:+ JS.CRLF.

(** A message with two DKIM-Signature headers: the first, of [other.org],
    has no [b=]; the second, of [example.com], is complete. *)
Definition twoSignatures : string :=
  "From: a@example.com" +:+ JS.CRLF
    +:+ "Subject: Verify 7f3a9c21" +:+ JS.CRLF
    +:+ "DKIM-Signature: v=1; a=rsa-sha1; d=other.org; s=k1; h=from"
    +:+ JS.CRLF
    +:+ "DKIM-Signature: v=1; a=rsa-sha256; d=example.com; s=sel1; "
    +:+ "h=from:subject; bh=abc=; b=AAAA" +:+ JS.CRLF.

Definition secondBlock : string :=
  "DKIM-Signature: v=1; a=rsa-sha256; d=example.com; s=sel1; "
    +:+ "h=from:subject; bh=abc=; b=AAAA".

(** Its first DKIM-Signature block, and the message without it. *)
Definition firstBlock : string :=
  "DKIM-Signature: v=1; a=rsa-sha1; d=other.org; s=k1; h=from".

Definition secondOnly : string :=
  "From: a@example.com" +:+ JS.CRLF
    +:+ "Subject: Verify 7f3a9c21" +:+ JS.CRLF
    +:+ "DKIM-Signature: v=1; a=rsa-sha256; d=example.com; s=sel1; "
    +:+ "h=from:subject; bh=abc=; b=AAAA" +:+ JS.CRLF.

(** All its DKIM-Signature headers, parsed by the CLI. *)
Definition twoParsed : list EmailParser.ParsedDKIM :=
  match EmailParser.mapR EmailParser.parseDKIMHeaderIntoTags
          (EmailParser.findDKIMSignatureHeaders
             (EmailParser.parseHeaders
                (EmailParser.headersRawOf
                   (EmailParser.normalizeLineEndings twoSignatures)))) with
  | Ok ps => ps
  | Throw _ => []
  end.

Definition emptyParsed : EmailParser.ParsedDKIM :=
  {| EmailParser.praw := ""; EmailParser.tags := ∅;
     EmailParser.h_list := [] |}.

Definition firstParsed : EmailParser.ParsedDKIM :=
  default emptyParsed (twoParsed !! 0%nat).

Definition secondParsed : EmailParser.ParsedDKIM :=
  default emptyParsed (twoParsed !! 1%nat).

(** A message whose signature asks for relaxed header canonicalization. *)
Definition relaxedMsg : string :=
  "From: a@example.com" +:+ JS.CRLF
    +:+ "Subject: Verify 7f3a9c21" +:+ JS.CRLF
    +:+ "DKIM-Signature: v=1; a=rsa-sha256; c=relaxed/relaxed; "
    +:+ "d=example.com; s=sel1; h=from:subject; bh=abc=; b=AAAA; t=1"
    +:+ JS.CRLF.

(** Its signature, as [parseDkimSignature] reads it. *)
Definition relaxedSig : Dkim.DkimSig :=
  {| Dkim.sig_a := "rsa-sha256"; Dkim.sig_d := "example.com";
     Dkim.sig_s := "sel1"; Dkim.sig_h := ["from"; "subject"];
     Dkim.sig_b := "AAAA"; Dkim.sig_c := "relaxed/relaxed" |}.

(** The signing input of RFC 6376 for it: the two signed headers and the
    DKIM-Signature header with an empty [b=], without a final line break. *)
Definition relaxedSigningInput : string :=
  "from:a@example.com" +:+ JS.CRLF
    +:+ "subject:Verify 7f3a9c21" +:+ JS.CRLF
    +:+ "dkim-signature:v=1; a=rsa-sha256; c=relaxed/relaxed; "
    +:+ "d=example.com; s=sel1; h=from:subject; bh=abc=; b=; t=1".

(** A DKIM-Signature block with white space around the [=] of [b]. *)
Definition spacedB : string :=
  "DKIM-Signature: v=1; d=example.com; s=sel1; h=from; b = AAAA".

(** A Subject header folded over two lines. *)
Definition foldedSubject : string :=
  "Subject: hello" +:+ JS.CRLF +:+ " world" +:+ JS.CRLF.

(** A resolver whose TXT record carries key material that is not base64. *)
Definition badKeyTxt (qname : string) : result (list (list string)) :=
  Ok [["v=DKIM1; k=rsa; p=!!!not-base64!!!"]].

(** No TXT record: the lookup is rejected. *)
Definition noTxt (qname : string) : result (list (list string)) :=
  Throw ("queryTxt ENOTFOUND " +:+ qname).

(** A TXT record without [p=]. *)
Definition noPTag (qname : string) : result (list (list string)) :=
  Ok [["v=DKIM1; k=rsa"]].

(** A verifier that, as OpenSSL does, throws on a PEM body that is not
    base64 and accepts otherwise. *)
Definition strictVerifier (pem data sig : string) : result bool :=
  if Spec.isBase64
       (JS.join "" (List.filter
                      (fun l => negb (JS.startsWith l "-----"))
                      (JS.split JS.LF pem)))
  then Ok true
  else Throw "error:1E08010C:DECODER routines::unsupported".

(** A DKIM-Signature block without [s=]. *)
Definition noSelector : string :=
  "DKIM-Signature: v=1; a=rsa-sha256; d=example.com; h=from:subject; b=AAAA".

(** A message whose DKIM-Signature declares no algorithm. *)
Definition noAlgorithm : string :=
  "From: a@example.com" +:+ JS.CRLF
    +:+ "Subject: Verify 7f3a9c21" +:+ JS.CRLF
    +:+ "DKIM-Signature: v=1; d=example.com; s=sel1; h=from:subject; b=AAAA".

Definition noAlgorithmBlock : string :=
  "DKIM-Signature: v=1; d=example.com; s=sel1; h=from:subject; b=AAAA".

(** A message signed by [mail.example.com]. *)
Definition fromSubdomain : string :=
  "From: a@mail.example.com" +:+ JS.CRLF
    +:+ "Subject: Verify 7F3A9C21" +:+ JS.CRLF
    +:+ "DKIM-Signature: v=1; a=rsa-sha256; d=mail.example.com; s=sel1; "
    +:+ "h=from:subject; bh=abc=; b=AAAA" +:+ JS.CRLF.

(** A message signed by [example.com] whose h= leaves the Subject out. *)
Definition subjectUnsigned : string :=
  "From: a@example.com" +:+ JS.CRLF
    +:+ "Subject: Verify 7F3A9C21" +:+ JS.CRLF
    +:+ "DKIM-Signature: v=1; a=rsa-sha256; d=Example.com; s=sel1; "
    +:+ "h=from:date; bh=abc=; b=AAAA" +:+ JS.CRLF.

(** A signature block of [example.com] that signs the From header only,
    and a raw message that carries it. *)
Definition genuineBlock : string :=
  "DKIM-Signature: v=1; a=rsa-sha256; d=example.com; s=sel1; "
    +:+ "h=from; bh=abc=; b=AAAA".

Definition genuineMsg : string :=
  genuineBlock +:+ JS.CRLF
    +:+ "From: a@example.com" +:+ JS.CRLF
    +:+ "Subject: Verify 7f3a9c21" +:+ JS.CRLF
    +:+ JS.CRLF +:+ "body" +:+ JS.CRLF.

(** A block with the domain, the selector and the [b=] value of
    [genuineBlock] whose [h=] names the Subject, and [genuineMsg] with that
    block put in front of it. *)
Definition decoyBlock : string :=
  "DKIM-Signature: v=1; a=rsa-sha256; d=example.com; s=sel1; "
    +:+ "h=subject; bh=abc=; b=AAAA".

Definition decoyMsg : string := decoyBlock +:+ JS.CRLF +:+ genuineMsg.

(** What the library reports for the signature of [genuineBlock], which
    verifies, and for the one of [decoyBlock], which does not;
    [signingHeaders.keys] is no array. *)
Definition genuinePass : Dkim.LibResult :=
  {| Dkim.statusResult := Some "pass";
     Dkim.signingDomain := Some "example.com";
     Dkim.selector := Some "sel1";
     Dkim.signature := Some "AAAA";
     Dkim.signingHeaderKeys := None |}.

Definition decoyFail : Dkim.LibResult :=
  {| Dkim.statusResult := Some "fail";
     Dkim.signingDomain := Some "example.com";
     Dkim.selector := Some "sel1";
     Dkim.signature := Some "AAAA";
     Dkim.signingHeaderKeys := None |}.

(** The library on the two messages: one result for each DKIM-Signature
    header, in the order of the headers. *)
Definition decoyLibrary
  : result (option (string -> result (list Dkim.LibResult))) :=
  Ok (Some (fun rawEmail =>
              if String.eqb rawEmail decoyMsg
              then Ok [decoyFail; genuinePass]
              else Ok [genuinePass])).

(** A signature whose [d] tag was written without a value, as the CLI
    parses it. *)
Definition bareDomainParsed : EmailParser.ParsedDKIM :=
  match EmailParser.parseDKIMHeaderIntoTags
          {| EmailParser.name := "DKIM-Signature";
             EmailParser.value :=
               "v=1; a=rsa-sha256; d; s=sel1; h=from; b=AAAA";
             EmailParser.raw :=
               "DKIM-Signature: v=1; a=rsa-sha256; d; s=sel1; h=from; b=AAAA"
                 +:+ JS.CRLF;
             EmailParser.index := 0 |} with
  | Ok parsed => parsed
  | Throw _ => emptyParsed
  end.

(** ** Inputs for the further properties *)

(** A result of the library whose signature did not verify. *)
Definition failedResult : Dkim.LibResult :=
  {| Dkim.statusResult := Some "fail";
     Dkim.signingDomain := Some "example.com";
     Dkim.selector := Some "sel1";
     Dkim.signature := Some "AAAA";
     Dkim.signingHeaderKeys := Some ["From"; "Subject"] |}.

(** A library that reports that one result for every message. *)
Definition failingLibrary
  : result (option (string -> result (list Dkim.LibResult))) :=
  Ok (Some (fun _ => Ok [failedResult])).

(** A raw message whose Subject carries the nonce of [theSession]. *)
Definition rawMsg : string :=
  "From: a@example.com" +:+ JS.CRLF
    +:+ "Subject: Verify 7F3A9C21" +:+ JS.CRLF
    +:+ JS.CRLF +:+ "body" +:+ JS.CRLF.

(** An empty store. *)
Definition emptyStore : SessionStore.Store :=
  {| SessionStore.SESSIONS := ∅; SessionStore.disk := None |}.

(** A digest of 32 bytes whose two halves start with zero bytes. *)
Definition digest : list Byte.byte :=
  [ Byte.x00; Byte.x00; Byte.x0a; Byte.xff; Byte.x10; Byte.x01; Byte.x23;
    Byte.x45; Byte.x67; Byte.x89; Byte.xab; Byte.xcd; Byte.xef; Byte.x00;
    Byte.x7f; Byte.x80;
    Byte.x00; Byte.x01; Byte.x02; Byte.x03; Byte.x04; Byte.x05; Byte.x06;
    Byte.x07; Byte.x08; Byte.x09; Byte.x0a; Byte.x0b; Byte.x0c; Byte.x0d;
    Byte.x0e; Byte.x0f ].

(** A header with tabs and runs of spaces in its value. *)
Definition spacedSubject : Dkim.Header :=
  {| Dkim.name := "Subject";
     Dkim.value := "  Hello " +:+ String JS.TAB "  world  " |}.

(** A message signed by [example.com] whose Subject carries the nonce of
    [theSession] in capitals. *)
Definition capitalNonce : string :=
  "From: a@example.com" +:+ JS.CRLF
    +:+ "Subject: VERIFY 7F3A9C21" +:+ JS.CRLF
    +:+ "DKIM-Signature: v=1; a=rsa-sha256; d=Example.COM; s=sel1; "
    +:+ "h=From:Subject; bh=abc=; b=AAAA" +:+ JS.CRLF.

End Examples.

(* ===================================================================== *)
(** * The primitives on small inputs *)
(* ===================================================================== *)

Example split_keeps_empty_pieces : JS.split ";" "a;b;" = ["a"; "b"; ""].
Proof. reflexivity. Qed.

Example splitLines_accepts_both_breaks :
  JS.splitLines ("a" +:+ JS.CRLF +:+ "b" +:+ String JS.LF "c")
  = ["a"; "b"; "c"].
Proof. reflexivity. Qed.

Example trim_strips_line_breaks :
  JS.trim (String JS.TAB " x  y " +:+ JS.CRLF) = "x  y".
Proof. reflexivity. Qed.

Example slice_counts_from_the_end : JS.slice "abcd" 0 (-1) = "abc".
Proof. reflexivity. Qed.

Example indexOf_not_found : JS.indexOf "abc" ":" = -1.
Proof. reflexivity. Qed.

Example toLowerCase_header_name :
  JS.toLowerCase "DKIM-Signature" = "dkim-signature".
Proof. reflexivity. Qed.

Example unfoldLF_folded_tag_list :
  JS.unfoldLF ("s=sel1;" +:+ JS.CRLF +:+ String JS.TAB " h=from")
  = "s=sel1; h=from".
Proof. reflexivity. Qed.

Example blankB_keeps_semicolon :
  Dkim.blankB false "v=1; bh=xyz=; b=AAAA; t=1" = "v=1; bh=xyz=; b=; t=1".
Proof. reflexivity. Qed.

Example blankB_is_not_fooled_by_bh :
  Dkim.blankB false "bh=xyz=; B=AA BB" = "bh=xyz=; b=".
Proof. reflexivity. Qed.

Example blankBTag_drops_the_space_before_b :
  EmailParser.blankBTag "v=1; bh=xyz=; b = AAAA; t=1" = "v=1; bh=xyz=;b=; t=1".
Proof. reflexivity. Qed.

Example matchP_reads_the_key :
  Dkim.matchP false "v=DKIM1; k=rsa; p=QUJD; t=y" = Some "QUJD".
Proof. reflexivity. Qed.

Example normalizeLineEndings_lone_breaks :
  EmailParser.normalizeLineEndings
    (String JS.LF (String JS.CR (String JS.CR (String JS.LF "a"))))
  = JS.CRLF +:+ JS.CRLF +:+ JS.CRLF +:+ "a".
Proof. reflexivity. Qed.

(* ===================================================================== *)
(** * Rightmost-unused selection (selectSignedHeaders) *)
(* ===================================================================== *)

Section SelectsFacts.

Context {H : Type} (nameOf : H -> string).

Lemma Selects_fresh (hdrs : list H) used ns idxs :
  Spec.Selects nameOf hdrs used ns idxs ->
  NoDup idxs /\ forall i, i ∈ idxs -> i ∉ used.
Proof.
  induction 1 as [used|used n ns i idxs Hn Hi Hmax _ [IHnd IHfr]
                 |used n ns idxs Hall _ IH]; [|  | exact IH].
  - split; [constructor | intros i Hi; inversion Hi].
  - split.
    + constructor; [|exact IHnd].
      intros Hin. apply (IHfr _ Hin). left.
    + intros j [->|Hj]%elem_of_cons; [exact Hi|].
      intros Hu. apply (IHfr _ Hj). by right.
Qed.

(** The relation determines the selection. *)
Lemma Selects_det (hdrs : list H) used ns idxs1 idxs2 :
  Spec.Selects nameOf hdrs used ns idxs1 ->
  Spec.Selects nameOf hdrs used ns idxs2 ->
  idxs1 = idxs2.
Proof.
  intros H1. revert idxs2.
  induction H1 as [used|used n ns i idxs Hn Hi Hmax _ IH
                  |used n ns idxs Hall _ IH]; intros idxs2 H2.
  - by inversion H2.
  - inversion H2 as [|? ? ? i' idxs' Hn' Hi' Hmax' Hrest|? ? ? ? Hall' Hrest];
      subst.
    + assert (i = i') as <-.
      { apply Nat.le_antisymm; [apply Hmax'|apply Hmax]; done. }
      f_equal. by apply IH.
    + exfalso. apply Hi. by apply Hall'.
  - inversion H2 as [|? ? ? i' idxs' Hn' Hi' Hmax' Hrest|? ? ? ? Hall' Hrest];
      subst.
    + exfalso. apply Hi'. by apply Hall.
    + by apply IH.
Qed.

End SelectsFacts.

Section DkimSelection.

Implicit Types (hdrs : list Dkim.Header) (n : string).

Lemma positions_snoc hdrs x n :
  Spec.positions (hdrs ++ [x]) n
  = Spec.positions hdrs n
      ++ (if String.eqb (JS.toLowerCase (Dkim.name x)) n
          then [length hdrs] else []).
Proof.
  unfold Spec.positions. rewrite imap_app, omap_app. f_equal.
  simpl. rewrite Nat.add_0_r.
  by destruct (String.eqb _ _).
Qed.

Lemma positions_spec hdrs n i :
  i ∈ Spec.positions hdrs n
  <-> exists h, hdrs !! i = Some h /\ JS.toLowerCase (Dkim.name h) = n.
Proof.
  induction hdrs as [|x hdrs IH] using rev_ind.
  - split; [intros Hi; inversion Hi | intros (h & Hh & _); inversion Hh].
  - rewrite positions_snoc, elem_of_app, IH. split.
    + intros [(h & Hh & Hn)|Hi].
      * exists h. split; [|done]. by apply lookup_app_l_Some.
      * destruct (String.eqb _ _) eqn:E; [|inversion Hi].
        apply list_elem_of_singleton in Hi as ->.
        exists x. split; [apply list_lookup_middle; done|].
        by apply String.eqb_eq.
    + intros (h & Hh & Hn).
      apply lookup_app_Some in Hh as [Hh|[Hlen Hh]].
      * left. by exists h.
      * right. destruct (i - length hdrs)%nat as [|k] eqn:Ek; [|done].
        simpl in Hh. injection Hh as ->.
        apply String.eqb_eq in Hn. rewrite Hn.
        apply list_elem_of_singleton. lia.
Qed.

Lemma positions_lt hdrs n i :
  i ∈ Spec.positions hdrs n -> (i < length hdrs)%nat.
Proof.
  intros (h & Hh & _)%positions_spec. by eapply lookup_lt_Some.
Qed.

(** The positions are listed in strictly increasing order. *)
Lemma positions_increasing hdrs n k1 k2 i1 i2 :
  Spec.positions hdrs n !! k1 = Some i1 ->
  Spec.positions hdrs n !! k2 = Some i2 ->
  (k1 < k2)%nat -> (i1 < i2)%nat.
Proof.
  revert k1 k2 i1 i2.
  induction hdrs as [|x hdrs IH] using rev_ind; intros k1 k2 i1 i2.
  - intros Hk; inversion Hk.
  - rewrite positions_snoc. intros H1 H2 Hlt.
    apply lookup_app_Some in H2 as [H2|[Hlen H2]].
    + rewrite lookup_app_l in H1
        by (apply lookup_lt_Some in H2; lia).
      eauto.
    + destruct (String.eqb _ _); [|by destruct (k2 - _)%nat].
      apply list_lookup_singleton_Some in H2 as [Hk <-].
      rewrite lookup_app_l in H1 by lia.
      apply (positions_lt hdrs n). eapply list_elem_of_lookup_2; eauto.
Qed.

Lemma indexHeaders_snoc hdrs x :
  Dkim.indexHeaders (hdrs ++ [x])
  = <[JS.toLowerCase (Dkim.name x) :=
        default [] (Dkim.indexHeaders hdrs !! JS.toLowerCase (Dkim.name x))
          ++ [length hdrs]]> (Dkim.indexHeaders hdrs).
Proof.
  unfold Dkim.indexHeaders. rewrite imap_app, foldl_app. simpl.
  by rewrite Nat.add_0_r.
Qed.

(** [indicesByName] maps a name to its positions, when there are any. *)
Lemma indexHeaders_lookup hdrs n :
  Dkim.indexHeaders hdrs !! n
  = match Spec.positions hdrs n with [] => None | arr => Some arr end.
Proof.
  induction hdrs as [|x hdrs IH] using rev_ind; [done|].
  rewrite indexHeaders_snoc, positions_snoc.
  destruct (String.eqb (JS.toLowerCase (Dkim.name x)) n) eqn:E.
  - apply String.eqb_eq in E. subst n. rewrite lookup_insert_eq, IH.
    by destruct (Spec.positions hdrs _).
  - rewrite lookup_insert_ne, IH, app_nil_r; [done|].
    intros Heq. by rewrite Heq, String.eqb_refl in E.
Qed.

Lemma indexHeaders_Some hdrs n arr :
  Dkim.indexHeaders hdrs !! n = Some arr ->
  arr = Spec.positions hdrs n /\ arr <> [].
Proof.
  rewrite indexHeaders_lookup.
  destruct (Spec.positions hdrs n) eqn:E; [done|].
  intros [= <-]. done.
Qed.

Lemma indexHeaders_None hdrs n :
  Dkim.indexHeaders hdrs !! n = None -> Spec.positions hdrs n = [].
Proof.
  rewrite indexHeaders_lookup. by destruct (Spec.positions hdrs n).
Qed.

Lemma ptrInv_initial hdrs :
  Spec.ptrInv hdrs [] (Dkim.initialPtr (Dkim.indexHeaders hdrs)).
Proof.
  intros n arr Harr. exists (Z.of_nat (length arr) - 1).
  unfold Dkim.initialPtr. rewrite lookup_fmap, Harr. split; [done|].
  split; [lia|]. intros k i Hk. apply lookup_lt_Some in Hk.
  split; [intros Hi; inversion Hi | lia].
Qed.

Lemma named_positions hdrs nRaw j :
  Spec.named Dkim.name hdrs nRaw j
  <-> j ∈ Spec.positions hdrs (JS.toLowerCase nRaw).
Proof. by rewrite positions_spec. Qed.

(** Selecting position [arr !! p] keeps the invariant. *)
Lemma ptrInv_step hdrs used ptr n arr p idx :
  Spec.ptrInv hdrs used ptr ->
  Dkim.indexHeaders hdrs !! n = Some arr ->
  ptr !! n = Some p -> 0 <= p ->
  arr !! Z.to_nat p = Some idx ->
  Spec.ptrInv hdrs (idx :: used) (<[n := p - 1]> ptr).
Proof.
  intros Hinv Harr Hp Hp0 Hidx n' arr' Harr'.
  destruct (decide (n = n')) as [<-|Hne].
  - rewrite Harr in Harr'. injection Harr' as <-.
    exists (p - 1). rewrite lookup_insert_eq. split; [done|].
    destruct (Hinv _ _ Harr) as (p' & Hp' & Hrange & Hused).
    rewrite Hp in Hp'. injection Hp' as <-.
    split; [lia|]. intros k i Hk. rewrite elem_of_cons, (Hused _ _ Hk).
    apply indexHeaders_Some in Harr as [-> _].
    destruct (decide (k = Z.to_nat p)) as [->|Hkp].
    + rewrite Hidx in Hk. injection Hk as ->. split; [lia|by left].
    + split; [intros [->|Hlt]|intros Hlt; right; lia]; [|lia].
      exfalso. destruct (Nat.lt_total k (Z.to_nat p)) as [Hlt|[?|Hlt]];
        [|done|].
      * pose proof (positions_increasing _ _ _ _ _ _ Hk Hidx Hlt). lia.
      * pose proof (positions_increasing _ _ _ _ _ _ Hidx Hk Hlt). lia.
  - destruct (Hinv _ _ Harr') as (p' & Hp' & Hrange & Hused).
    exists p'. rewrite lookup_insert_ne by done. split; [done|].
    split; [done|]. intros k i Hk. rewrite elem_of_cons, (Hused _ _ Hk).
    split; [intros [->|?]; [|done]|by right].
    exfalso. apply Hne.
    apply indexHeaders_Some in Harr as [-> _].
    apply indexHeaders_Some in Harr' as [-> _].
    apply list_elem_of_lookup_2 in Hidx, Hk.
    apply positions_spec in Hidx as (h1 & Hh1 & <-).
    apply positions_spec in Hk as (h2 & Hh2 & <-). congruence.
Qed.

(** The loop of [selectSignedHeaders] selects as the specification says. *)
Lemma select_loop hdrs ns :
  forall used ptr sel,
    Spec.ptrInv hdrs used ptr ->
    exists idxs sel',
      Spec.Selects Dkim.name hdrs used ns idxs
      /\ (foldl (Dkim.selectStep hdrs (Dkim.indexHeaders hdrs))
                (ptr, sel) ns).2 = sel ++ sel'
      /\ Spec.At hdrs idxs sel'.
Proof.
  induction ns as [|nRaw ns IH]; intros used ptr sel Hinv.
  - exists [], []. split; [constructor|]. split; [|constructor].
    by rewrite app_nil_r.
  - simpl. unfold Dkim.selectStep at 2. simpl.
    destruct (Dkim.indexHeaders hdrs !! JS.toLowerCase nRaw)
      as [arr|] eqn:Harr.
    + destruct (Hinv _ _ Harr) as (p & Hp & Hrange & Hused).
      pose proof (indexHeaders_Some _ _ _ Harr) as [Epos Hne].
      destruct (length arr =? 0)%nat eqn:Hlen.
      { apply Nat.eqb_eq in Hlen. destruct arr; done. }
      rewrite Hp. destruct (p <? 0) eqn:Hneg.
      * apply Z.ltb_lt in Hneg.
        destruct (IH used ptr sel Hinv) as (idxs & sel' & HS & Hf & HA).
        exists idxs, sel'. split; [|done].
        apply Spec.Selects_skip; [|done].
        intros j Hj%named_positions. rewrite <- Epos in Hj.
        apply list_elem_of_lookup_1 in Hj as [k Hk].
        apply (Hused _ _ Hk). lia.
      * apply Z.ltb_ge in Hneg.
        destruct (lookup_lt_is_Some_2 arr (Z.to_nat p)) as [idx Hidx];
          [lia|].
        rewrite Hidx. simpl.
        assert (idx ∈ Spec.positions hdrs (JS.toLowerCase nRaw)) as Hin.
        { rewrite <- Epos. by eapply list_elem_of_lookup_2. }
        pose proof Hin as (hdr & Hhdr & Hname)%positions_spec.
        rewrite Hhdr.
        destruct (IH (idx :: used) (<[JS.toLowerCase nRaw := p - 1]> ptr)
                     (sel ++ [hdr])) as (idxs & sel' & HS & Hf & HA).
        { by eapply ptrInv_step. }
        exists (idx :: idxs), (hdr :: sel'). split; [|split].
        -- apply Spec.Selects_pick; [by exists hdr| | |done].
           ++ rewrite (Hused _ _ Hidx). lia.
           ++ intros j Hj%named_positions Hfree. rewrite <- Epos in Hj.
              apply list_elem_of_lookup_1 in Hj as [k Hk].
              rewrite (Hused _ _ Hk) in Hfree.
              destruct (decide (k = Z.to_nat p)) as [->|Hkp];
                [rewrite Hidx in Hk; injection Hk as ->; lia|].
              assert (k < Z.to_nat p)%nat as Hlt by lia.
              rewrite Epos in Hk, Hidx.
              pose proof (positions_increasing _ _ _ _ _ _ Hk Hidx Hlt).
              lia.
        -- rewrite Hf, <- app_assoc. done.
        -- by constructor.
    + destruct (IH used ptr sel Hinv) as (idxs & sel' & HS & Hf & HA).
      exists idxs, sel'. split; [|done].
      apply Spec.Selects_skip; [|done].
      intros j Hj%named_positions.
      rewrite (indexHeaders_None _ _ Harr) in Hj. inversion Hj.
Qed.

Lemma selectSignedHeaders_selects hdrs hList :
  exists idxs,
    Spec.Selects Dkim.name hdrs [] hList idxs
    /\ NoDup idxs
    /\ Spec.At hdrs idxs (Dkim.selectSignedHeaders hdrs hList).
Proof.
  destruct (select_loop hdrs hList [] _ [] (ptrInv_initial hdrs))
    as (idxs & sel' & HS & Hf & HA).
  exists idxs. split; [done|]. split.
  - by apply (Selects_fresh _ _ _ _ _ HS).
  - unfold Dkim.selectSignedHeaders. by rewrite Hf.
Qed.

End DkimSelection.

Section ParserSelection.

Implicit Types (hl : list EmailParser.Header) (U : gset Z).

Lemma findRightmostUnusedFrom_Some U hl ln k h :
  EmailParser.findRightmostUnusedFrom U hl ln k = Some h ->
  exists i, (i < k)%nat /\ hl !! i = Some h
            /\ JS.toLowerCase (EmailParser.name h) = ln
            /\ (EmailParser.index h ∉ U)
            /\ (forall j h', (i < j < k)%nat -> hl !! j = Some h' ->
                             JS.toLowerCase (EmailParser.name h') = ln ->
                             EmailParser.index h' ∈ U).
Proof.
  induction k as [|k IH]; [done|]. simpl.
  destruct (hl !! k) as [hk|] eqn:Hk.
  - destruct (String.eqb _ ln) eqn:En; simpl.
    + apply String.eqb_eq in En.
      destruct (bool_decide _) eqn:Eu; simpl.
      * apply bool_decide_eq_true in Eu. intros Hf.
        destruct (IH Hf) as (i & Hi & Hh & Hn & Hu & Hmax).
        exists i. repeat split; [lia|done..|].
        intros j h' Hj Hh' Hn'.
        destruct (decide (j = k)) as [->|]; [congruence|].
        apply (Hmax j); [lia|done..].
      * apply bool_decide_eq_false in Eu. intros [= <-].
        exists k. repeat split; [lia|done..|]. intros; lia.
    + intros Hf. destruct (IH Hf) as (i & Hi & Hh & Hn & Hu & Hmax).
      exists i. repeat split; [lia|done..|].
      intros j h' Hj Hh' Hn'.
      destruct (decide (j = k)) as [->|].
      * rewrite Hk in Hh'. injection Hh' as <-.
        rewrite Hn' in En. by rewrite String.eqb_refl in En.
      * apply (Hmax j); [lia|done..].
  - intros Hf. destruct (IH Hf) as (i & Hi & Hh & Hn & Hu & Hmax).
    exists i. repeat split; [lia|done..|].
    intros j h' Hj Hh' Hn'.
    destruct (decide (j = k)) as [->|]; [congruence|].
    apply (Hmax j); [lia|done..].
Qed.

Lemma findRightmostUnusedFrom_None U hl ln k :
  EmailParser.findRightmostUnusedFrom U hl ln k = None ->
  forall j h', (j < k)%nat -> hl !! j = Some h' ->
               JS.toLowerCase (EmailParser.name h') = ln ->
               EmailParser.index h' ∈ U.
Proof.
  induction k as [|k IH]; [intros; lia|]. simpl.
  intros Hf j h' Hj Hh' Hn'.
  destruct (decide (j = k)) as [->|].
  - rewrite Hh' in Hf. rewrite Hn', String.eqb_refl in Hf. simpl in Hf.
    destruct (bool_decide _) eqn:Eu; [|done].
    by apply bool_decide_eq_true in Eu.
  - apply (IH) with (j := j); [|lia|done..].
    destruct (hl !! k); [|done].
    by destruct (_ && _).
Qed.

(** The loop of [assembleCanonicalizedHeaderBlock] selects as the
    specification says, when [index] fields are positions. *)
Lemma selected_loop hl ns :
  Spec.indexed hl ->
  forall used U sel,
    (forall i, Z.of_nat i ∈ U <-> i ∈ used) ->
    exists idxs sel',
      Spec.Selects EmailParser.name hl used ns idxs
      /\ (foldl (EmailParser.selectStep hl) (U, sel) ns).2 = sel ++ sel'
      /\ Spec.At hl idxs sel'.
Proof.
  intros Hidx.
  induction ns as [|nRaw ns IH]; intros used U sel HU.
  - exists [], []. split; [constructor|]. split; [|constructor].
    by rewrite app_nil_r.
  - simpl. unfold EmailParser.selectStep at 2. simpl.
    unfold EmailParser.findRightmostUnused.
    destruct (EmailParser.findRightmostUnusedFrom _ _ _ _)
      as [found|] eqn:Hf.
    + apply findRightmostUnusedFrom_Some in Hf
        as (i & Hi & Hh & Hn & Hu & Hmax).
      pose proof (Hidx _ _ Hh) as Ei.
      destruct (IH (i :: used) ({[EmailParser.index found]} ∪ U)
                   (sel ++ [found])) as (idxs & sel' & HS & Hfold & HA).
      { intros j. rewrite Ei, elem_of_union, elem_of_singleton,
          elem_of_cons, HU. split; intros [?|?]; auto with lia. }
      exists (i :: idxs), (found :: sel'). split; [|split].
      * apply Spec.Selects_pick; [by exists found| | |done].
        -- rewrite <- HU, <- Ei. done.
        -- intros j (h' & Hh' & Hn') Hfree.
           destruct (decide (j <= i)%nat); [done|]. exfalso.
           apply Hfree, HU. rewrite <- (Hidx _ _ Hh').
           apply (Hmax j); [|done..].
           apply lookup_lt_Some in Hh'. lia.
      * rewrite Hfold, <- app_assoc. done.
      * by constructor.
    + destruct (IH used U sel HU) as (idxs & sel' & HS & Hfold & HA).
      exists idxs, sel'. split; [|done].
      apply Spec.Selects_skip; [|done].
      intros j (h' & Hh' & Hn'). apply HU. rewrite <- (Hidx _ _ Hh').
      eapply findRightmostUnusedFrom_None; [done| |done..].
      by eapply lookup_lt_Some.
Qed.

Lemma selectedHeaders_selects hl hList :
  Spec.indexed hl ->
  exists idxs,
    Spec.Selects EmailParser.name hl [] hList idxs
    /\ NoDup idxs
    /\ Spec.At hl idxs (EmailParser.selectedHeaders hl hList).
Proof.
  intros Hidx.
  destruct (selected_loop hl hList Hidx [] ∅ [])
    as (idxs & sel' & HS & Hf & HA).
  { intros i. split; [set_solver|intros Hi; inversion Hi]. }
  exists idxs. split; [done|]. split.
  - by apply (Selects_fresh _ _ _ _ _ HS).
  - unfold EmailParser.selectedHeaders. by rewrite Hf.
Qed.

Lemma parseLoop_indexed lines :
  forall hl idx,
    Spec.indexed hl -> idx = Z.of_nat (length hl) ->
    Spec.indexed (EmailParser.parseLoop lines hl idx).
Proof.
  induction lines as [|line rest IH]; intros hl idx Hidx Hlen; [done|].
  simpl. destruct (String.eqb line ""); [by apply IH|].
  destruct (JS.headIs JS.isWsp line).
  - apply IH; [|by rewrite length_alter].
    intros i h Hh.
    destruct (decide (length hl - 1 = i)%nat) as [E|E].
    + rewrite E, list_lookup_alter_eq in Hh.
      destruct (hl !! i) as [h0|] eqn:Hh0; [|done].
      injection Hh as <-. simpl. by apply Hidx.
    + rewrite list_lookup_alter_ne in Hh by done. by apply Hidx.
  - apply IH.
    + intros i h [Hh|[Hi Hh]]%lookup_app_Some; [by apply Hidx|].
      destruct (i - length hl)%nat eqn:E; [|done].
      injection Hh as <-. destruct (_ =? -1); simpl; lia.
    + rewrite length_app. simpl. lia.
Qed.

Lemma parseHeaders_indexed headersRaw :
  Spec.indexed (EmailParser.parseHeaders headersRaw).
Proof.
  apply parseLoop_indexed; [|done]. intros i h Hh. inversion Hh.
Qed.

End ParserSelection.

(** C1.  For every ordered header list and every h= list, the headers that
    enter the signing input are selected as follows: for each name of h=,
    in listed order, the rightmost occurrence of that name (case apart) that
    has not been selected yet; no occurrence is selected twice, and a name
    with no occurrence left is skipped.  This holds for
    [selectSignedHeaders] of the verifier and, on header lists whose [index]
    fields are their positions (as [parseHeaders] builds them), for the loop
    of [assembleCanonicalizedHeaderBlock]; the signing input of the one and
    the block of the other are the canonicalizations of the headers so
    selected, in that order, followed by the DKIM-Signature line.  For
    headers [A, B, A] and h= [a, a, b] the selection is position 2,
    position 0, position 1. *)
Theorem C1_rightmost_unused_selection
        (hdrs : list Dkim.Header) (hl : list EmailParser.Header)
        (hList : list string) (Hidx : Spec.indexed hl) :
  (exists idxs,
      Spec.Selects Dkim.name hdrs [] hList idxs
      /\ NoDup idxs
      /\ Spec.At hdrs idxs (Dkim.selectSignedHeaders hdrs hList))
  /\ (exists idxs,
         Spec.Selects EmailParser.name hl [] hList idxs
         /\ NoDup idxs
         /\ Spec.At hl idxs (EmailParser.selectedHeaders hl hList))
  /\ (forall ph dkim,
         Dkim.signedData ph dkim
         = JS.join JS.CRLF
             (Dkim.relaxedHeaderObj
                <$> Dkim.selectSignedHeaders (Dkim.hlist ph) (Dkim.sig_h dkim))
             +:+ JS.CRLF
             +:+ Dkim.relaxedHeader (Dkim.withEmptyB (Dkim.rawDkim ph)))
  /\ (forall chosen,
         EmailParser.assembleCanonicalizedHeaderBlock (Some chosen) hl
         = bindR (EmailParser.headerModeOf chosen)
             (fun headerMode =>
                Ok (Some
                      (JS.join ""
                         (((fun h =>
                              EmailParser.canonicalizeHeader h headerMode)
                             <$> EmailParser.selectedHeaders
                                   hl (EmailParser.h_list chosen))
                            ++ [EmailParser.canonicalizeHeader
                                  (EmailParser.fakeHeaderObj chosen)
                                  headerMode])))))
  /\ Dkim.selectSignedHeaders Examples.abaDkim Examples.aab
     = [ {| Dkim.name := "A"; Dkim.value := "last" |};
         {| Dkim.name := "A"; Dkim.value := "first" |};
         {| Dkim.name := "B"; Dkim.value := "middle" |} ]
  /\ EmailParser.index
       <$> EmailParser.selectedHeaders Examples.abaParsed Examples.aab
     = [2; 0; 1].
Proof.
  split; [apply selectSignedHeaders_selects|].
  split; [by apply selectedHeaders_selects|].
  split; [done|]. split; [done|].
  split; vm_compute; reflexivity.
Qed.

Lemma C1_rightmost_unused_selection_witness :
  Spec.indexed Examples.abaParsed
  /\ exists idxs,
      Spec.Selects EmailParser.name Examples.abaParsed [] Examples.aab idxs
      /\ NoDup idxs
      /\ Spec.At Examples.abaParsed idxs
           (EmailParser.selectedHeaders Examples.abaParsed Examples.aab).
Proof.
  assert (Spec.indexed Examples.abaParsed) as Hidx.
  { intros i h. destruct i as [|[|[|i]]]; vm_compute; intros Hh;
      inversion Hh; reflexivity. }
  split; [exact Hidx|].
  exact (proj1 (proj2 (C1_rightmost_unused_selection
                         Examples.abaDkim Examples.abaParsed Examples.aab
                         Hidx))).
Defined.

(* ===================================================================== *)
(** * getHeaderValue *)
(* ===================================================================== *)

Section GetHeaderValue.

Implicit Types (pre post : list Dkim.Header) (h : Dkim.Header).

Lemma getHeaderValueFrom_last pre h post n m :
  JS.toLowerCase (Dkim.name h) = n ->
  (forall h', h' ∈ post -> JS.toLowerCase (Dkim.name h') <> n) ->
  (m <= length post)%nat ->
  Dkim.getHeaderValueFrom (pre ++ h :: post) n (S (length pre + m))
  = Some (Dkim.value h).
Proof.
  intros Hn Hpost. induction m as [|m IH]; intros Hm.
  - rewrite Nat.add_0_r. simpl. rewrite list_lookup_middle by done.
    by rewrite Hn, String.eqb_refl.
  - cbn [Dkim.getHeaderValueFrom].
    replace (length pre + S m)%nat with (S (length pre + m)) by lia.
    destruct (lookup_lt_is_Some_2 post m) as [h' Hh']; [lia|].
    assert ((pre ++ h :: post) !! S (length pre + m) = Some h') as ->.
    { rewrite lookup_app_r by lia.
      replace (S (length pre + m) - length pre)%nat with (S m) by lia.
      done. }
    destruct (String.eqb _ n) eqn:E.
    + apply String.eqb_eq in E. exfalso.
      eapply Hpost; [|exact E]. by eapply list_elem_of_lookup_2.
    + apply IH. lia.
Qed.

Lemma getHeaderValue_last pre h post nm :
  JS.toLowerCase (Dkim.name h) = JS.toLowerCase nm ->
  (forall h', h' ∈ post ->
              JS.toLowerCase (Dkim.name h') <> JS.toLowerCase nm) ->
  Dkim.getHeaderValue (pre ++ h :: post) nm = Some (Dkim.value h).
Proof.
  intros Hn Hpost. unfold Dkim.getHeaderValue.
  rewrite length_app. simpl.
  replace (length pre + S (length post))%nat
    with (S (length pre + length post)) by lia.
  by apply getHeaderValueFrom_last.
Qed.

Lemma checkSignature_ok_subject resolveTxt rsaVerify ph dkim :
  Dkim.ok (Dkim.checkSignature resolveTxt rsaVerify ph dkim) = true ->
  Dkim.subject (Dkim.checkSignature resolveTxt rsaVerify ph dkim)
  = Dkim.subjectOf (Dkim.hlist ph).
Proof.
  unfold Dkim.checkSignature.
  destruct (Dkim.fetchDkimPublicKey _ _ _); [|done].
  by destruct (rsaVerify _ _ _) as [[|]|].
Qed.

Lemma verifyHeadersOnly_ok_subject resolveTxt rsaVerify headersText :
  Dkim.ok (Dkim.verifyHeadersOnly resolveTxt rsaVerify headersText) = true ->
  Dkim.subject (Dkim.verifyHeadersOnly resolveTxt rsaVerify headersText)
  = Dkim.subjectOf (Dkim.hlist (Dkim.parseHeaders (JS.trim headersText))).
Proof.
  unfold Dkim.verifyHeadersOnly.
  destruct (Dkim.parseDkimSignature _); [|done].
  destruct (negb _); [done|]. apply checkSignature_ok_subject.
Qed.

End GetHeaderValue.

(** C10.  When a header name occurs several times, [getHeaderValue] returns
    the value of its last occurrence; so the Subject reported by a
    successful [verifyHeadersOnly], which the handler then searches for the
    nonce as [v.subject || ""], is the value of the last Subject header of
    the message. *)
Theorem C10_getHeaderValue_last_occurrence
        (pre post : list Dkim.Header) (h : Dkim.Header) (nm : string)
        (Hname : JS.toLowerCase (Dkim.name h) = JS.toLowerCase nm)
        (Hlast : forall h',
            h' ∈ post ->
            JS.toLowerCase (Dkim.name h') <> JS.toLowerCase nm) :
  Dkim.getHeaderValue (pre ++ h :: post) nm = Some (Dkim.value h)
  /\ forall resolveTxt rsaVerify headersText,
      nm = "subject" ->
      Dkim.hlist (Dkim.parseHeaders (JS.trim headersText)) = pre ++ h :: post ->
      let v := Dkim.verifyHeadersOnly resolveTxt rsaVerify headersText in
      Dkim.ok v = true ->
      Dkim.subject v
      = (if JS.truthy (Dkim.value h) then Some (Dkim.value h) else None)
      /\ JS.optOr (Dkim.subject v) "" = Dkim.value h.
Proof.
  split; [by apply getHeaderValue_last|].
  intros resolveTxt rsaVerify headersText -> Hlist v Hok. subst v.
  rewrite (verifyHeadersOnly_ok_subject _ _ _ Hok), Hlist.
  unfold Dkim.subjectOf. rewrite (getHeaderValue_last pre h post "subject")
    by done.
  destruct (Dkim.value h) as [|x r]; simpl; done.
Qed.

Lemma C10_getHeaderValue_last_occurrence_witness :
  JS.toLowerCase (Dkim.name Examples.twoSubjectsLast) = JS.toLowerCase "subject"
  /\ Dkim.getHeaderValue
       (Examples.twoSubjectsBefore ++ [Examples.twoSubjectsLast]) "subject"
     = Some "second"
  /\ Dkim.subject
       (Dkim.verifyHeadersOnly Examples.anyKey Examples.accept
                               Examples.twoSubjects)
     = Some "second".
Proof.
  pose proof (C10_getHeaderValue_last_occurrence
                Examples.twoSubjectsBefore [] Examples.twoSubjectsLast
                "subject" eq_refl
                (fun h' Hin => False_ind _ (not_elem_of_nil h' Hin)))
    as [Hget Hsub].
  split; [reflexivity|]. split; [exact Hget|].
  refine (proj1 (Hsub Examples.anyKey Examples.accept Examples.twoSubjects
                      eq_refl _ _)); vm_compute; reflexivity.
Defined.

(* ===================================================================== *)
(** * The DKIM tag parser (parseDkimSignature) *)
(* ===================================================================== *)

Section TagParser.

Implicit Types (raw : string) (sig : Dkim.DkimSig).

Lemma truthy_optFalsy (o : option string) :
  JS.optFalsy o = false -> exists d, o = Some d /\ JS.truthy d = true.
Proof.
  destruct o as [d|]; [|done]. simpl. intros Hd. exists d.
  split; [done|]. by destruct (JS.truthy d).
Qed.

Lemma isDkimBlock_truthy raw :
  Dkim.isDkimBlock raw = true -> JS.truthy raw = true.
Proof. by destruct raw. Qed.

(** On a DKIM-Signature block the parser is the test of the four
    required tags. *)
Lemma parseDkimSignature_block raw :
  Dkim.isDkimBlock raw = true ->
  Dkim.parseDkimSignature raw
  = let tags := Dkim.dkimTags raw in
    if JS.optFalsy (tags !! "d") || JS.optFalsy (tags !! "s")
       || (length (Dkim.hNames tags) =? 0)%nat
       || negb (JS.truthy (Dkim.bValue tags))
    then None
    else Some {| Dkim.sig_a := JS.optOr (tags !! "a") "rsa-sha256";
                 Dkim.sig_d := default "" (tags !! "d");
                 Dkim.sig_s := default "" (tags !! "s");
                 Dkim.sig_h := Dkim.hNames tags;
                 Dkim.sig_b := Dkim.bValue tags;
                 Dkim.sig_c := JS.optOr (tags !! "c") "relaxed/relaxed" |}.
Proof.
  intros Hb. unfold Dkim.parseDkimSignature.
  rewrite (isDkimBlock_truthy _ Hb). unfold Dkim.isDkimBlock in Hb.
  by rewrite Hb.
Qed.

Lemma parseDkimSignature_not_block raw :
  Dkim.isDkimBlock raw = false -> Dkim.parseDkimSignature raw = None.
Proof.
  intros Hb. unfold Dkim.parseDkimSignature. unfold Dkim.isDkimBlock in Hb.
  rewrite Hb. by destruct (negb (JS.truthy raw)).
Qed.

Lemma parseDkimSignature_Some raw sig :
  Dkim.parseDkimSignature raw = Some sig ->
  Dkim.isDkimBlock raw = true
  /\ exists d s,
      Dkim.dkimTags raw !! "d" = Some d /\ JS.truthy d = true
      /\ Dkim.dkimTags raw !! "s" = Some s /\ JS.truthy s = true
      /\ sig = {| Dkim.sig_a :=
                    JS.optOr (Dkim.dkimTags raw !! "a") "rsa-sha256";
                  Dkim.sig_d := d; Dkim.sig_s := s;
                  Dkim.sig_h := Dkim.hNames (Dkim.dkimTags raw);
                  Dkim.sig_b := Dkim.bValue (Dkim.dkimTags raw);
                  Dkim.sig_c :=
                    JS.optOr (Dkim.dkimTags raw !! "c") "relaxed/relaxed" |}
      /\ Dkim.hNames (Dkim.dkimTags raw) <> []
      /\ JS.truthy (Dkim.bValue (Dkim.dkimTags raw)) = true.
Proof.
  destruct (Dkim.isDkimBlock raw) eqn:Hb;
    [|by rewrite parseDkimSignature_not_block].
  rewrite parseDkimSignature_block by done. cbv zeta.
  destruct (JS.optFalsy (_ !! "d")) eqn:Ed; [done|].
  destruct (JS.optFalsy (_ !! "s")) eqn:Es; [done|].
  destruct (length _ =? 0)%nat eqn:Eh; [done|].
  destruct (JS.truthy (Dkim.bValue _)) eqn:Eb; [|done]. simpl.
  apply truthy_optFalsy in Ed as (d & Hd & Htd).
  apply truthy_optFalsy in Es as (s & Hs & Hts).
  intros [= <-]. split; [done|]. exists d, s. rewrite Hd, Hs.
  repeat split; try done.
  intros E. by rewrite E in Eh.
Qed.

(** Tag values are trimmed: none starts with white space. *)
Lemma trimStart_head s : JS.headIs JS.isWhiteSpace (JS.trimStart s) = false.
Proof.
  induction s as [|x r IH]; [done|]. simpl.
  destruct (JS.isWhiteSpace x) eqn:E; [done|]. simpl. done.
Qed.

Lemma trimEnd_head s :
  JS.headIs JS.isWhiteSpace s = false ->
  JS.headIs JS.isWhiteSpace (JS.trimEnd s) = false.
Proof.
  destruct s as [|x r]; [done|]. simpl. intros Hx. by rewrite Hx.
Qed.

Lemma trim_head s : JS.headIs JS.isWhiteSpace (JS.trim s) = false.
Proof. apply trimEnd_head, trimStart_head. Qed.

Lemma parseTag_value_head kv :
  JS.headIs JS.isWhiteSpace (Dkim.parseTag kv).2 = false.
Proof.
  unfold Dkim.parseTag. destruct (_ =? -1); [done|]. apply trim_head.
Qed.

Lemma fromEntries_values (P : string -> Prop) (l : list (string * string)) :
  (forall kv, kv ∈ l -> P kv.2) ->
  forall k v, Dkim.fromEntries l !! k = Some v -> P v.
Proof.
  unfold Dkim.fromEntries.
  assert (forall m : gmap string string,
             (forall k v, m !! k = Some v -> P v) ->
             (forall kv, kv ∈ l -> P kv.2) ->
             forall k v,
               foldl (fun m kv => <[kv.1 := kv.2]> m) m l !! k = Some v ->
               P v) as Hgen.
  { induction l as [|kv l IH]; intros m Hm Hl k v; [apply Hm|].
    simpl. apply IH.
    - intros k' v'. destruct (decide (kv.1 = k')) as [<-|Hne].
      + rewrite lookup_insert_eq. intros [= <-]. apply Hl. left.
      + rewrite lookup_insert_ne by done. apply Hm.
    - intros kv' Hin. apply Hl. by right. }
  intros Hl. apply Hgen; [|done]. intros k v Hk. by rewrite lookup_empty in Hk.
Qed.

Lemma dkimTags_value_head raw k v :
  Dkim.dkimTags raw !! k = Some v -> JS.headIs JS.isWhiteSpace v = false.
Proof.
  unfold Dkim.dkimTags.
  apply (fromEntries_values (fun v => JS.headIs JS.isWhiteSpace v = false)).
  intros kv (kv0 & -> & _)%list_elem_of_fmap. apply parseTag_value_head.
Qed.

Lemma stripWhiteSpace_empty v :
  JS.headIs JS.isWhiteSpace v = false -> JS.stripWhiteSpace v = "" -> v = "".
Proof.
  destruct v as [|x r]; [done|]. unfold JS.stripWhiteSpace. simpl.
  intros ->. done.
Qed.

(** The signature value is empty exactly when [b=] is missing. *)
Lemma bValue_falsy raw :
  JS.truthy (Dkim.bValue (Dkim.dkimTags raw)) = false
  <-> Spec.missing (Dkim.dkimTags raw) "b".
Proof.
  unfold Dkim.bValue, Spec.missing.
  destruct (Dkim.dkimTags raw !! "b") as [v|] eqn:Hv; simpl.
  - pose proof (dkimTags_value_head _ _ _ Hv) as Hhead.
    unfold JS.orElse. destruct v as [|x r]; [by split; auto|].
    simpl in *. split.
    + intros Hb. exfalso.
      destruct (JS.stripWhiteSpace (String x r)) eqn:E; [|done].
      by apply stripWhiteSpace_empty in E.
    + intros [?|?]; done.
  - split; auto.
Qed.

Lemma optFalsy_missing (tags : gmap string string) k :
  JS.optFalsy (tags !! k) = true <-> Spec.missing tags k.
Proof.
  unfold Spec.missing. destruct (tags !! k) as [[|x r]|]; simpl;
    (split; [intros Hf|intros [Hm|Hm]]); auto; done.
Qed.

Lemma parseDkimSignature_None raw :
  Dkim.isDkimBlock raw = true ->
  Dkim.parseDkimSignature raw = None
  <-> Spec.missing (Dkim.dkimTags raw) "d"
      \/ Spec.missing (Dkim.dkimTags raw) "s"
      \/ Dkim.hNames (Dkim.dkimTags raw) = []
      \/ Spec.missing (Dkim.dkimTags raw) "b".
Proof.
  intros Hb. rewrite parseDkimSignature_block by done. cbv zeta.
  rewrite <- bValue_falsy, <- !optFalsy_missing.
  destruct (JS.optFalsy (_ !! "d")); [by split; auto|].
  destruct (JS.optFalsy (_ !! "s")); [by split; auto|].
  destruct (Dkim.hNames _) eqn:Eh; [by split; auto|].
  destruct (JS.truthy (Dkim.bValue _)); simpl; [|by split; auto].
  split; [done|]. intros [?|[?|[?|?]]]; done.
Qed.

End TagParser.

(** C7 (as the code has it).  For a DKIM-Signature block, the tag parser
    returns no signature, and throws nothing, exactly when [d=] is missing,
    [s=] is missing, the list of [h=] is empty, or [b=] is missing, where a
    tag is missing when the tag object has no value or an empty value for
    it.  What follows depends on the caller.  [verifyHeadersOnly] has one
    candidate, the first DKIM-Signature block of the message: when that
    block is unusable, the verification ends there with the typed outcome
    "no dkim-signature header".  The scan of the library path, which looks
    for the signed-header list, skips such a block and goes on to the
    next. *)
Theorem C7_unusable_signature
        (raw : string) (Hblock : Dkim.isDkimBlock raw = true) :
  (Dkim.parseDkimSignature raw = None
   <-> Spec.missing (Dkim.dkimTags raw) "d"
       \/ Spec.missing (Dkim.dkimTags raw) "s"
       \/ Dkim.hNames (Dkim.dkimTags raw) = []
       \/ Spec.missing (Dkim.dkimTags raw) "b")
  /\ (Dkim.parseDkimSignature raw = None ->
      (forall resolveTxt rsaVerify headersText,
          Dkim.rawDkim (Dkim.parseHeaders (JS.trim headersText)) = raw ->
          Dkim.verifyHeadersOnly resolveTxt rsaVerify headersText
          = Dkim.failure "no dkim-signature header")
      /\ (forall d s passSig rest,
             Dkim.matchingSignedHeaders d s passSig (raw :: rest)
             = Dkim.matchingSignedHeaders d s passSig rest)).
Proof.
  split; [by apply parseDkimSignature_None|].
  intros Hnone. split.
  - intros resolveTxt rsaVerify headersText Hraw.
    unfold Dkim.verifyHeadersOnly. by rewrite Hraw, Hnone.
  - intros d s passSig rest. simpl. by rewrite Hnone.
Qed.

Lemma C7_unusable_signature_witness :
  Dkim.isDkimBlock Examples.noSelector = true
  /\ Dkim.dkimTags Examples.noSelector !! "s" = None
  /\ Dkim.parseDkimSignature Examples.noSelector = None.
Proof.
  split; [reflexivity|]. split; [vm_compute; reflexivity|].
  apply (proj2 (proj1 (C7_unusable_signature Examples.noSelector eq_refl))).
  right. left. left. vm_compute. reflexivity.
Defined.

(** C7, as stated, fails: an unusable signature is not set aside in favour
    of the other candidates.  The first DKIM-Signature block of this message
    has no [b=], the second is complete.  [verifyHeadersOnly] ends with "no
    dkim-signature header", although the message with the second block
    alone verifies under the same key and the same RSA verdicts. *)
Lemma C7_unusable_first_block_counterexample :
  List.filter Dkim.isDkimBlock
    (Dkim.allRawBlocks (JS.trim Examples.twoSignatures))
  = [Examples.firstBlock; Examples.secondBlock]
  /\ Dkim.rawDkim (Dkim.parseHeaders (JS.trim Examples.twoSignatures))
     = Examples.firstBlock
  /\ Spec.missing (Dkim.dkimTags Examples.firstBlock) "b"
  /\ Dkim.parseDkimSignature Examples.firstBlock = None
  /\ is_Some (Dkim.parseDkimSignature Examples.secondBlock)
  /\ Dkim.verifyHeadersOnly Examples.anyKey Examples.accept
                            Examples.twoSignatures
     = Dkim.failure "no dkim-signature header"
  /\ Dkim.rawDkim (Dkim.parseHeaders (JS.trim Examples.secondOnly))
     = Examples.secondBlock
  /\ Dkim.ok (Dkim.verifyHeadersOnly Examples.anyKey Examples.accept
                                     Examples.secondOnly) = true.
Proof.
  split; [vm_compute; reflexivity|].
  split; [vm_compute; reflexivity|].
  split; [left; vm_compute; reflexivity|].
  split; [vm_compute; reflexivity|].
  split; [vm_compute; by eexists|].
  split; [vm_compute; reflexivity|].
  split; vm_compute; reflexivity.
Qed.

(** C9.  A DKIM-Signature block that has [d=], [s=], a non-empty [h=] and
    [b=] but no [a=] is parsed with the algorithm [rsa-sha256], and
    [verifyHeadersOnly] goes on with it as with a declared [rsa-sha256]: it
    looks the key up under the selector and the domain of the block and
    checks the [b=] value against the signing input with RSA-SHA256.  The
    outcome is that of those two steps: "dkim public key not found" when the
    lookup gives no key; success, with the [d=] value and the [h=] list,
    when the check returns true; "dkim signature invalid" when it returns
    false; the text of the exception when it throws.  The block is rejected
    neither as unsupported nor as unusable. *)
Theorem C9_default_algorithm
        (raw : string) (Hblock : Dkim.isDkimBlock raw = true)
        (Ha : Spec.missing (Dkim.dkimTags raw) "a")
        (Hd : ~ Spec.missing (Dkim.dkimTags raw) "d")
        (Hs : ~ Spec.missing (Dkim.dkimTags raw) "s")
        (Hh : Dkim.hNames (Dkim.dkimTags raw) <> [])
        (Hb : ~ Spec.missing (Dkim.dkimTags raw) "b") :
  exists sig,
    Dkim.parseDkimSignature raw = Some sig
    /\ Dkim.sig_a sig = "rsa-sha256"
    /\ forall resolveTxt rsaVerify headersText,
        Dkim.rawDkim (Dkim.parseHeaders (JS.trim headersText)) = raw ->
        let ph := Dkim.parseHeaders (JS.trim headersText) in
        let v := Dkim.verifyHeadersOnly resolveTxt rsaVerify headersText in
        match Dkim.fetchDkimPublicKey resolveTxt (Dkim.sig_s sig)
                                      (Dkim.sig_d sig) with
        | None =>
            v = Dkim.failure ("dkim public key not found for "
                                +:+ Dkim.sig_s sig +:+ "._domainkey."
                                +:+ Dkim.sig_d sig)
        | Some pubKey =>
            match rsaVerify pubKey (Dkim.signedData ph sig)
                            (Dkim.sig_b sig) with
            | Ok true =>
                v = {| Dkim.ok := true; Dkim.domain := Some (Dkim.sig_d sig);
                       Dkim.subject := Dkim.subjectOf (Dkim.hlist ph);
                       Dkim.signedHeaders := Some (Dkim.sig_h sig);
                       Dkim.reason := None |}
            | Ok false => v = Dkim.failure "dkim signature invalid"
            | Throw msg => v = Dkim.failure msg
            end
        end.
Proof.
  destruct (Dkim.parseDkimSignature raw) as [sig|] eqn:Esig.
  - exists sig. split; [done|].
    pose proof (parseDkimSignature_Some _ _ Esig)
      as (_ & d & s & _ & _ & _ & _ & -> & _).
    assert (JS.optOr (Dkim.dkimTags raw !! "a") "rsa-sha256" = "rsa-sha256")
      as Ealg by (by destruct Ha as [-> | ->]).
    split; [done|].
    intros resolveTxt rsaVerify headersText Hraw ph v. subst v.
    unfold Dkim.verifyHeadersOnly. fold ph. subst ph. rewrite Hraw, Esig.
    cbn [Dkim.sig_a Dkim.sig_s Dkim.sig_d Dkim.sig_b Dkim.sig_h].
    rewrite Ealg. cbn [JS.toLowerCase String.eqb negb].
    unfold Dkim.checkSignature, Dkim.keyName.
    cbn [Dkim.sig_a Dkim.sig_s Dkim.sig_d Dkim.sig_b Dkim.sig_h].
    destruct (Dkim.fetchDkimPublicKey resolveTxt s d); [|done].
    by destruct (rsaVerify _ _ _) as [[|]|].
  - exfalso. apply parseDkimSignature_None in Esig as [?|[?|[?|?]]]; done.
Qed.

Lemma C9_default_algorithm_witness :
  Dkim.isDkimBlock Examples.noAlgorithmBlock = true
  /\ Dkim.dkimTags Examples.noAlgorithmBlock !! "a" = None
  /\ Dkim.rawDkim (Dkim.parseHeaders (JS.trim Examples.noAlgorithm))
     = Examples.noAlgorithmBlock
  /\ Dkim.verifyHeadersOnly Examples.anyKey Examples.accept
                            Examples.noAlgorithm
     = {| Dkim.ok := true; Dkim.domain := Some "example.com";
          Dkim.subject := Some "Verify 7f3a9c21";
          Dkim.signedHeaders := Some ["from"; "subject"];
          Dkim.reason := None |}.
Proof.
  split; [reflexivity|]. split; [vm_compute; reflexivity|].
  assert (Dkim.rawDkim (Dkim.parseHeaders (JS.trim Examples.noAlgorithm))
          = Examples.noAlgorithmBlock) as Hraw by (vm_compute; reflexivity).
  split; [exact Hraw|].
  assert (forall k v,
             Dkim.dkimTags Examples.noAlgorithmBlock !! k = Some v ->
             v <> "" ->
             ~ Spec.missing (Dkim.dkimTags Examples.noAlgorithmBlock) k)
    as Hpresent.
  { intros k v Hk Hv [Hm|Hm]; rewrite Hk in Hm; [discriminate|].
    injection Hm as Hm. done. }
  destruct (C9_default_algorithm Examples.noAlgorithmBlock eq_refl)
    as (sig & Hsig & Halg & Hgo).
  - left. vm_compute. reflexivity.
  - apply (Hpresent "d" "example.com"); [vm_compute; reflexivity|done].
  - apply (Hpresent "s" "sel1"); [vm_compute; reflexivity|done].
  - vm_compute. discriminate.
  - apply (Hpresent "b" "AAAA"); [vm_compute; reflexivity|done].
  - specialize (Hgo Examples.anyKey Examples.accept Examples.noAlgorithm
                    Hraw).
    assert (Some sig
            = Some {| Dkim.sig_a := "rsa-sha256";
                      Dkim.sig_d := "example.com"; Dkim.sig_s := "sel1";
                      Dkim.sig_h := ["from"; "subject"];
                      Dkim.sig_b := "AAAA";
                      Dkim.sig_c := "relaxed/relaxed" |}) as Esig
        by (rewrite <- Hsig; vm_compute; reflexivity).
    injection Esig as ->. cbv zeta in Hgo.
    cbn [Dkim.sig_s Dkim.sig_d Dkim.sig_b Dkim.sig_h] in Hgo.
    assert (Dkim.fetchDkimPublicKey Examples.anyKey "sel1" "example.com"
            = Some (Dkim.wrapPem "QUJD")) as Hkey
        by (vm_compute; reflexivity).
    rewrite Hkey in Hgo.
    change (Examples.accept _ _ _) with (@Ok bool true) in Hgo.
    rewrite Hgo. vm_compute. reflexivity.
Defined.

(* ===================================================================== *)
(** * Binding a verified domain to a session (POST) *)
(* ===================================================================== *)

Section Binding.

Lemma lowerChar_idem c : JS.lowerChar (JS.lowerChar c) = JS.lowerChar c.
Proof. by destruct c as [[] [] [] [] [] [] [] []]. Qed.

Lemma toLowerCase_idem s :
  JS.toLowerCase (JS.toLowerCase s) = JS.toLowerCase s.
Proof.
  induction s as [|c s IH]; [done|]. simpl. by rewrite lowerChar_idem, IH.
Qed.

(** Sessions are created with a lower-cased domain. *)
Lemma createSession_domain newId newNonce now dom st :
  SessionStore.domain (SessionStore.createSession newId newNonce now dom st).1
  = JS.toLowerCase dom.
Proof. done. Qed.

Context (resolveTxt : string -> result (list (list string)))
        (rsaVerify : string -> string -> string -> result bool)
        (importDkimVerify :
           result (option (string -> result (list Dkim.LibResult))))
        (domainHashOf : string -> string).

(** A successful verification names a non-empty signing domain, on both
    paths. *)
Lemma verifyHeadersOnly_ok_domain headersText :
  Dkim.ok (Dkim.verifyHeadersOnly resolveTxt rsaVerify headersText) = true ->
  exists d,
    Dkim.domain (Dkim.verifyHeadersOnly resolveTxt rsaVerify headersText)
    = Some d /\ JS.truthy d = true.
Proof.
  unfold Dkim.verifyHeadersOnly.
  destruct (Dkim.parseDkimSignature _) as [sig|] eqn:Esig; [|done].
  apply parseDkimSignature_Some in Esig
    as (_ & d & s & Hd & Htd & _ & _ & -> & _).
  cbn [Dkim.sig_a]. destruct (negb _); [done|]. unfold Dkim.checkSignature.
  destruct (Dkim.fetchDkimPublicKey _ _ _); [|done].
  destruct (rsaVerify _ _ _) as [[|]|]; [|done..]. intros _. simpl.
  by exists d.
Qed.

Lemma verifyRawEmailWithLibrary_ok_domain rawEmail :
  Dkim.ok (Dkim.verifyRawEmailWithLibrary importDkimVerify rawEmail) = true ->
  exists d,
    Dkim.domain (Dkim.verifyRawEmailWithLibrary importDkimVerify rawEmail)
    = Some d /\ JS.truthy d = true.
Proof.
  unfold Dkim.verifyRawEmailWithLibrary.
  destruct importDkimVerify as [[dkimVerify|]|]; [|done..].
  destruct (dkimVerify rawEmail) as [results|]; [|done].
  destruct (match List.find _ results with Some r => _ | None => _ end)
    as [pass|]; [|done].
  destruct (JS.optFalsy (Dkim.signingDomain pass)) eqn:Ed; [done|].
  destruct (JS.optFalsy (Dkim.selector pass)); [done|]. simpl. intros _.
  apply truthy_optFalsy in Ed as (d & -> & Hd). by exists d.
Qed.

Lemma attempt_ok_domain headersText rawEmail :
  let v := Spec.attempt resolveTxt rsaVerify importDkimVerify
                        headersText rawEmail in
  Dkim.ok v = true -> exists d, Dkim.domain v = Some d /\ JS.truthy d = true.
Proof.
  unfold Spec.attempt. destruct (JS.truthy rawEmail).
  - apply verifyRawEmailWithLibrary_ok_domain.
  - apply verifyHeadersOnly_ok_domain.
Qed.

(** With a session found, the handler answers with [bind] of the
    attempt. *)
Lemma POST_existing_session now nowLoad sessionId headersText rawEmail
      st session st' :
  SessionStore.getSession now nowLoad sessionId st = (Some session, st') ->
  JS.truthy sessionId = true ->
  JS.truthy rawEmail = true \/ JS.truthy headersText = true ->
  Route.POST resolveTxt rsaVerify importDkimVerify domainHashOf
             now nowLoad sessionId headersText rawEmail st
  = (Route.bind domainHashOf session
       (Spec.attempt resolveTxt rsaVerify importDkimVerify
                     headersText rawEmail), st').
Proof.
  intros Hs Hid Hin. unfold Route.POST, Spec.attempt.
  rewrite Hid, Hs. simpl.
  destruct (JS.truthy rawEmail); [done|].
  destruct Hin as [?|Hh]; [done|by rewrite Hh].
Qed.

Lemma bind_status_200 session v :
  Route.status (Route.bind domainHashOf session v) = 200 ->
  exists d,
    Dkim.ok v = true /\ Dkim.domain v = Some d /\ JS.truthy d = true
    /\ JS.toLowerCase d = SessionStore.domain session
    /\ JS.includes (JS.toLowerCase (JS.optOr (Dkim.subject v) ""))
                   (JS.toLowerCase (SessionStore.nonce session)) = true
    /\ "subject" ∈ (JS.toLowerCase <$> default [] (Dkim.signedHeaders v))
    /\ Route.body (Route.bind domainHashOf session v)
       = Route.Bound (JS.toLowerCase d) (domainHashOf (JS.toLowerCase d)).
Proof.
  unfold Route.bind.
  destruct (Dkim.ok v); [|done]. simpl.
  destruct (JS.optFalsy (Dkim.domain v)) eqn:Ed; [done|].
  apply truthy_optFalsy in Ed as (d & -> & Hd). simpl.
  destruct (String.eqb _ _) eqn:Edom; [|done]. simpl.
  apply String.eqb_eq in Edom.
  destruct (JS.includes _ _) eqn:Einc; [|done]. simpl.
  destruct (bool_decide _) eqn:Es; [|done]. simpl.
  apply bool_decide_eq_true in Es. intros _. by exists d.
Qed.

Lemma bind_domain_mismatch session v d :
  Dkim.ok v = true -> Dkim.domain v = Some d -> JS.truthy d = true ->
  JS.toLowerCase d <> SessionStore.domain session ->
  Route.bind domainHashOf session v
  = {| Route.status := 400;
       Route.body := Route.Rejected Route.DomainMismatch |}.
Proof.
  intros Hok Hd Ht Hne. unfold Route.bind. rewrite Hok, Hd. simpl.
  rewrite Ht. simpl.
  destruct (String.eqb _ _) eqn:E; [|done].
  by apply String.eqb_eq in E.
Qed.

Lemma bind_accepts session v d :
  Dkim.ok v = true -> Dkim.domain v = Some d -> JS.truthy d = true ->
  JS.toLowerCase d = SessionStore.domain session ->
  JS.includes (JS.toLowerCase (JS.optOr (Dkim.subject v) ""))
              (JS.toLowerCase (SessionStore.nonce session)) = true ->
  "subject" ∈ (JS.toLowerCase <$> default [] (Dkim.signedHeaders v)) ->
  Route.bind domainHashOf session v
  = {| Route.status := 200;
       Route.body := Route.Bound (JS.toLowerCase d)
                                 (domainHashOf (JS.toLowerCase d)) |}.
Proof.
  intros Hok Hd Ht Hdom Hinc Hs. unfold Route.bind.
  rewrite Hok, Hd. simpl. rewrite Ht. simpl.
  rewrite Hdom, String.eqb_refl. simpl. rewrite Hinc. simpl.
  by rewrite bool_decide_eq_true_2.
Qed.

(** An [ok] outcome of [verifyHeadersOnly] reports the domain and the [h=]
    list of the signature that the RSA check accepted. *)
Lemma verifyHeadersOnly_verified headersText :
  Dkim.ok (Dkim.verifyHeadersOnly resolveTxt rsaVerify headersText) = true ->
  exists sig pubKey,
    Dkim.parseDkimSignature
      (Dkim.rawDkim (Dkim.parseHeaders (JS.trim headersText))) = Some sig
    /\ Dkim.fetchDkimPublicKey resolveTxt (Dkim.sig_s sig) (Dkim.sig_d sig)
       = Some pubKey
    /\ rsaVerify pubKey
         (Dkim.signedData (Dkim.parseHeaders (JS.trim headersText)) sig)
         (Dkim.sig_b sig) = Ok true
    /\ Dkim.verifyHeadersOnly resolveTxt rsaVerify headersText
       = {| Dkim.ok := true; Dkim.domain := Some (Dkim.sig_d sig);
            Dkim.subject :=
              Dkim.subjectOf
                (Dkim.hlist (Dkim.parseHeaders (JS.trim headersText)));
            Dkim.signedHeaders := Some (Dkim.sig_h sig);
            Dkim.reason := None |}.
Proof.
  unfold Dkim.verifyHeadersOnly.
  destruct (Dkim.parseDkimSignature _) as [sig|]; [|done].
  destruct (negb _); [done|]. unfold Dkim.checkSignature.
  destruct (Dkim.fetchDkimPublicKey _ _ _) as [pubKey|] eqn:Ekey; [|done].
  destruct (rsaVerify _ _ _) as [[|]|] eqn:Ev; [|done..].
  intros _. by exists sig, pubKey.
Qed.

(** When the result of the library carries no list of header names, the
    library path reports the [h=] list of the first DKIM-Signature block
    of the header section, provided that block has the domain, the
    selector and the signature value of the result. *)
Lemma library_reports_first_block rawEmail dkimVerify results pass first :
  importDkimVerify = Ok (Some dkimVerify) ->
  dkimVerify rawEmail = Ok results ->
  List.find Dkim.isPass results = Some pass ->
  Dkim.signingHeaderKeys pass = None ->
  Dkim.ok (Dkim.verifyRawEmailWithLibrary importDkimVerify rawEmail) = true ->
  let idx := JS.searchBlankLine rawEmail in
  let headersText := if 0 <=? idx then JS.slice rawEmail 0 idx else rawEmail in
  Dkim.parseDkimSignature (Dkim.rawDkim (Dkim.parseHeaders headersText))
  = Some first ->
  JS.toLowerCase (Dkim.sig_d first)
  = JS.toLowerCase (default "" (Dkim.signingDomain pass)) ->
  Dkim.sig_s first = default "" (Dkim.selector pass) ->
  Dkim.sig_b first = JS.stripWhiteSpace (JS.optOr (Dkim.signature pass) "") ->
  Dkim.signedHeaders (Dkim.verifyRawEmailWithLibrary importDkimVerify rawEmail)
  = Some (JS.toLowerCase <$> Dkim.sig_h first).
Proof.
  intros Himp Hcall Hpass Hkeys. unfold Dkim.verifyRawEmailWithLibrary.
  rewrite Himp, Hcall, Hpass, Hkeys.
  destruct (JS.optFalsy (Dkim.signingDomain pass) || _); [done|].
  intros _. cbv zeta. cbn [Dkim.signedHeaders].
  set (headersText := if 0 <=? _ then _ else _).
  intros Hfirst Hdom Hsel Hsig.
  assert (JS.truthy (Dkim.rawDkim (Dkim.parseHeaders headersText)) = true)
    as ->.
  { apply parseDkimSignature_Some in Hfirst as [Hblock _].
    by apply isDkimBlock_truthy. }
  cbn [Dkim.matchingSignedHeaders]. rewrite Hfirst, Hdom, Hsel, <- Hsig.
  by rewrite !String.eqb_refl, orb_true_r.
Qed.

Lemma bind_subject_unsigned session v d :
  Dkim.ok v = true -> Dkim.domain v = Some d -> JS.truthy d = true ->
  JS.toLowerCase d = SessionStore.domain session ->
  JS.includes (JS.toLowerCase (JS.optOr (Dkim.subject v) ""))
              (JS.toLowerCase (SessionStore.nonce session)) = true ->
  "subject" ∉ (JS.toLowerCase <$> default [] (Dkim.signedHeaders v)) ->
  Route.bind domainHashOf session v
  = {| Route.status := 400;
       Route.body := Route.Rejected Route.SubjectNotSigned |}.
Proof.
  intros Hok Hd Ht Hdom Hinc Hs. unfold Route.bind.
  rewrite Hok, Hd. simpl. rewrite Ht. simpl.
  rewrite Hdom, String.eqb_refl. simpl. rewrite Hinc. simpl.
  by rewrite bool_decide_eq_false_2.
Qed.

End Binding.

(** C3.  For a verification attempt against an existing session, the handler
    answers with success only if the lower-cased signing domain of the
    verified signature is string-equal to the domain of the session, which
    [createSession] stored lower-cased; when the signature verifies and the
    lower-cased signing domain differs from it (as [mail.example.com] differs
    from [example.com]), the answer is status 400 with the reason
    [DomainMismatch]. *)
Theorem C3_exact_domain_match
        (resolveTxt : string -> result (list (list string)))
        (rsaVerify : string -> string -> string -> result bool)
        (importDkimVerify :
           result (option (string -> result (list Dkim.LibResult))))
        (domainHashOf : string -> string)
        (now nowLoad : Z) (sessionId headersText rawEmail : string)
        (st st' : SessionStore.Store) (session : SessionStore.Session)
        (Hsession : SessionStore.getSession now nowLoad sessionId st
                    = (Some session, st'))
        (Hid : JS.truthy sessionId = true)
        (Hinput : JS.truthy rawEmail = true \/ JS.truthy headersText = true) :
  let v := Spec.attempt resolveTxt rsaVerify importDkimVerify
                        headersText rawEmail in
  let out := Route.POST resolveTxt rsaVerify importDkimVerify domainHashOf
                        now nowLoad sessionId headersText rawEmail st in
  (Route.status out.1 = 200 ->
   exists d,
     Dkim.ok v = true /\ Dkim.domain v = Some d
     /\ JS.toLowerCase d = SessionStore.domain session
     /\ JS.toLowerCase d = JS.toLowerCase (SessionStore.domain session)
     /\ Route.body out.1
        = Route.Bound (JS.toLowerCase d) (domainHashOf (JS.toLowerCase d)))
  /\ (forall d,
        Dkim.ok v = true -> Dkim.domain v = Some d ->
        JS.toLowerCase d <> SessionStore.domain session
        \/ JS.toLowerCase d <> JS.toLowerCase (SessionStore.domain session) ->
        out = ({| Route.status := 400;
                  Route.body := Route.Rejected Route.DomainMismatch |}, st'))
  /\ (forall newId newNonce t dom st0,
        SessionStore.domain
          (SessionStore.createSession newId newNonce t dom st0).1
        = JS.toLowerCase dom).
Proof.
  intros v out. subst v out.
  rewrite (POST_existing_session _ _ _ _ _ _ _ _ _ _ _ _ Hsession Hid Hinput).
  simpl. split; [|split].
  - intros H200. apply bind_status_200 in H200
      as (d & Hok & Hd & _ & Hdom & _ & _ & Hbody).
    exists d. repeat split; try done.
    by rewrite <- Hdom, toLowerCase_idem.
  - intros d Hok Hd Hne. f_equal.
    destruct (attempt_ok_domain resolveTxt rsaVerify importDkimVerify
                headersText rawEmail Hok) as (d' & Hd' & Ht).
    rewrite Hd in Hd'. injection Hd' as <-.
    eapply bind_domain_mismatch; [done..|].
    destruct Hne as [Hne|Hne]; [done|].
    intros E. apply Hne. by rewrite <- E, toLowerCase_idem.
  - intros newId newNonce t dom st0.
    exact (createSession_domain newId newNonce t dom st0).
Qed.

Lemma C3_exact_domain_match_witness :
  SessionStore.getSession 2000 2000 "sid-1" Examples.theStore
  = (Some Examples.theSession, Examples.theStore)
  /\ Dkim.domain (Dkim.verifyHeadersOnly Examples.anyKey Examples.accept
                                         Examples.fromSubdomain)
     = Some "mail.example.com"
  /\ Route.POST Examples.anyKey Examples.accept Examples.noLibrary
                Examples.hashOf 2000 2000 "sid-1" Examples.fromSubdomain ""
                Examples.theStore
     = ({| Route.status := 400;
           Route.body := Route.Rejected Route.DomainMismatch |},
        Examples.theStore).
Proof.
  assert (SessionStore.getSession 2000 2000 "sid-1" Examples.theStore
          = (Some Examples.theSession, Examples.theStore)) as Hs
      by (vm_compute; reflexivity).
  split; [exact Hs|]. split; [vm_compute; reflexivity|].
  refine (proj1 (proj2 (C3_exact_domain_match
            Examples.anyKey Examples.accept Examples.noLibrary Examples.hashOf
            2000 2000 "sid-1" Examples.fromSubdomain ""
            Examples.theStore Examples.theStore Examples.theSession
            Hs eq_refl (or_intror eq_refl)))
          "mail.example.com" _ _ _).
  - vm_compute; reflexivity.
  - vm_compute; reflexivity.
  - left. vm_compute. discriminate.
Defined.

(** C4 (what the code does).  For a verification attempt against an
    existing session in which the verifier answers [ok], the lower-cased
    signing domain is the domain of the session and the lower-cased Subject
    contains the lower-cased nonce, the handler goes by the signed-header
    list that the verifier reports: without [subject] in it, lower-cased,
    the answer is status 400 with the reason [SubjectNotSigned]; with
    [subject] in it, status 200.  On the headers-only path the reported list
    is the [h=] list of the signature that the RSA check accepted, so there
    the claim holds.  On the raw-message path it need not be: when the
    result of the library carries no array of header names, the reported
    list is the [h=] list of the first DKIM-Signature block of the header
    section, if that block has the domain, the selector and the signature
    value of the result, whichever signature the library verified. *)
Theorem C4_subject_must_be_signed
        (resolveTxt : string -> result (list (list string)))
        (rsaVerify : string -> string -> string -> result bool)
        (importDkimVerify :
           result (option (string -> result (list Dkim.LibResult))))
        (domainHashOf : string -> string)
        (now nowLoad : Z) (sessionId headersText rawEmail : string)
        (st st' : SessionStore.Store) (session : SessionStore.Session)
        (d : string)
        (Hsession : SessionStore.getSession now nowLoad sessionId st
                    = (Some session, st'))
        (Hid : JS.truthy sessionId = true)
        (Hinput : JS.truthy rawEmail = true \/ JS.truthy headersText = true)
        (Hok : Dkim.ok (Spec.attempt resolveTxt rsaVerify importDkimVerify
                                     headersText rawEmail) = true)
        (Hd : Dkim.domain (Spec.attempt resolveTxt rsaVerify importDkimVerify
                                        headersText rawEmail) = Some d)
        (Hdomain : JS.toLowerCase d = SessionStore.domain session)
        (Hnonce :
           JS.includes
             (JS.toLowerCase
                (JS.optOr (Dkim.subject
                             (Spec.attempt resolveTxt rsaVerify
                                           importDkimVerify
                                           headersText rawEmail)) ""))
             (JS.toLowerCase (SessionStore.nonce session)) = true) :
  let v := Spec.attempt resolveTxt rsaVerify importDkimVerify
                        headersText rawEmail in
  let reported := JS.toLowerCase <$> default [] (Dkim.signedHeaders v) in
  let out := Route.POST resolveTxt rsaVerify importDkimVerify domainHashOf
                        now nowLoad sessionId headersText rawEmail st in
  ("subject" ∉ reported ->
   out = ({| Route.status := 400;
             Route.body := Route.Rejected Route.SubjectNotSigned |}, st'))
  /\ ("subject" ∈ reported ->
      out = ({| Route.status := 200;
                Route.body :=
                  Route.Bound (JS.toLowerCase d)
                              (domainHashOf (JS.toLowerCase d)) |}, st'))
  /\ (JS.truthy rawEmail = false ->
      exists sig pubKey,
        Dkim.parseDkimSignature
          (Dkim.rawDkim (Dkim.parseHeaders (JS.trim headersText))) = Some sig
        /\ Dkim.fetchDkimPublicKey resolveTxt (Dkim.sig_s sig)
                                   (Dkim.sig_d sig) = Some pubKey
        /\ rsaVerify pubKey
             (Dkim.signedData (Dkim.parseHeaders (JS.trim headersText)) sig)
             (Dkim.sig_b sig) = Ok true
        /\ reported = JS.toLowerCase <$> Dkim.sig_h sig)
  /\ (JS.truthy rawEmail = true ->
      forall dkimVerify results pass first,
        importDkimVerify = Ok (Some dkimVerify) ->
        dkimVerify rawEmail = Ok results ->
        List.find Dkim.isPass results = Some pass ->
        Dkim.signingHeaderKeys pass = None ->
        let idx := JS.searchBlankLine rawEmail in
        let headerSection :=
          if 0 <=? idx then JS.slice rawEmail 0 idx else rawEmail in
        Dkim.parseDkimSignature
          (Dkim.rawDkim (Dkim.parseHeaders headerSection)) = Some first ->
        JS.toLowerCase (Dkim.sig_d first)
        = JS.toLowerCase (default "" (Dkim.signingDomain pass)) ->
        Dkim.sig_s first = default "" (Dkim.selector pass) ->
        Dkim.sig_b first
        = JS.stripWhiteSpace (JS.optOr (Dkim.signature pass) "") ->
        reported = JS.toLowerCase <$> Dkim.sig_h first).
Proof.
  intros v reported out. subst out.
  rewrite (POST_existing_session _ _ _ _ _ _ _ _ _ _ _ _ Hsession Hid Hinput).
  fold v.
  destruct (attempt_ok_domain resolveTxt rsaVerify importDkimVerify
              headersText rawEmail Hok) as (d' & Hd' & Ht).
  rewrite Hd in Hd'. injection Hd' as <-.
  assert (forall l : list string,
             JS.toLowerCase <$> (JS.toLowerCase <$> l) = JS.toLowerCase <$> l)
    as Hlower.
  { intros l. rewrite <- list_fmap_compose. apply list_fmap_ext.
    intros _ x _. apply toLowerCase_idem. }
  split; [|split; [|split]].
  - intros Hun. f_equal. by eapply bind_subject_unsigned.
  - intros Hs. f_equal. by apply bind_accepts.
  - intros Hraw. subst reported v. revert Hok. unfold Spec.attempt.
    rewrite Hraw. intros Hok.
    destruct (verifyHeadersOnly_verified _ _ _ Hok)
      as (sig & pubKey & Hsig & Hkey & Hrsa & Hh).
    exists sig, pubKey. by rewrite Hh.
  - intros Hraw dkimVerify results pass first Himp Hcall Hpass Hkeys
           idx headerSection Hfirst Hdom Hsel Hsig.
    subst reported v. revert Hok. unfold Spec.attempt. rewrite Hraw.
    intros Hok.
    rewrite (library_reports_first_block _ _ _ _ _ _ Himp Hcall Hpass Hkeys
               Hok Hfirst Hdom Hsel Hsig).
    apply Hlower.
Qed.

Lemma C4_subject_must_be_signed_witness :
  Dkim.signedHeaders (Dkim.verifyHeadersOnly Examples.anyKey Examples.accept
                                             Examples.subjectUnsigned)
  = Some ["from"; "date"]
  /\ Route.POST Examples.anyKey Examples.accept Examples.noLibrary
                Examples.hashOf 2000 2000 "sid-1" Examples.subjectUnsigned ""
                Examples.theStore
     = ({| Route.status := 400;
           Route.body := Route.Rejected Route.SubjectNotSigned |},
        Examples.theStore).
Proof.
  split; [vm_compute; reflexivity|].
  refine (proj1 (C4_subject_must_be_signed
            Examples.anyKey Examples.accept Examples.noLibrary Examples.hashOf
            2000 2000 "sid-1" Examples.subjectUnsigned ""
            Examples.theStore Examples.theStore Examples.theSession
            "Example.com" _ eq_refl (or_intror eq_refl) _ _ _ _) _);
    try (vm_compute; reflexivity).
  vm_compute. intros Hin.
  repeat (apply elem_of_cons in Hin as [Hin|Hin]; [discriminate Hin|]).
  inversion Hin.
Defined.

(** C4, as stated, fails on the raw-message path.  [genuineMsg] carries one
    signature, of [example.com], whose [h=] is [from]: the Subject is not
    signed, and the handler rejects the message with [SubjectNotSigned].
    [decoyMsg] is the same message behind a DKIM-Signature header that
    copies the domain, the selector and the [b=] value of that signature and
    names [subject] in its [h=].  The library finds that the copy does not
    verify and that the signature of the signer does; the handler answers
    with status 200, on the [h=] list of the copy. *)
Lemma C4_decoy_signature_counterexample :
  Examples.decoyMsg
  = Examples.decoyBlock +:+ JS.CRLF +:+ Examples.genuineMsg
  /\ (exists sig,
         Dkim.parseDkimSignature Examples.genuineBlock = Some sig
         /\ Dkim.sig_d sig = "example.com" /\ Dkim.sig_s sig = "sel1"
         /\ Dkim.sig_b sig = "AAAA" /\ Dkim.sig_h sig = ["from"])
  /\ List.filter Dkim.isDkimBlock
       (Dkim.allRawBlocks
          (JS.slice Examples.genuineMsg 0
                    (JS.searchBlankLine Examples.genuineMsg)))
     = [Examples.genuineBlock]
  /\ List.filter Dkim.isDkimBlock
       (Dkim.allRawBlocks
          (JS.slice Examples.decoyMsg 0
                    (JS.searchBlankLine Examples.decoyMsg)))
     = [Examples.decoyBlock; Examples.genuineBlock]
  /\ List.find Dkim.isPass [Examples.decoyFail; Examples.genuinePass]
     = Some Examples.genuinePass
  /\ Route.POST Examples.anyKey Examples.accept Examples.decoyLibrary
                Examples.hashOf 2000 2000 "sid-1" "" Examples.genuineMsg
                Examples.theStore
     = ({| Route.status := 400;
           Route.body := Route.Rejected Route.SubjectNotSigned |},
        Examples.theStore)
  /\ Dkim.signedHeaders
       (Dkim.verifyRawEmailWithLibrary Examples.decoyLibrary
                                       Examples.decoyMsg)
     = Some ["subject"]
  /\ Route.POST Examples.anyKey Examples.accept Examples.decoyLibrary
                Examples.hashOf 2000 2000 "sid-1" "" Examples.decoyMsg
                Examples.theStore
     = ({| Route.status := 200;
           Route.body :=
             Route.Bound "example.com" (Examples.hashOf "example.com") |},
        Examples.theStore).
Proof.
  split; [reflexivity|].
  split; [eexists; split; [vm_compute; reflexivity|]; by repeat split|].
  repeat split; vm_compute; reflexivity.
Qed.

(* ===================================================================== *)
(** * Key lookup (fetchDkimPublicKey) *)
(* ===================================================================== *)

Section KeyLookup.

Context (resolveTxt : string -> result (list (list string)))
        (rsaVerify : string -> string -> string -> result bool).

Lemma fetchDkimPublicKey_None selector dom :
  Dkim.fetchDkimPublicKey resolveTxt selector dom = None
  <-> (exists msg, resolveTxt (Dkim.keyName selector dom) = Throw msg)
      \/ (exists records,
             resolveTxt (Dkim.keyName selector dom) = Ok records
             /\ Dkim.matchP false (Spec.flatTxt records) = None).
Proof.
  unfold Dkim.fetchDkimPublicKey, Spec.flatTxt.
  destruct (resolveTxt _) as [records|msg].
  - destruct (Dkim.matchP false _) as [p|] eqn:Ep.
    + split; [done|]. intros [[msg [=]]|(records' & [= <-] & Hp)].
      by rewrite Ep in Hp.
    + split; [|done]. intros _. right. by exists records.
  - split; [|done]. intros _. left. by exists msg.
Qed.

Lemma fetchDkimPublicKey_Some selector dom records p :
  resolveTxt (Dkim.keyName selector dom) = Ok records ->
  Dkim.matchP false (Spec.flatTxt records) = Some p ->
  Dkim.fetchDkimPublicKey resolveTxt selector dom = Some (Dkim.wrapPem p).
Proof.
  unfold Dkim.fetchDkimPublicKey, Spec.flatTxt. by intros -> ->.
Qed.

End KeyLookup.

(** C6 (as the code has it).  For every selector and domain, the key lookup
    fails exactly when there is no TXT record at
    [<selector>._domainkey.<domain>] (the query is rejected) or the joined
    TXT fragments have no [p=] tag, and both give the caller of
    [verifyHeadersOnly] the same outcome [KeyNotFound], which names the
    queried name only.  Key material that is not base64 is not detected by
    the lookup: every [p=] value is wrapped into a PEM as it is, and the
    outcome is the one of the signature verifier, its exception text or
    "dkim signature invalid". *)
Theorem C6_key_lookup_outcomes
        (resolveTxt : string -> result (list (list string)))
        (rsaVerify : string -> string -> string -> result bool)
        (headersText : string) (dkim : Dkim.DkimSig)
        (Hsig : Dkim.parseDkimSignature
                  (Dkim.rawDkim (Dkim.parseHeaders (JS.trim headersText)))
                = Some dkim)
        (Halg : JS.toLowerCase (Dkim.sig_a dkim) = "rsa-sha256") :
  let qname := Dkim.keyName (Dkim.sig_s dkim) (Dkim.sig_d dkim) in
  let ph := Dkim.parseHeaders (JS.trim headersText) in
  (Dkim.fetchDkimPublicKey resolveTxt (Dkim.sig_s dkim) (Dkim.sig_d dkim)
   = None
   <-> (exists msg, resolveTxt qname = Throw msg)
       \/ (exists records,
              resolveTxt qname = Ok records
              /\ Dkim.matchP false (Spec.flatTxt records) = None))
  /\ (Dkim.fetchDkimPublicKey resolveTxt (Dkim.sig_s dkim) (Dkim.sig_d dkim)
      = None ->
      Dkim.verifyHeadersOnly resolveTxt rsaVerify headersText
      = Spec.KeyNotFound (Dkim.sig_s dkim) (Dkim.sig_d dkim))
  /\ (forall records p,
         resolveTxt qname = Ok records ->
         Dkim.matchP false (Spec.flatTxt records) = Some p ->
         Dkim.fetchDkimPublicKey resolveTxt (Dkim.sig_s dkim) (Dkim.sig_d dkim)
         = Some (Dkim.wrapPem p)
         /\ Dkim.verifyHeadersOnly resolveTxt rsaVerify headersText
            = match rsaVerify (Dkim.wrapPem p) (Dkim.signedData ph dkim)
                              (Dkim.sig_b dkim) with
              | Throw msg => Dkim.failure msg
              | Ok false => Dkim.failure "dkim signature invalid"
              | Ok true =>
                  {| Dkim.ok := true; Dkim.domain := Some (Dkim.sig_d dkim);
                     Dkim.subject := Dkim.subjectOf (Dkim.hlist ph);
                     Dkim.signedHeaders := Some (Dkim.sig_h dkim);
                     Dkim.reason := None |}
              end).
Proof.
  intros qname ph.
  assert (Dkim.verifyHeadersOnly resolveTxt rsaVerify headersText
          = Dkim.checkSignature resolveTxt rsaVerify ph dkim) as ->.
  { unfold Dkim.verifyHeadersOnly. by rewrite Hsig, Halg. }
  split; [apply fetchDkimPublicKey_None|]. split.
  - intros Hnone. unfold Dkim.checkSignature. by rewrite Hnone.
  - intros records p Hrec Hp.
    pose proof (fetchDkimPublicKey_Some _ _ _ _ _ Hrec Hp) as Hkey.
    split; [done|]. unfold Dkim.checkSignature. by rewrite Hkey.
Qed.

Lemma C6_key_lookup_outcomes_witness :
  Dkim.parseDkimSignature
    (Dkim.rawDkim (Dkim.parseHeaders (JS.trim Examples.relaxedMsg)))
  = Some Examples.relaxedSig
  /\ Dkim.verifyHeadersOnly Examples.noTxt Examples.strictVerifier
                            Examples.relaxedMsg
     = Spec.KeyNotFound "sel1" "example.com"
  /\ Dkim.verifyHeadersOnly Examples.noPTag Examples.strictVerifier
                            Examples.relaxedMsg
     = Spec.KeyNotFound "sel1" "example.com".
Proof.
  assert (Dkim.parseDkimSignature
            (Dkim.rawDkim (Dkim.parseHeaders (JS.trim Examples.relaxedMsg)))
          = Some Examples.relaxedSig) as Hsig by (vm_compute; reflexivity).
  split; [exact Hsig|]. split.
  - destruct (C6_key_lookup_outcomes Examples.noTxt Examples.strictVerifier
                Examples.relaxedMsg Examples.relaxedSig Hsig eq_refl)
      as (Hiff & Hnone & _).
    apply Hnone, Hiff. left. eexists. reflexivity.
  - destruct (C6_key_lookup_outcomes Examples.noPTag Examples.strictVerifier
                Examples.relaxedMsg Examples.relaxedSig Hsig eq_refl)
      as (Hiff & Hnone & _).
    apply Hnone, Hiff. right. eexists. split; [reflexivity|].
    vm_compute. reflexivity.
Defined.

(** C6, as stated, fails: with a TXT record whose [p=] value is not base64
    the lookup returns a key, and the outcome is the exception text of the
    verifier, not [KeyNotFound]. *)
Lemma C6_malformed_key_counterexample :
  Dkim.matchP false "v=DKIM1; k=rsa; p=!!!not-base64!!!"
  = Some "!!!not-base64!!!"
  /\ Spec.isBase64 "!!!not-base64!!!" = false
  /\ Dkim.fetchDkimPublicKey Examples.badKeyTxt "sel1" "example.com"
     = Some (Dkim.wrapPem "!!!not-base64!!!")
  /\ Dkim.verifyHeadersOnly Examples.badKeyTxt Examples.strictVerifier
                            Examples.signedMsg
     = Dkim.failure "error:1E08010C:DECODER routines::unsupported"
  /\ Dkim.verifyHeadersOnly Examples.badKeyTxt Examples.strictVerifier
                            Examples.signedMsg
     <> Spec.KeyNotFound "sel1" "example.com".
Proof.
  repeat split; try (vm_compute; reflexivity).
  vm_compute. discriminate.
Qed.

(* ===================================================================== *)
(** * Candidate selection (chooseDKIMSignature) *)
(* ===================================================================== *)

Section Candidates.

Implicit Types (p q : EmailParser.ParsedDKIM)
         (l pre post : list EmailParser.ParsedDKIM).

Lemma lowerTag_tagIs what k test p :
  Spec.plain k p ->
  (Spec.tagIs k test p
   /\ exists x, EmailParser.lowerTag what p k = Ok (Some x) /\ test x = true)
  \/ (~ Spec.tagIs k test p
      /\ exists o, EmailParser.lowerTag what p k = Ok o
                   /\ match o with Some x => test x = false | None => True end).
Proof.
  unfold Spec.plain, Spec.tagIs, EmailParser.lowerTag. intros Hplain.
  destruct (EmailParser.tags p !! k) as [[|v]|] eqn:Hv; [done| |].
  - destruct v as [|c r].
    + right. split; [intros (v & [= <-] & Hne & _); done|].
      by exists None.
    + cbn [JS.truthy]. destruct (test (JS.toLowerCase (String c r))) eqn:Et.
      * left. split; [by exists (String c r)|]. by eexists.
      * right. split; [intros (v & [= <-] & _ & Ht); congruence|].
        by eexists (Some _).
  - right. split; [intros (v & [=] & _)|]. by exists None.
Qed.

Lemma tagIs_plain k test p : Spec.tagIs k test p -> Spec.plain k p.
Proof. intros (v & Hv & _) E. congruence. Qed.

(** The scan returns the first element that passes the test. *)
Lemma findByTag_first what k test pre p post :
  Spec.tagIs k test p ->
  (forall q, q ∈ pre -> Spec.plain k q /\ ~ Spec.tagIs k test q) ->
  EmailParser.findByTag what k test (pre ++ p :: post) = Ok (Some p).
Proof.
  intros Hp Hpre. induction pre as [|q pre IH]; simpl.
  - destruct (lowerTag_tagIs what k test p (tagIs_plain _ _ _ Hp))
      as [(_ & x & -> & Hx)|(Hn & _)]; [|done]. simpl. by rewrite Hx.
  - destruct (Hpre q) as [Hplain Hn]; [left|].
    destruct (lowerTag_tagIs what k test q Hplain)
      as [(Hq & _)|(_ & o & -> & Ho)]; [done|].
    simpl. destruct o as [x|]; [rewrite Ho|];
      (apply IH; intros q' Hq'; apply Hpre; by right).
Qed.

(** The scan returns nothing when no element passes the test. *)
Lemma findByTag_none what k test l :
  (forall q, q ∈ l -> Spec.plain k q /\ ~ Spec.tagIs k test q) ->
  EmailParser.findByTag what k test l = Ok None.
Proof.
  induction l as [|q l IH]; intros Hl; [done|]. simpl.
  destruct (Hl q) as [Hplain Hn]; [left|].
  destruct (lowerTag_tagIs what k test q Hplain)
    as [(Hq & _)|(_ & o & -> & Ho)]; [done|].
  simpl. destruct o as [x|]; [rewrite Ho|];
    (apply IH; intros q' Hq'; apply Hl; by right).
Qed.

(** The scan stops with the exception at the first element whose tag
    was written without a value, when no element before it passes the
    test. *)
Lemma findByTag_bare what k test pre p post :
  EmailParser.tags p !! k = Some EmailParser.TTrue ->
  (forall q, q ∈ pre -> Spec.plain k q /\ ~ Spec.tagIs k test q) ->
  EmailParser.findByTag what k test (pre ++ p :: post)
  = Throw (EmailParser.notAFunction what).
Proof.
  intros Hp Hpre. induction pre as [|q pre IH]; simpl.
  - unfold EmailParser.lowerTag. by rewrite Hp.
  - destruct (Hpre q) as [Hplain Hn]; [left|].
    destruct (lowerTag_tagIs what k test q Hplain)
      as [(Hq & _)|(_ & o & -> & Ho)]; [done|].
    simpl. destruct o as [x|]; [rewrite Ho|];
      (apply IH; intros q' Hq'; apply Hpre; by right).
Qed.

Lemma choose_nonempty l claimedDomain :
  l <> [] ->
  EmailParser.chooseDKIMSignature l claimedDomain
  = bindR (if negb (JS.optFalsy claimedDomain)
           then EmailParser.findByTag "p.tags.d.toLowerCase" "d"
                  (fun x => String.eqb x
                              (JS.toLowerCase (default "" claimedDomain))) l
           else Ok None)
      (fun byDomain =>
         match byDomain with
         | Some p => Ok (Some p)
         | None =>
             bindR (EmailParser.findByTag "p.tags.a.toLowerCase" "a"
                      (fun x => bool_decide (x ∈ EmailParser.supported)) l)
               (fun byAlg =>
                  match byAlg with
                  | Some p => Ok (Some p)
                  | None => Ok (head l)
                  end)
         end).
Proof. by destruct l. Qed.

Lemma choose_by_domain pre p post claimed :
  claimed <> "" ->
  Spec.domainIs claimed p ->
  (forall q, q ∈ pre -> Spec.plain "d" q /\ ~ Spec.domainIs claimed q) ->
  EmailParser.chooseDKIMSignature (pre ++ p :: post) (Some claimed)
  = Ok (Some p).
Proof.
  intros Hc Hp Hpre. rewrite choose_nonempty by (by destruct pre).
  assert (JS.optFalsy (Some claimed) = false) as -> by (by destruct claimed).
  simpl. unfold Spec.domainIs in *.
  by rewrite (findByTag_first _ _ _ pre p post Hp Hpre).
Qed.

Lemma choose_skips_domain l claimedDomain :
  Spec.noDomainMatch l claimedDomain ->
  (if negb (JS.optFalsy claimedDomain)
   then EmailParser.findByTag "p.tags.d.toLowerCase" "d"
          (fun x => String.eqb x (JS.toLowerCase (default "" claimedDomain)))
          l
   else Ok None) = Ok None.
Proof.
  intros [->|(claimed & -> & Hl)]; [done|].
  destruct (negb _); [|done]. by apply findByTag_none.
Qed.

Lemma choose_by_algorithm pre p post claimedDomain :
  Spec.noDomainMatch (pre ++ p :: post) claimedDomain ->
  Spec.supportedAlg p ->
  (forall q, q ∈ pre -> Spec.plain "a" q /\ ~ Spec.supportedAlg q) ->
  EmailParser.chooseDKIMSignature (pre ++ p :: post) claimedDomain
  = Ok (Some p).
Proof.
  intros Hd Hp Hpre. rewrite choose_nonempty by (by destruct pre).
  rewrite (choose_skips_domain _ _ Hd). simpl.
  unfold Spec.supportedAlg in *.
  by rewrite (findByTag_first _ _ _ pre p post Hp Hpre).
Qed.

Lemma choose_bare_domain pre p post claimed :
  claimed <> "" ->
  EmailParser.tags p !! "d" = Some EmailParser.TTrue ->
  (forall q, q ∈ pre -> Spec.plain "d" q /\ ~ Spec.domainIs claimed q) ->
  EmailParser.chooseDKIMSignature (pre ++ p :: post) (Some claimed)
  = Throw (EmailParser.notAFunction "p.tags.d.toLowerCase").
Proof.
  intros Hc Hp Hpre. rewrite choose_nonempty by (by destruct pre).
  assert (JS.optFalsy (Some claimed) = false) as -> by (by destruct claimed).
  simpl. unfold Spec.domainIs in *.
  by rewrite (findByTag_bare _ _ _ pre p post Hp Hpre).
Qed.

Lemma choose_bare_algorithm pre p post claimedDomain :
  Spec.noDomainMatch (pre ++ p :: post) claimedDomain ->
  EmailParser.tags p !! "a" = Some EmailParser.TTrue ->
  (forall q, q ∈ pre -> Spec.plain "a" q /\ ~ Spec.supportedAlg q) ->
  EmailParser.chooseDKIMSignature (pre ++ p :: post) claimedDomain
  = Throw (EmailParser.notAFunction "p.tags.a.toLowerCase").
Proof.
  intros Hd Hp Hpre. rewrite choose_nonempty by (by destruct pre).
  rewrite (choose_skips_domain _ _ Hd). simpl.
  unfold Spec.supportedAlg in *.
  by rewrite (findByTag_bare _ _ _ pre p post Hp Hpre).
Qed.

Lemma choose_first first rest claimedDomain :
  Spec.noDomainMatch (first :: rest) claimedDomain ->
  (forall q, q ∈ first :: rest ->
             Spec.plain "a" q /\ ~ Spec.supportedAlg q) ->
  EmailParser.chooseDKIMSignature (first :: rest) claimedDomain
  = Ok (Some first).
Proof.
  intros Hd Ha. rewrite choose_nonempty by done.
  rewrite (choose_skips_domain _ _ Hd). cbn [bindR].
  unfold Spec.supportedAlg in *.
  by rewrite (findByTag_none _ _ _ _ Ha).
Qed.

End Candidates.

(** C5 (as the code has it).  [chooseDKIMSignature] applies the stated
    policy to the list of parsed signatures it is given, up to the first
    [d] or [a] tag written without a value that its scans read.  With a
    claimed domain it scans the list for the first signature whose [d=]
    equals the claimed domain, case apart, and returns it; when no domain is
    claimed or the scan finds none, it scans for the first signature whose
    [a=] is [rsa-sha256] or [ed25519-sha256] and returns it; otherwise it
    returns the first signature; and nothing for an empty list.  A scan
    that reads a tag [d] (or [a]) without a value before it finds its
    signature throws the TypeError [p.tags.d.toLowerCase is not a function]
    (or [p.tags.a.toLowerCase is not a function]) instead.  The engine does
    not go through all DKIM-Signature headers: [verifyHeadersOnly] parses
    the first DKIM-Signature block of the message only and fails with "no
    dkim-signature header" when that one is unusable, and the CLI
    canonicalizes for the first parsed signature. *)
Theorem C5_candidate_policy
        (pre post : list EmailParser.ParsedDKIM) (p : EmailParser.ParsedDKIM)
        (claimedDomain : option string) :
  (forall claimed,
      claimedDomain = Some claimed -> claimed <> "" ->
      Spec.domainIs claimed p ->
      (forall q, q ∈ pre -> Spec.plain "d" q /\ ~ Spec.domainIs claimed q) ->
      EmailParser.chooseDKIMSignature (pre ++ p :: post) claimedDomain
      = Ok (Some p))
  /\ (Spec.noDomainMatch (pre ++ p :: post) claimedDomain ->
      Spec.supportedAlg p ->
      (forall q, q ∈ pre -> Spec.plain "a" q /\ ~ Spec.supportedAlg q) ->
      EmailParser.chooseDKIMSignature (pre ++ p :: post) claimedDomain
      = Ok (Some p))
  /\ (Spec.noDomainMatch (p :: post) claimedDomain ->
      (forall q, q ∈ p :: post ->
                 Spec.plain "a" q /\ ~ Spec.supportedAlg q) ->
      EmailParser.chooseDKIMSignature (p :: post) claimedDomain
      = Ok (Some p))
  /\ EmailParser.chooseDKIMSignature [] claimedDomain = Ok None
  /\ (forall claimed,
         claimedDomain = Some claimed -> claimed <> "" ->
         EmailParser.tags p !! "d" = Some EmailParser.TTrue ->
         (forall q, q ∈ pre ->
                    Spec.plain "d" q /\ ~ Spec.domainIs claimed q) ->
         EmailParser.chooseDKIMSignature (pre ++ p :: post) claimedDomain
         = Throw "p.tags.d.toLowerCase is not a function")
  /\ (Spec.noDomainMatch (pre ++ p :: post) claimedDomain ->
      EmailParser.tags p !! "a" = Some EmailParser.TTrue ->
      (forall q, q ∈ pre -> Spec.plain "a" q /\ ~ Spec.supportedAlg q) ->
      EmailParser.chooseDKIMSignature (pre ++ p :: post) claimedDomain
      = Throw "p.tags.a.toLowerCase is not a function")
  /\ (forall resolveTxt rsaVerify headersText,
         Dkim.rawDkim (Dkim.parseHeaders (JS.trim headersText))
         = default "" (List.find Dkim.isDkimBlock
                                 (Dkim.allRawBlocks (JS.trim headersText)))
         /\ (Dkim.parseDkimSignature
               (default "" (List.find Dkim.isDkimBlock
                                      (Dkim.allRawBlocks
                                         (JS.trim headersText)))) = None ->
             Dkim.verifyHeadersOnly resolveTxt rsaVerify headersText
             = Dkim.failure "no dkim-signature header"))
  /\ (forall normalized,
         EmailParser.chosenDKIMOf normalized
         = bindR (EmailParser.mapR EmailParser.parseDKIMHeaderIntoTags
                    (EmailParser.findDKIMSignatureHeaders
                       (EmailParser.parseHeaders
                          (EmailParser.headersRawOf normalized))))
             (fun parsedDKIMs => Ok (head parsedDKIMs))).
Proof.
  split; [|split; [|split; [|split; [|split; [|split; [|split]]]]]].
  - intros claimed -> Hc Hp Hpre. by apply choose_by_domain.
  - intros Hd Hp Hpre. by apply choose_by_algorithm.
  - intros Hd Ha. by apply choose_first.
  - done.
  - intros claimed -> Hc Hp Hpre.
    by rewrite (choose_bare_domain pre p post claimed).
  - intros Hd Hp Hpre.
    by rewrite (choose_bare_algorithm pre p post claimedDomain).
  - intros resolveTxt rsaVerify headersText. split; [done|].
    intros Hnone. unfold Dkim.verifyHeadersOnly.
    change (Dkim.rawDkim (Dkim.parseHeaders (JS.trim headersText)))
      with (default "" (List.find Dkim.isDkimBlock
                                  (Dkim.allRawBlocks (JS.trim headersText)))).
    by rewrite Hnone.
  - done.
Qed.

Lemma C5_candidate_policy_witness :
  Examples.twoParsed = [Examples.firstParsed] ++ Examples.secondParsed :: []
  /\ Spec.domainIs "example.com" Examples.secondParsed
  /\ EmailParser.tags Examples.bareDomainParsed !! "d"
     = Some EmailParser.TTrue
  /\ EmailParser.chooseDKIMSignature
       ([Examples.firstParsed] ++ Examples.bareDomainParsed
                               :: [Examples.secondParsed])
       (Some "example.com")
     = Throw "p.tags.d.toLowerCase is not a function"
  /\ EmailParser.chooseDKIMSignature Examples.twoParsed (Some "example.com")
     = Ok (Some Examples.secondParsed).
Proof.
  assert (Spec.domainIs "example.com" Examples.secondParsed) as Hsecond.
  { exists "example.com". split; [vm_compute; reflexivity|]. by split. }
  assert (EmailParser.tags Examples.bareDomainParsed !! "d"
          = Some EmailParser.TTrue) as Hbare by (vm_compute; reflexivity).
  split; [vm_compute; reflexivity|]. split; [exact Hsecond|].
  split; [exact Hbare|].
  assert (forall q, q ∈ [Examples.firstParsed] ->
            Spec.plain "d" q /\ ~ Spec.domainIs "example.com" q) as Hpre;
    [|split;
      [apply (proj1 (proj2 (proj2 (proj2 (proj2
                (C5_candidate_policy [Examples.firstParsed]
                   [Examples.secondParsed] Examples.bareDomainParsed
                   (Some "example.com")))))) "example.com");
       [reflexivity|discriminate|exact Hbare|exact Hpre]
      |change Examples.twoParsed
         with ([Examples.firstParsed] ++ Examples.secondParsed :: []);
       apply (proj1 (C5_candidate_policy [Examples.firstParsed] []
                       Examples.secondParsed (Some "example.com"))
                    "example.com");
       [reflexivity|discriminate|exact Hsecond|exact Hpre]]].
  intros q Hq. apply list_elem_of_singleton in Hq as ->.
  assert (EmailParser.tags Examples.firstParsed !! "d"
          = Some (EmailParser.TStr "other.org")) as Hd
      by (vm_compute; reflexivity).
  split.
  - intros E. rewrite Hd in E. discriminate E.
  - intros (v & Hv & _ & Ht). rewrite Hd in Hv. injection Hv as <-.
    vm_compute in Ht. discriminate Ht.
Defined.

(** C5, as stated, fails: this message has two DKIM-Signature headers, the
    second of which is usable, is of the claimed domain and is the one the
    policy prefers; the engine looks at the first one only. *)
Lemma C5_first_signature_only_counterexample :
  length (List.filter Dkim.isDkimBlock
            (Dkim.allRawBlocks (JS.trim Examples.twoSignatures))) = 2%nat
  /\ List.filter Dkim.isDkimBlock
       (Dkim.allRawBlocks (JS.trim Examples.twoSignatures)) !! 1%nat
     = Some Examples.secondBlock
  /\ (exists sig,
         Dkim.parseDkimSignature Examples.secondBlock = Some sig
         /\ Dkim.sig_d sig = "example.com"
         /\ Dkim.sig_a sig = "rsa-sha256")
  /\ (forall resolveTxt rsaVerify,
         Dkim.verifyHeadersOnly resolveTxt rsaVerify Examples.twoSignatures
         = Dkim.failure "no dkim-signature header")
  /\ EmailParser.chooseDKIMSignature Examples.twoParsed (Some "example.com")
     = Ok (Some Examples.secondParsed)
  /\ EmailParser.chosenDKIMOf
       (EmailParser.normalizeLineEndings Examples.twoSignatures)
     = Ok (Some Examples.firstParsed)
  /\ Examples.firstParsed <> Examples.secondParsed.
Proof.
  split; [vm_compute; reflexivity|].
  split; [vm_compute; reflexivity|].
  split; [eexists; split; [vm_compute; reflexivity|]; by split|].
  split; [intros resolveTxt rsaVerify; vm_compute; reflexivity|].
  split; [vm_compute; reflexivity|].
  split; [vm_compute; reflexivity|].
  intros E. apply (f_equal EmailParser.h_list) in E. vm_compute in E.
  discriminate E.
Qed.

(* ===================================================================== *)
(** * The end of the signing input *)
(* ===================================================================== *)

Section SigningInputEnd.

Implicit Types (s t p : string) (x y : ascii).

Lemma string_app_cons x s t : String x s +:+ t = String x (s +:+ t).
Proof. reflexivity. Qed.

Lemma string_app_assoc s t p : (s +:+ t) +:+ p = s +:+ (t +:+ p).
Proof.
  induction s as [|x s IH]; [done|]. by rewrite !string_app_cons, IH.
Qed.

Lemma endsWith_refl s : JS.endsWith s s = true.
Proof.
  destruct s; [done|]. cbn [JS.endsWith]. by rewrite String.eqb_refl.
Qed.

Lemma endsWith_app s t p :
  JS.endsWith t p = true -> JS.endsWith (s +:+ t) p = true.
Proof.
  intros Ht. induction s as [|x s IH]; [done|].
  rewrite string_app_cons. cbn [JS.endsWith]. rewrite IH. apply orb_true_r.
Qed.

Lemma endsWith_app_refl s p : JS.endsWith (s +:+ p) p = true.
Proof. apply endsWith_app, endsWith_refl. Qed.

(** A string that ends with CRLF ends with LF. *)
Lemma endsWith_last s x y :
  JS.endsWith s (String x (String y "")) = true ->
  JS.endsWith s (String y "") = true.
Proof.
  induction s as [|z s IH]; [simpl; done|]. cbn [JS.endsWith].
  intros [E|E]%orb_true_iff.
  - apply String.eqb_eq in E. injection E as -> ->.
    rewrite endsWith_refl. apply orb_true_r.
  - rewrite (IH E). apply orb_true_r.
Qed.

Lemma eqb_single z s y :
  s <> "" -> String.eqb (String z s) (String y "") = false.
Proof.
  destruct s as [|x s]; [done|]. intros _. simpl.
  by destruct (Ascii.eqb z y).
Qed.

Lemma endsWith_char_app s x t y :
  JS.endsWith (s +:+ String x t) (String y "")
  = JS.endsWith (String x t) (String y "").
Proof.
  induction s as [|z s IH]; [done|].
  rewrite string_app_cons. cbn [JS.endsWith]. rewrite IH.
  rewrite eqb_single; [done|]. by destruct s.
Qed.

(** What [trimEnd] returns does not end with white space. *)
Lemma trimEnd_last s y :
  JS.endsWith (JS.trimEnd s) (String y "") = true -> JS.isWhiteSpace y = false.
Proof.
  induction s as [|x s IH]; [simpl; done|]. cbn [JS.trimEnd].
  destruct (JS.isWhiteSpace x && negb (JS.truthy (JS.trimEnd s))) eqn:E;
    [simpl; done|].
  cbn [JS.endsWith]. intros [Hx|Hs]%orb_true_iff; [|by apply IH].
  apply String.eqb_eq in Hx. injection Hx as -> Hs. rewrite Hs in E.
  simpl in E. by rewrite andb_true_r in E.
Qed.

(** [name:value] with a trimmed value does not end with a line break. *)
Lemma relaxed_no_crlf s t :
  JS.endsWith (s +:+ ":" +:+ JS.trim t) JS.CRLF = false.
Proof.
  destruct (JS.endsWith _ JS.CRLF) eqn:E; [|done]. exfalso.
  apply endsWith_last in E.
  change (":" +:+ JS.trim t) with (String ":" (JS.trim t)) in E.
  rewrite endsWith_char_app in E. cbn [JS.endsWith] in E.
  apply orb_true_iff in E as [E|E].
  - apply String.eqb_eq in E. discriminate E.
  - apply trimEnd_last in E. discriminate E.
Qed.

Lemma relaxedHeader_no_crlf s hd :
  JS.endsWith (s +:+ Dkim.relaxedHeader hd) JS.CRLF = false.
Proof.
  destruct hd as [o|t]; simpl;
    unfold Dkim.relaxedHeaderObj, Dkim.relaxedHeaderStr;
    rewrite <- string_app_assoc; apply relaxed_no_crlf.
Qed.

Lemma join_empty_snoc (l : list string) s :
  JS.join "" (l ++ [s]) = JS.join "" l +:+ s.
Proof.
  induction l as [|t l IH]; [done|].
  change ((t :: l) ++ [s]) with (t :: (l ++ [s])).
  destruct l as [|u l]; [done|].
  change (JS.join "" (t :: (u :: l) ++ [s]))
    with (t +:+ JS.join "" ((u :: l) ++ [s])).
  rewrite IH.
  change (JS.join "" (t :: u :: l)) with (t +:+ JS.join "" (u :: l)).
  by rewrite string_app_assoc.
Qed.

Lemma canonicalizeHeader_crlf h mode :
  JS.endsWith (EmailParser.canonicalizeHeader h mode) JS.CRLF = true.
Proof.
  unfold EmailParser.canonicalizeHeader.
  destruct (String.eqb _ "simple").
  - destruct (JS.endsWith (EmailParser.raw h) JS.CRLF) eqn:E; simpl;
      [done|apply endsWith_app_refl].
  - rewrite <- !string_app_assoc. apply endsWith_app_refl.
Qed.

(** The block of the CLI always ends with a line break. *)
Lemma assemble_crlf chosen headersList block :
  EmailParser.assembleCanonicalizedHeaderBlock (Some chosen) headersList
  = Ok (Some block) ->
  JS.endsWith block JS.CRLF = true.
Proof.
  unfold EmailParser.assembleCanonicalizedHeaderBlock.
  destruct (EmailParser.headerModeOf chosen) as [mode|]; [|done]. simpl.
  intros [= <-]. rewrite join_empty_snoc.
  apply endsWith_app, canonicalizeHeader_crlf.
Qed.

End SigningInputEnd.

(** C2 (code at variance with the claim).  The signing input of
    [verifyHeadersOnly] ends with the relaxed form of the DKIM-Signature
    header returned by [withEmptyB], after the selected headers, and never
    ends with a line break.  The block of [assembleCanonicalizedHeaderBlock]
    canonicalizes the last line with [canonicalizeHeader] like the selected
    headers, which appends CRLF: every block it returns ends with a line
    break, where the claim has none.  On the message [relaxedMsg] it returns
    the signing input with its [b=] blanked, but without the space before
    [b=] and followed by CRLF.  Besides, [withEmptyB] leaves the value of
    [b = AAAA] in place although [parseDkimSignature] reads it as the
    signature. *)
Theorem C2_final_signature_line :
  (forall ph dkim,
      Dkim.signedData ph dkim
      = JS.join JS.CRLF
          ((fun x => Dkim.relaxedHeader (inl x))
             <$> Dkim.selectSignedHeaders (Dkim.hlist ph) (Dkim.sig_h dkim))
          +:+ JS.CRLF +:+ Dkim.relaxedHeader (Dkim.withEmptyB (Dkim.rawDkim ph))
      /\ JS.endsWith (Dkim.signedData ph dkim) JS.CRLF = false)
  /\ (forall chosen headersList block,
         EmailParser.assembleCanonicalizedHeaderBlock (Some chosen) headersList
         = Ok (Some block) ->
         JS.endsWith block JS.CRLF = true)
  /\ Dkim.parseDkimSignature
       (Dkim.rawDkim (Dkim.parseHeaders (JS.trim Examples.relaxedMsg)))
     = Some Examples.relaxedSig
  /\ Dkim.signedData (Dkim.parseHeaders (JS.trim Examples.relaxedMsg))
                     Examples.relaxedSig
     = Examples.relaxedSigningInput
  /\ EmailParser.canonicalizedHeaderBlockOf Examples.relaxedMsg
     = Ok (Some ("from:a@example.com" +:+ JS.CRLF
                   +:+ "subject:Verify 7f3a9c21" +:+ JS.CRLF
                   +:+ "dkim-signature:v=1; a=rsa-sha256; c=relaxed/relaxed; "
                   +:+ "d=example.com; s=sel1; h=from:subject; bh=abc=;b=; t=1"
                   +:+ JS.CRLF))
  /\ (Dkim.sig_b <$> Dkim.parseDkimSignature Examples.spacedB) = Some "AAAA"
  /\ Dkim.withEmptyB Examples.spacedB
     = inl {| Dkim.name := "dkim-signature";
              Dkim.value := "v=1; d=example.com; s=sel1; h=from; b = AAAA" |}.
Proof.
  split; [|split; [|repeat split; vm_compute; reflexivity]].
  - intros ph dkim. split; [done|]. unfold Dkim.signedData.
    rewrite <- string_app_assoc. apply relaxedHeader_no_crlf.
  - apply assemble_crlf.
Qed.

(** C8 (code at variance with the claim).  For every continuation line,
    [parseHeaders] of the verifier appends CRLF and the line to the raw
    block but appends the trimmed line to the value of the current header
    without a space between them; [parseHeaders] of the CLI appends a space
    and the trimmed line to the value, and CRLF and the line to a raw text
    that ends with CRLF already.  On a Subject header folded over two lines
    the verifier reads the value [helloworld] where the CLI reads
    [hello world], and the raw text of the CLI has two line breaks between
    the two lines. *)
Theorem C8_continuation_lines :
  (forall line st i,
      JS.headIs JS.isWsp line = true ->
      Dkim.current st = Some i ->
      Dkim.parseLoop [line] st
      = {| Dkim.headers :=
             alter (fun h => {| Dkim.name := Dkim.name h;
                                Dkim.value := Dkim.value h +:+ JS.trim line |})
                   i (Dkim.headers st);
           Dkim.current := Some i;
           Dkim.rawBlocks := Dkim.rawBlocks st;
           Dkim.block := Dkim.block st +:+ JS.CRLF +:+ line |})
  /\ (forall line headers idx,
         JS.headIs JS.isWsp line = true ->
         EmailParser.parseLoop [line] headers idx
         = alter (fun h =>
                    {| EmailParser.name := EmailParser.name h;
                       EmailParser.value :=
                         EmailParser.value h +:+ " " +:+ JS.trim line;
                       EmailParser.raw :=
                         EmailParser.raw h +:+ JS.CRLF +:+ line;
                       EmailParser.index := EmailParser.index h |})
                 (length headers - 1)%nat headers)
  /\ Dkim.hlist (Dkim.parseHeaders (JS.trim Examples.foldedSubject))
     = [ {| Dkim.name := "Subject"; Dkim.value := "helloworld" |} ]
  /\ Dkim.allRawBlocks (JS.trim Examples.foldedSubject)
     = [ "Subject: hello" +:+ JS.CRLF +:+ " world" ]
  /\ EmailParser.parseHeaders Examples.foldedSubject
     = [ {| EmailParser.name := "Subject";
            EmailParser.value := "hello world";
            EmailParser.raw :=
              "Subject: hello" +:+ JS.CRLF +:+ JS.CRLF +:+ " world";
            EmailParser.index := 0 |} ].
Proof.
  split; [|split; [|repeat split; vm_compute; reflexivity]].
  - intros line st i Hline Hcur. cbn [Dkim.parseLoop].
    by rewrite Hline, Hcur.
  - intros line headers idx Hline. cbn [EmailParser.parseLoop].
    destruct line as [|x r]; [done|]. by rewrite Hline.
Qed.

(* ===================================================================== *)
(** * Further properties: header lookup and the verifier's outcome *)
(* ===================================================================== *)

Section LookupFacts.

Implicit Types (hdrs : list Dkim.Header) (n : string).

Lemma getHeaderValueFrom_None hdrs n k :
  Dkim.getHeaderValueFrom hdrs n k = None
  <-> forall i h, (i < k)%nat -> hdrs !! i = Some h ->
                  JS.toLowerCase (Dkim.name h) <> n.
Proof.
  induction k as [|k IH]; [split; [intros; lia|done]|]. simpl.
  destruct (hdrs !! k) as [hk|] eqn:Hk.
  - destruct (String.eqb _ n) eqn:E.
    + apply String.eqb_eq in E. split; [done|]. intros Hall.
      exfalso. by apply (Hall k hk); [lia|..].
    + rewrite IH. split.
      * intros Hall i h Hi Hh. destruct (decide (i = k)) as [->|].
        -- rewrite Hk in Hh. injection Hh as <-. intros E'.
           by rewrite E', String.eqb_refl in E.
        -- apply (Hall i); [lia|done].
      * intros Hall i h Hi. apply Hall. lia.
  - rewrite IH. split.
    + intros Hall i h Hi Hh. destruct (decide (i = k)) as [->|];
        [congruence|]. apply (Hall i); [lia|done].
    + intros Hall i h Hi. apply Hall. lia.
Qed.

Lemma getHeaderValueFrom_Some hdrs n k v :
  Dkim.getHeaderValueFrom hdrs n k = Some v ->
  exists h, h ∈ hdrs /\ JS.toLowerCase (Dkim.name h) = n /\ Dkim.value h = v.
Proof.
  induction k as [|k IH]; [done|]. simpl.
  destruct (hdrs !! k) as [hk|] eqn:Hk; [|done].
  destruct (String.eqb _ n) eqn:E; [|done].
  apply String.eqb_eq in E. intros [= <-]. exists hk.
  split; [by eapply list_elem_of_lookup_2|done].
Qed.

End LookupFacts.

(** X1.  [getHeaderValue] answers [null] exactly when no header of the list
    has the name, letter case apart, and every value it returns is the value
    of a header of the list with that name. *)
Theorem X1_getHeaderValue_absent (hdrs : list Dkim.Header) (nm : string) :
  (Dkim.getHeaderValue hdrs nm = None
   <-> forall h, h ∈ hdrs ->
                 JS.toLowerCase (Dkim.name h) <> JS.toLowerCase nm)
  /\ (forall v,
         Dkim.getHeaderValue hdrs nm = Some v ->
         exists h, h ∈ hdrs
                   /\ JS.toLowerCase (Dkim.name h) = JS.toLowerCase nm
                   /\ Dkim.value h = v).
Proof.
  unfold Dkim.getHeaderValue. split; [|apply getHeaderValueFrom_Some].
  rewrite getHeaderValueFrom_None. split.
  - intros Hall h [i Hi]%list_elem_of_lookup_1. apply (Hall i); [|done].
    by eapply lookup_lt_Some.
  - intros Hall i h _ Hh. apply Hall. by eapply list_elem_of_lookup_2.
Qed.

(** X2.  [verifyHeadersOnly] answers [ok] only when a DKIM-Signature block
    was parsed, its algorithm is [rsa-sha256] (case apart), the key lookup
    for its selector and domain returned a key, and the RSA verification of
    the signing input against that key and the [b=] value returned true; the
    outcome then carries the [d=] value, the signed-header list and no
    reason. *)
Theorem X2_verifyHeadersOnly_sound
        (resolveTxt : string -> result (list (list string)))
        (rsaVerify : string -> string -> string -> result bool)
        (headersText : string)
        (Hok : Dkim.ok (Dkim.verifyHeadersOnly resolveTxt rsaVerify headersText)
               = true) :
  let ph := Dkim.parseHeaders (JS.trim headersText) in
  exists dkim pubKey,
    Dkim.parseDkimSignature (Dkim.rawDkim ph) = Some dkim
    /\ JS.toLowerCase (Dkim.sig_a dkim) = "rsa-sha256"
    /\ Dkim.fetchDkimPublicKey resolveTxt (Dkim.sig_s dkim) (Dkim.sig_d dkim)
       = Some pubKey
    /\ rsaVerify pubKey (Dkim.signedData ph dkim) (Dkim.sig_b dkim) = Ok true
    /\ Dkim.verifyHeadersOnly resolveTxt rsaVerify headersText
       = {| Dkim.ok := true; Dkim.domain := Some (Dkim.sig_d dkim);
            Dkim.subject := Dkim.subjectOf (Dkim.hlist ph);
            Dkim.signedHeaders := Some (Dkim.sig_h dkim);
            Dkim.reason := None |}.
Proof.
  intros ph. revert Hok. unfold Dkim.verifyHeadersOnly. fold ph.
  destruct (Dkim.parseDkimSignature (Dkim.rawDkim ph)) as [dkim|]; [|done].
  destruct (String.eqb _ "rsa-sha256") eqn:Ealg; [|done]. simpl.
  apply String.eqb_eq in Ealg. unfold Dkim.checkSignature.
  destruct (Dkim.fetchDkimPublicKey _ _ _) as [pubKey|] eqn:Ekey; [|done].
  destruct (rsaVerify _ _ _) as [[|]|] eqn:Ev; [|done..].
  intros _. by exists dkim, pubKey.
Qed.

Lemma X2_verifyHeadersOnly_sound_witness :
  Dkim.ok (Dkim.verifyHeadersOnly Examples.anyKey Examples.accept
                                  Examples.relaxedMsg) = true
  /\ exists dkim pubKey,
      Dkim.parseDkimSignature
        (Dkim.rawDkim (Dkim.parseHeaders (JS.trim Examples.relaxedMsg)))
      = Some dkim
      /\ Examples.accept pubKey
           (Dkim.signedData (Dkim.parseHeaders (JS.trim Examples.relaxedMsg))
                            dkim)
           (Dkim.sig_b dkim) = Ok true.
Proof.
  assert (Dkim.ok (Dkim.verifyHeadersOnly Examples.anyKey Examples.accept
                                          Examples.relaxedMsg) = true) as Hok
      by (vm_compute; reflexivity).
  split; [exact Hok|].
  destruct (X2_verifyHeadersOnly_sound Examples.anyKey Examples.accept
              Examples.relaxedMsg Hok)
    as (dkim & pubKey & Hsig & _ & _ & Hv & _).
  exists dkim, pubKey. split; [exact Hsig|exact Hv].
Defined.

(** X3.  Every outcome of [verifyHeadersOnly] is either a success with a
    signing domain, a signed-header list and no reason, or a failure that
    carries a reason and neither domain, Subject nor signed headers. *)
Theorem X3_verifyHeadersOnly_outcome
        (resolveTxt : string -> result (list (list string)))
        (rsaVerify : string -> string -> string -> result bool)
        (headersText : string) :
  let v := Dkim.verifyHeadersOnly resolveTxt rsaVerify headersText in
  (Dkim.ok v = true /\ Dkim.reason v = None
   /\ (exists d, Dkim.domain v = Some d /\ d <> "")
   /\ (exists hs, Dkim.signedHeaders v = Some hs /\ hs <> []))
  \/ (exists why, v = Dkim.failure why).
Proof.
  intros v. subst v. unfold Dkim.verifyHeadersOnly.
  destruct (Dkim.parseDkimSignature _) as [dkim|] eqn:Esig;
    [|right; by eexists].
  destruct (negb _); [right; by eexists|]. unfold Dkim.checkSignature.
  destruct (Dkim.fetchDkimPublicKey _ _ _); [|right; by eexists].
  destruct (rsaVerify _ _ _) as [[|]|]; [|right; by eexists..].
  left. destruct (parseDkimSignature_Some _ _ Esig)
    as (_ & d & sel & _ & Htd & _ & _ & -> & Hh & _).
  simpl. repeat split; try done.
  - exists d. split; [done|]. by destruct d.
  - by eexists.
Qed.

(* ===================================================================== *)
(** * Further properties: sessions and the two routes *)
(* ===================================================================== *)

Section SessionFacts.

Import SessionStore.

Implicit Types (st : Store) (s : Session) (sid : string).

Lemma fresh_spec now s : fresh now s = true <-> now - createdAt s < TTL_MS.
Proof. unfold fresh. apply Z.ltb_lt. Qed.

(** What [loadFromDisk] leaves under a key: what was there, or a fresh
    session of the data file with that id. *)
Lemma loadFromDisk_lookup now arr (m : gmap string Session) k s :
  foldl (fun m s => if fresh now s then <[id s := s]> m else m) m arr !! k
  = Some s ->
  m !! k = Some s \/ (s ∈ arr /\ fresh now s = true /\ id s = k).
Proof.
  revert m. induction arr as [|x arr IH]; intros m; simpl; [by left|].
  intros [Hm|(Hin & Hf & Hid)]%IH.
  - destruct (fresh now x) eqn:Hx; [|by left].
    destruct (decide (id x = k)) as [<-|Hne].
    + rewrite lookup_insert_eq in Hm. injection Hm as <-.
      right. split; [left|done].
    + rewrite lookup_insert_ne in Hm by done. by left.
  - right. split; [by right|done].
Qed.

(** A session of the map that has not expired is the answer. *)
Lemma getSession_found now nowLoad sid st s :
  SESSIONS st !! sid = Some s -> fresh now s = true ->
  (getSession now nowLoad sid st).1 = Some s.
Proof.
  intros Hs Hf. unfold getSession. cbn [SESSIONS].
  by rewrite (map_lookup_filter_Some_2 _ _ _ _ Hs Hf).
Qed.

(** The answer is in the map that [getSession] leaves. *)
Lemma getSession_kept now nowLoad sid st s st' :
  getSession now nowLoad sid st = (Some s, st') ->
  SESSIONS st' !! sid = Some s.
Proof.
  unfold getSession. cbn [SESSIONS].
  destruct (filter _ (SESSIONS st) !! sid) as [found|] eqn:E.
  - by intros [= <- <-].
  - by intros [= Hl <-].
Qed.

Lemma getSession_origin now nowLoad sid st s k :
  SESSIONS (getSession now nowLoad sid st).2 !! k = Some s ->
  (SESSIONS st !! k = Some s /\ fresh now s = true)
  \/ (exists arr, disk st = Some arr /\ s ∈ arr
                  /\ fresh nowLoad s = true /\ id s = k).
Proof.
  unfold getSession. cbn [SESSIONS].
  destruct (filter _ (SESSIONS st) !! sid) as [found|] eqn:E; cbn [snd].
  - cbn [SESSIONS]. intros [? ?]%map_lookup_filter_Some. by left.
  - unfold loadFromDisk. cbn [disk SESSIONS].
    destruct (disk st) as [arr|] eqn:Ed; cbn [SESSIONS].
    + intros [[? ?]%map_lookup_filter_Some|?]%loadFromDisk_lookup;
        [by left|]. right. by exists arr.
    + intros [? ?]%map_lookup_filter_Some. by left.
Qed.

(** A fresh session of the data file is loaded under its id, unless a later
    one of the file with the same id replaces it. *)
Lemma loadFromDisk_loads now arr (m : gmap string Session) k :
  is_Some (m !! k)
  \/ (exists s, s ∈ arr /\ fresh now s = true /\ id s = k) ->
  is_Some
    (foldl (fun m s => if fresh now s then <[id s := s]> m else m) m arr
       !! k).
Proof.
  revert m. induction arr as [|x arr IH]; intros m; simpl.
  - intros [?|(s & Hin & _)]; [done|]. by apply elem_of_nil in Hin.
  - intros [Hm|(s & [->|Hin]%elem_of_cons & Hf & Hid)]; apply IH.
    + left. destruct (fresh now x); [|done].
      destruct (decide (id x = k)) as [<-|Hne].
      * by rewrite lookup_insert_eq.
      * by rewrite lookup_insert_ne.
    + left. rewrite Hf, <- Hid. by rewrite lookup_insert_eq.
    + right. by exists s.
Qed.

End SessionFacts.

Section IncludesFacts.

Lemma startsWith_toLowerCase s p :
  JS.startsWith s p = true ->
  JS.startsWith (JS.toLowerCase s) (JS.toLowerCase p) = true.
Proof.
  revert s. induction p as [|a p IH]; intros [|b s]; simpl; try done.
  intros [Hab Hs]%andb_true_iff. apply Ascii.eqb_eq in Hab as ->.
  by rewrite Ascii.eqb_refl, IH.
Qed.

Lemma indexOf_lower_bound s p : -1 <= JS.indexOf s p.
Proof.
  induction s as [|c s IH]; cbn [JS.indexOf].
  - destruct (JS.startsWith "" p); lia.
  - destruct (JS.startsWith (String c s) p); [lia|].
    destruct (JS.indexOf s p <? 0) eqn:E; [lia|].
    apply Z.ltb_ge in E. lia.
Qed.

Lemma includes_cons c s p :
  JS.includes (String c s) p
  = JS.startsWith (String c s) p || JS.includes s p.
Proof.
  unfold JS.includes. cbn [JS.indexOf].
  destruct (JS.startsWith (String c s) p); [done|]. simpl.
  destruct (JS.indexOf s p <? 0) eqn:E.
  - apply Z.ltb_lt in E. symmetry. apply Z.leb_gt. lia.
  - apply Z.ltb_ge in E. rewrite (proj2 (Z.leb_le 0 (JS.indexOf s p)) E).
    apply Z.leb_le. lia.
Qed.

(** A string that contains another contains it after both are
    lower-cased. *)
Lemma includes_toLowerCase s p :
  JS.includes s p = true ->
  JS.includes (JS.toLowerCase s) (JS.toLowerCase p) = true.
Proof.
  induction s as [|c s IH].
  - unfold JS.includes. simpl. destruct p; [done|]. simpl. done.
  - rewrite includes_cons. cbn [JS.toLowerCase]. rewrite includes_cons.
    intros [H|H]%orb_true_iff; apply orb_true_iff.
    + left. by apply (startsWith_toLowerCase (String c s)).
    + right. by apply IH.
Qed.

End IncludesFacts.

Section BindFacts.

Context (domainHashOf : string -> string).

Lemma includes_subject (v : Dkim.VerifyResult) subj written :
  Dkim.subject v = Some subj ->
  JS.includes subj written = true ->
  JS.includes (JS.toLowerCase (JS.optOr (Dkim.subject v) ""))
              (JS.toLowerCase written) = true.
Proof.
  intros -> Hinc. cbn [JS.optOr]. unfold JS.orElse.
  destruct (JS.truthy subj) eqn:Es; [by apply includes_toLowerCase|].
  destruct subj; [|done]. by apply (includes_toLowerCase "").
Qed.

Lemma bind_status session v :
  Route.status (Route.bind domainHashOf session v) = 200
  \/ Route.status (Route.bind domainHashOf session v) = 400.
Proof.
  unfold Route.bind. repeat (destruct (_ : bool); simpl; auto).
Qed.

End BindFacts.

(** X4.  For a verification attempt against an existing session, the
    handler answers with status 200 exactly when the verifier answers [ok],
    the lower-cased signing domain it reports is the domain of the session,
    the lower-cased Subject contains the lower-cased nonce and [subject] is
    among the lower-cased signed headers it reports; every other answer has
    status 400, and the store is the one the session lookup left.  On the
    headers-only path, status 200 means that a signature was verified: the
    first DKIM-Signature block was parsed, a key was found for it, the RSA
    check of its [b=] value returned true, its [d=] is the domain of the
    session and its [h=] names the Subject.  On the raw-message path [ok]
    is what the library path answers, which needs no result with status
    [pass]. *)
Theorem X4_POST_success_iff
        (resolveTxt : string -> result (list (list string)))
        (rsaVerify : string -> string -> string -> result bool)
        (importDkimVerify :
           result (option (string -> result (list Dkim.LibResult))))
        (domainHashOf : string -> string)
        (now nowLoad : Z) (sessionId headersText rawEmail : string)
        (st st' : SessionStore.Store) (session : SessionStore.Session)
        (Hsession : SessionStore.getSession now nowLoad sessionId st
                    = (Some session, st'))
        (Hid : JS.truthy sessionId = true)
        (Hinput : JS.truthy rawEmail = true \/ JS.truthy headersText = true) :
  let v := Spec.attempt resolveTxt rsaVerify importDkimVerify
                        headersText rawEmail in
  let out := Route.POST resolveTxt rsaVerify importDkimVerify domainHashOf
                        now nowLoad sessionId headersText rawEmail st in
  (Route.status out.1 = 200
   <-> Dkim.ok v = true
       /\ (exists d, Dkim.domain v = Some d
                     /\ JS.toLowerCase d = SessionStore.domain session)
       /\ JS.includes (JS.toLowerCase (JS.optOr (Dkim.subject v) ""))
                      (JS.toLowerCase (SessionStore.nonce session)) = true
       /\ "subject" ∈ (JS.toLowerCase
                         <$> default [] (Dkim.signedHeaders v)))
  /\ (Route.status out.1 = 200 \/ Route.status out.1 = 400)
  /\ out.2 = st'
  /\ (JS.truthy rawEmail = false -> Route.status out.1 = 200 ->
      exists sig pubKey,
        Dkim.parseDkimSignature
          (Dkim.rawDkim (Dkim.parseHeaders (JS.trim headersText))) = Some sig
        /\ Dkim.fetchDkimPublicKey resolveTxt (Dkim.sig_s sig)
                                   (Dkim.sig_d sig) = Some pubKey
        /\ rsaVerify pubKey
             (Dkim.signedData (Dkim.parseHeaders (JS.trim headersText)) sig)
             (Dkim.sig_b sig) = Ok true
        /\ JS.toLowerCase (Dkim.sig_d sig) = SessionStore.domain session
        /\ "subject" ∈ (JS.toLowerCase <$> Dkim.sig_h sig)).
Proof.
  intros v out. subst out.
  rewrite (POST_existing_session _ _ _ _ _ _ _ _ _ _ _ _ Hsession Hid Hinput).
  fold v. cbn [fst snd].
  split; [|split; [apply bind_status|split; [done|]]].
  - split.
    + intros H200. apply bind_status_200 in H200
        as (d & Hok & Hd & _ & Hdom & Hinc & Hs & _).
      repeat split; try done. by exists d.
    + intros (Hok & (d & Hd & Hdom) & Hinc & Hs).
      destruct (attempt_ok_domain resolveTxt rsaVerify importDkimVerify
                  headersText rawEmail Hok) as (d' & Hd' & Ht).
      fold v in Hd'. rewrite Hd in Hd'. injection Hd' as <-.
      by rewrite (bind_accepts domainHashOf session v d).
  - intros Hraw H200. apply bind_status_200 in H200
      as (d & Hok & Hd & _ & Hdom & _ & Hs & _).
    subst v. revert Hok Hd Hs. unfold Spec.attempt. rewrite Hraw.
    intros Hok.
    destruct (verifyHeadersOnly_verified _ _ _ Hok)
      as (sig & pubKey & Hsig & Hkey & Hrsa & ->).
    cbn [Dkim.domain Dkim.signedHeaders default]. intros [= <-] Hs.
    by exists sig, pubKey.
Qed.

Lemma X4_POST_success_iff_witness :
  SessionStore.getSession 2000 2000 "sid-1" Examples.theStore
  = (Some Examples.theSession, Examples.theStore)
  /\ Route.status
       (Route.POST Examples.anyKey Examples.accept Examples.noLibrary
                   Examples.hashOf 2000 2000 "sid-1" Examples.signedMsg ""
                   Examples.theStore).1 = 200.
Proof.
  assert (SessionStore.getSession 2000 2000 "sid-1" Examples.theStore
          = (Some Examples.theSession, Examples.theStore)) as Hs
      by (vm_compute; reflexivity).
  split; [exact Hs|].
  apply (proj1 (X4_POST_success_iff
           Examples.anyKey Examples.accept Examples.noLibrary Examples.hashOf
           2000 2000 "sid-1" Examples.signedMsg ""
           Examples.theStore Examples.theStore Examples.theSession
           Hs eq_refl (or_intror eq_refl))).
  split; [vm_compute; reflexivity|].
  split; [exists "example.com"; split; vm_compute; reflexivity|].
  split; [vm_compute; reflexivity|].
  vm_compute. right. left.
Defined.

(** X5.  A verification attempt does not use the session up: when the
    lookup of the attempt found a session, a second attempt with the same
    message on the store the first one left, made while the session has not
    expired, gets the same answer, whatever the outcome was. *)
Theorem X5_session_not_consumed
        (resolveTxt : string -> result (list (list string)))
        (rsaVerify : string -> string -> string -> result bool)
        (importDkimVerify :
           result (option (string -> result (list Dkim.LibResult))))
        (domainHashOf : string -> string)
        (now nowLoad now2 nowLoad2 : Z)
        (sessionId headersText rawEmail : string)
        (st st' : SessionStore.Store) (session : SessionStore.Session)
        (Hsession : SessionStore.getSession now nowLoad sessionId st
                    = (Some session, st'))
        (Hfresh : now2 - SessionStore.createdAt session
                  < SessionStore.TTL_MS) :
  let out := Route.POST resolveTxt rsaVerify importDkimVerify domainHashOf
                        now nowLoad sessionId headersText rawEmail st in
  (SessionStore.getSession now2 nowLoad2 sessionId st').1 = Some session
  /\ (Route.POST resolveTxt rsaVerify importDkimVerify domainHashOf
                 now2 nowLoad2 sessionId headersText rawEmail out.2).1
     = out.1.
Proof.
  assert ((SessionStore.getSession now2 nowLoad2 sessionId st').1
          = Some session) as Hagain.
  { apply getSession_found; [by eapply getSession_kept|].
    by apply fresh_spec. }
  intros out. subst out. split; [done|]. unfold Route.POST.
  destruct (JS.truthy sessionId); [|done]. cbn [negb].
  destruct (JS.truthy rawEmail).
  - rewrite Hsession. cbn [snd fst].
    destruct (SessionStore.getSession now2 nowLoad2 sessionId st')
      as [r2 st2]. cbn [fst] in Hagain. by subst r2.
  - destruct (JS.truthy headersText); [|done]. cbn [negb].
    rewrite Hsession. cbn [snd fst].
    destruct (SessionStore.getSession now2 nowLoad2 sessionId st')
      as [r2 st2]. cbn [fst] in Hagain. by subst r2.
Qed.

Lemma X5_session_not_consumed_witness :
  (Route.POST Examples.anyKey Examples.accept Examples.noLibrary
              Examples.hashOf 5000 5000 "sid-1" Examples.signedMsg ""
              (Route.POST Examples.anyKey Examples.accept Examples.noLibrary
                          Examples.hashOf 2000 2000 "sid-1"
                          Examples.signedMsg "" Examples.theStore).2).1
  = (Route.POST Examples.anyKey Examples.accept Examples.noLibrary
                Examples.hashOf 2000 2000 "sid-1" Examples.signedMsg ""
                Examples.theStore).1.
Proof.
  refine (proj2 (X5_session_not_consumed
            Examples.anyKey Examples.accept Examples.noLibrary Examples.hashOf
            2000 2000 5000 5000 "sid-1" Examples.signedMsg ""
            Examples.theStore Examples.theStore Examples.theSession _ _)).
  - vm_compute; reflexivity.
  - vm_compute; reflexivity.
Defined.

(** X6.  The nonce is matched without regard to letter case: when the
    signature verified for the domain of the session and covers the Subject,
    a Subject that contains the nonce of the session in any letter case
    gives status 200. *)
Theorem X6_nonce_any_case
        (resolveTxt : string -> result (list (list string)))
        (rsaVerify : string -> string -> string -> result bool)
        (importDkimVerify :
           result (option (string -> result (list Dkim.LibResult))))
        (domainHashOf : string -> string)
        (now nowLoad : Z) (sessionId headersText rawEmail : string)
        (st st' : SessionStore.Store) (session : SessionStore.Session)
        (d subj written : string)
        (Hsession : SessionStore.getSession now nowLoad sessionId st
                    = (Some session, st'))
        (Hid : JS.truthy sessionId = true)
        (Hinput : JS.truthy rawEmail = true \/ JS.truthy headersText = true)
        (Hok : Dkim.ok (Spec.attempt resolveTxt rsaVerify importDkimVerify
                                     headersText rawEmail) = true)
        (Hd : Dkim.domain (Spec.attempt resolveTxt rsaVerify importDkimVerify
                                        headersText rawEmail) = Some d)
        (Hdomain : JS.toLowerCase d = SessionStore.domain session)
        (Hsubj : Dkim.subject (Spec.attempt resolveTxt rsaVerify
                                            importDkimVerify
                                            headersText rawEmail)
                 = Some subj)
        (Hcase : JS.toLowerCase written
                 = JS.toLowerCase (SessionStore.nonce session))
        (Hnonce : JS.includes subj written = true)
        (Hsigned :
           "subject" ∈ (JS.toLowerCase
                          <$> default []
                                (Dkim.signedHeaders
                                   (Spec.attempt resolveTxt rsaVerify
                                                 importDkimVerify
                                                 headersText rawEmail)))) :
  Route.POST resolveTxt rsaVerify importDkimVerify domainHashOf
             now nowLoad sessionId headersText rawEmail st
  = ({| Route.status := 200;
        Route.body := Route.Bound (JS.toLowerCase d)
                                  (domainHashOf (JS.toLowerCase d)) |}, st').
Proof.
  rewrite (POST_existing_session _ _ _ _ _ _ _ _ _ _ _ _ Hsession Hid Hinput).
  f_equal.
  destruct (attempt_ok_domain resolveTxt rsaVerify importDkimVerify
              headersText rawEmail Hok) as (d' & Hd' & Ht).
  rewrite Hd in Hd'. injection Hd' as <-.
  apply bind_accepts; try done.
  rewrite <- Hcase. by apply (includes_subject _ subj).
Qed.

Lemma X6_nonce_any_case_witness :
  JS.includes "VERIFY 7F3A9C21" "7F3A9C21" = true
  /\ Route.POST Examples.anyKey Examples.accept Examples.noLibrary
                Examples.hashOf 2000 2000 "sid-1" Examples.capitalNonce ""
                Examples.theStore
     = ({| Route.status := 200;
           Route.body := Route.Bound "example.com" "0xexample.com" |},
        Examples.theStore).
Proof.
  split; [vm_compute; reflexivity|].
  refine (X6_nonce_any_case
            Examples.anyKey Examples.accept Examples.noLibrary Examples.hashOf
            2000 2000 "sid-1" Examples.capitalNonce ""
            Examples.theStore Examples.theStore Examples.theSession
            "Example.COM" "VERIFY 7F3A9C21" "7F3A9C21"
            _ eq_refl (or_intror eq_refl) _ _ _ _ _ _ _);
    try (vm_compute; reflexivity).
  vm_compute. right. left.
Defined.

(** X7.  A session that [createSession] made is what [getSession] returns
    for its id until 30 minutes have passed: it carries the lower-cased
    domain, the nonce and the creation time, the other sessions of the map
    are as before, and the keys of the map remain the ids of its
    sessions. *)
Theorem X7_session_round_trip
        (newId newNonce dom : string) (t now nowLoad : Z)
        (st : SessionStore.Store)
        (Httl : now - t < 30 * 60 * 1000) :
  let created := SessionStore.createSession newId newNonce t dom st in
  (SessionStore.getSession now nowLoad newId created.2).1 = Some created.1
  /\ created.1 = {| SessionStore.id := newId;
                    SessionStore.domain := JS.toLowerCase dom;
                    SessionStore.nonce := newNonce;
                    SessionStore.createdAt := t |}
  /\ (forall other, other <> newId ->
        SessionStore.SESSIONS created.2 !! other
        = SessionStore.SESSIONS st !! other)
  /\ (Spec.keyedById st -> Spec.keyedById created.2).
Proof.
  intros created. subst created. cbn [fst snd].
  unfold SessionStore.createSession, SessionStore.persistToDisk.
  cbn [fst snd SessionStore.SESSIONS]. repeat split.
  - apply getSession_found; cbn [SessionStore.SESSIONS].
    + by rewrite lookup_insert_eq.
    + apply fresh_spec. cbn [SessionStore.createdAt].
      unfold SessionStore.TTL_MS. lia.
  - intros other Hne. by rewrite lookup_insert_ne.
  - intros Hkeys k s. cbn [SessionStore.SESSIONS].
    destruct (decide (newId = k)) as [<-|Hne].
    + rewrite lookup_insert_eq. by intros [= <-].
    + rewrite lookup_insert_ne by done. apply Hkeys.
Qed.

Lemma X7_session_round_trip_witness :
  (SessionStore.getSession 1801000 1801000 "sid-2"
     (SessionStore.createSession "sid-2" "00ff00ff00ff00ff" 2000
                                 "Example.ORG" Examples.theStore).2).1
  = Some {| SessionStore.id := "sid-2";
            SessionStore.domain := "example.org";
            SessionStore.nonce := "00ff00ff00ff00ff";
            SessionStore.createdAt := 2000 |}.
Proof.
  refine (proj1 (X7_session_round_trip "sid-2" "00ff00ff00ff00ff"
                   "Example.ORG" 2000 1801000 1801000 Examples.theStore _)).
  lia.
Defined.

(** X8.  [getSession] never returns an expired session.  When the clock
    read by the fall-back to the data file is not earlier than the one read
    on entry and the keys of the map are the ids of its sessions, the
    session returned has the id asked for and is younger than 30 minutes,
    and so is every session of the map left behind, whose keys are still
    the ids. *)
Theorem X8_getSession_fresh
        (now nowLoad : Z) (sid : string)
        (st st' : SessionStore.Store) (s : SessionStore.Session)
        (Hclock : now <= nowLoad)
        (Hkeys : Spec.keyedById st)
        (Hget : SessionStore.getSession now nowLoad sid st = (Some s, st')) :
  SessionStore.id s = sid
  /\ now - SessionStore.createdAt s < 30 * 60 * 1000
  /\ Spec.keyedById st'
  /\ (forall k x, SessionStore.SESSIONS st' !! k = Some x ->
                  now - SessionStore.createdAt x < 30 * 60 * 1000).
Proof.
  assert (forall k x, SessionStore.SESSIONS st' !! k = Some x ->
            SessionStore.id x = k
            /\ now - SessionStore.createdAt x < 30 * 60 * 1000) as Hall.
  { intros k x Hx.
    replace st' with (SessionStore.getSession now nowLoad sid st).2 in Hx
      by by rewrite Hget.
    apply getSession_origin in Hx as [[Hx Hf]|(arr & _ & _ & Hf & Hid)].
    - split; [by apply Hkeys|]. by apply fresh_spec in Hf.
    - split; [done|]. apply fresh_spec in Hf.
      unfold SessionStore.TTL_MS in Hf. lia. }
  apply getSession_kept in Hget.
  destruct (Hall _ _ Hget) as [Hid Hf]. repeat split; try done.
  - intros k x Hx. exact (proj1 (Hall _ _ Hx)).
  - intros k x Hx. exact (proj2 (Hall _ _ Hx)).
Qed.

Lemma X8_getSession_fresh_witness :
  SessionStore.id Examples.theSession = "sid-1"
  /\ 2000 - SessionStore.createdAt Examples.theSession < 30 * 60 * 1000.
Proof.
  destruct (X8_getSession_fresh 2000 2000 "sid-1" Examples.theStore
              Examples.theStore Examples.theSession) as (Hid & Hf & _).
  - lia.
  - intros k s. unfold Examples.theStore. cbn [SessionStore.SESSIONS].
    intros [<- <-]%lookup_singleton_Some. reflexivity.
  - vm_compute; reflexivity.
  - split; [exact Hid|exact Hf].
Defined.

(** X9.  The two routes compose: [POST /api/session] with a domain that is
    not blank answers with the id, the nonce and the trimmed, lower-cased
    domain of a new session; a verification attempt for that id within 30
    minutes, with a verified signature of that domain (case apart) that
    covers the Subject, and a Subject that contains the nonce, answers with
    status 200 and that domain.  A blank domain is answered with status 400
    and leaves the store as it was. *)
Theorem X9_session_then_verify
        (resolveTxt : string -> result (list (list string)))
        (rsaVerify : string -> string -> string -> result bool)
        (importDkimVerify :
           result (option (string -> result (list Dkim.LibResult))))
        (domainHashOf : string -> string)
        (newId newNonce bodyDomain : string) (t now nowLoad : Z)
        (headersText rawEmail d subj : string)
        (st : SessionStore.Store)
        (Hid : JS.truthy newId = true)
        (Hinput : JS.truthy rawEmail = true \/ JS.truthy headersText = true)
        (Httl : now - t < 30 * 60 * 1000)
        (Hok : Dkim.ok (Spec.attempt resolveTxt rsaVerify importDkimVerify
                                     headersText rawEmail) = true)
        (Hd : Dkim.domain (Spec.attempt resolveTxt rsaVerify importDkimVerify
                                        headersText rawEmail) = Some d)
        (Hsame : JS.toLowerCase d = JS.toLowerCase (JS.trim bodyDomain))
        (Hsubj : Dkim.subject (Spec.attempt resolveTxt rsaVerify
                                            importDkimVerify
                                            headersText rawEmail)
                 = Some subj)
        (Hnonce : JS.includes subj newNonce = true)
        (Hsigned :
           "subject" ∈ (JS.toLowerCase
                          <$> default []
                                (Dkim.signedHeaders
                                   (Spec.attempt resolveTxt rsaVerify
                                                 importDkimVerify
                                                 headersText rawEmail)))) :
  let created := Route.sessionPOST newId newNonce t bodyDomain st in
  created.1
  = (200, Route.SessionCreated newId newNonce
            (JS.toLowerCase (JS.trim bodyDomain)))
  /\ (Route.POST resolveTxt rsaVerify importDkimVerify domainHashOf
                 now nowLoad newId headersText rawEmail created.2).1
     = {| Route.status := 200;
          Route.body := Route.Bound (JS.toLowerCase d)
                                    (domainHashOf (JS.toLowerCase d)) |}
  /\ (forall blank st0,
        JS.trim blank = "" ->
        Route.sessionPOST newId newNonce t blank st0
        = ((400, Route.SessionError "domain required"), st0)).
Proof.
  intros created. subst created.
  destruct (attempt_ok_domain resolveTxt rsaVerify importDkimVerify
              headersText rawEmail Hok) as (d' & Hd' & Ht).
  rewrite Hd in Hd'. injection Hd' as <-.
  assert (JS.truthy (JS.trim bodyDomain) = true) as Hdom.
  { destruct (JS.trim bodyDomain) eqn:E; [|done]. by destruct d. }
  split; [|split].
  - unfold Route.sessionPOST. by rewrite Hdom.
  - unfold Route.sessionPOST. rewrite Hdom. cbn [negb].
    unfold SessionStore.createSession. cbn [fst snd].
    set (session := SessionStore.mkSession _ _ _ _).
    set (st1 := SessionStore.persistToDisk _).
    assert ((SessionStore.getSession now nowLoad newId st1).1
            = Some session) as Hget.
    { apply getSession_found.
      - subst st1. cbn [SessionStore.persistToDisk SessionStore.SESSIONS].
        by rewrite lookup_insert_eq.
      - apply fresh_spec. unfold SessionStore.TTL_MS. subst session.
        cbn [SessionStore.createdAt]. lia. }
    destruct (SessionStore.getSession now nowLoad newId st1)
      as [r st2] eqn:Eg. cbn [fst] in Hget. subst r.
    rewrite (POST_existing_session _ _ _ _ _ _ _ _ _ _ _ _ Eg Hid Hinput).
    cbn [fst]. apply bind_accepts; try done.
    by apply (includes_subject _ subj).
  - intros blank st0 Hb. unfold Route.sessionPOST. by rewrite Hb.
Qed.

Lemma X9_session_then_verify_witness :
  (Route.POST Examples.anyKey Examples.accept Examples.noLibrary
              Examples.hashOf 2000 2000 "sid-1" Examples.signedMsg ""
              (Route.sessionPOST "sid-1" "7f3a9c21" 1000 " Example.com "
                                 Examples.emptyStore).2).1
  = {| Route.status := 200;
       Route.body := Route.Bound (JS.toLowerCase "example.com")
                                 (Examples.hashOf
                                    (JS.toLowerCase "example.com")) |}.
Proof.
  refine (proj1 (proj2 (X9_session_then_verify
            Examples.anyKey Examples.accept Examples.noLibrary Examples.hashOf
            "sid-1" "7f3a9c21" " Example.com " 1000 2000 2000
            Examples.signedMsg "" "example.com" "Verify 7f3a9c21"
            Examples.emptyStore eq_refl (or_intror eq_refl)
            _ _ _ _ _ _ _)));
    try (vm_compute; reflexivity).
  vm_compute. right. left.
Defined.

(** X10.  The data file bridges workers.  Once the write that
    [createSession] starts has completed, a worker whose own map has no
    session under the new id finds the session through the fall-back of
    [getSession] to the data file, as long as it is younger than 30 minutes
    when the file is read. *)
Theorem X10_session_found_from_disk
        (newId newNonce dom : string) (t now nowLoad : Z)
        (st : SessionStore.Store) (own : gmap string SessionStore.Session)
        (Hkeys : Spec.keyedById st)
        (Hown : own !! newId = None)
        (Httl : nowLoad - t < 30 * 60 * 1000) :
  let created := SessionStore.createSession newId newNonce t dom st in
  (SessionStore.getSession now nowLoad newId
     {| SessionStore.SESSIONS := own;
        SessionStore.disk := SessionStore.disk created.2 |}).1
  = Some created.1.
Proof.
  intros created. subst created.
  unfold SessionStore.createSession, SessionStore.persistToDisk.
  cbn [fst snd SessionStore.SESSIONS SessionStore.disk].
  set (s := SessionStore.mkSession _ _ _ _).
  set (M := <[newId := s]> (SessionStore.SESSIONS st)).
  unfold SessionStore.getSession. cbn [SessionStore.SESSIONS].
  assert (filter (fun ks : string * SessionStore.Session =>
                    SessionStore.fresh now ks.2 = true) own !! newId
          = None) as ->.
  { apply map_lookup_filter_None. by left. }
  unfold SessionStore.loadFromDisk.
  cbn [fst SessionStore.SESSIONS SessionStore.disk].
  assert (SessionStore.fresh nowLoad s = true) as Hf.
  { apply fresh_spec. unfold SessionStore.TTL_MS. subst s.
    cbn [SessionStore.createdAt]. lia. }
  assert (s ∈ (map_to_list M).*2) as Hin.
  { apply list_elem_of_fmap. exists (newId, s). split; [done|].
    apply elem_of_map_to_list. subst M. by rewrite lookup_insert_eq. }
  destruct (loadFromDisk_loads nowLoad ((map_to_list M).*2)
              (filter (fun ks : string * SessionStore.Session =>
                         SessionStore.fresh now ks.2 = true) own) newId)
    as [x Hx]; [right; by exists s|].
  rewrite Hx. f_equal.
  apply loadFromDisk_lookup in Hx as [Hx|(Hxin & _ & Hxid)].
  - apply map_lookup_filter_Some in Hx as [Hx _]. congruence.
  - apply list_elem_of_fmap in Hxin as ([k y] & -> & Hy).
    apply elem_of_map_to_list in Hy. cbn [snd] in *. subst M.
    destruct (decide (newId = k)) as [<-|Hne].
    + rewrite lookup_insert_eq in Hy. by injection Hy.
    + rewrite lookup_insert_ne in Hy by done.
      apply Hkeys in Hy. congruence.
Qed.

Lemma X10_session_found_from_disk_witness :
  (SessionStore.getSession 3000 3000 "sid-2"
     {| SessionStore.SESSIONS := ∅;
        SessionStore.disk :=
          SessionStore.disk
            (SessionStore.createSession "sid-2" "00ff00ff00ff00ff" 2000
                                        "Example.ORG" Examples.theStore).2
     |}).1
  = Some (SessionStore.createSession "sid-2" "00ff00ff00ff00ff" 2000
                                     "Example.ORG" Examples.theStore).1.
Proof.
  refine (X10_session_found_from_disk "sid-2" "00ff00ff00ff00ff"
            "Example.ORG" 2000 3000 3000 Examples.theStore ∅ _ _ _).
  - intros k s. unfold Examples.theStore. cbn [SessionStore.SESSIONS].
    intros [<- <-]%lookup_singleton_Some. reflexivity.
  - apply lookup_empty.
  - lia.
Defined.

(* ===================================================================== *)
(** * Further properties: header selection *)
(* ===================================================================== *)

Section SelectionFacts.

Context {H : Type} (nameOf : H -> string).

Lemma Selects_length (hdrs : list H) used ns idxs :
  Spec.Selects nameOf hdrs used ns idxs -> (length idxs <= length ns)%nat.
Proof. induction 1; simpl; lia. Qed.

Lemma Selects_named (hdrs : list H) used ns idxs i :
  Spec.Selects nameOf hdrs used ns idxs -> i ∈ idxs ->
  exists n, n ∈ ns /\ Spec.named nameOf hdrs n i.
Proof.
  induction 1 as [|used n ns j idxs Hn _ _ _ IH|used n ns idxs _ _ IH].
  - intros Hi. by apply elem_of_nil in Hi.
  - intros [->|Hi]%elem_of_cons.
    + exists n. split; [left|done].
    + destruct (IH Hi) as (m & Hm & Hnamed). exists m. split; [by right|done].
  - intros Hi. destruct (IH Hi) as (m & Hm & Hnamed).
    exists m. split; [by right|done].
Qed.

(** Distinct positions of a list are no more than its length. *)
Lemma NoDup_positions_length (hdrs : list H) (idxs : list nat) :
  NoDup idxs -> (forall i, i ∈ idxs -> is_Some (hdrs !! i)) ->
  (length idxs <= length hdrs)%nat.
Proof.
  intros Hnd Hin.
  transitivity (length (seq 0 (length hdrs))); [|by rewrite length_seq].
  apply submseteq_length, NoDup_submseteq; [done|].
  intros i Hi. apply elem_of_seq. apply Hin, lookup_lt_is_Some in Hi. lia.
Qed.

End SelectionFacts.

Section Agreement.

Lemma named_toDkim hl n i :
  Spec.named Dkim.name (Spec.toDkim <$> hl) n i
  <-> Spec.named EmailParser.name hl n i.
Proof.
  unfold Spec.named. rewrite list_lookup_fmap. split.
  - intros (h & Hh & Hn). destruct (hl !! i) as [x|]; [|done].
    injection Hh as <-. by exists x.
  - intros (h & -> & Hn). by exists (Spec.toDkim h).
Qed.

Lemma Selects_toDkim hl used ns idxs :
  Spec.Selects EmailParser.name hl used ns idxs ->
  Spec.Selects Dkim.name (Spec.toDkim <$> hl) used ns idxs.
Proof.
  induction 1 as [|used n ns i idxs Hn Hu Hmax _ IH|used n ns idxs Hall _ IH].
  - constructor.
  - apply Spec.Selects_pick; [by apply named_toDkim|done| |done].
    intros j Hj. apply Hmax. by apply named_toDkim.
  - apply Spec.Selects_skip; [|done].
    intros j Hj. apply Hall. by apply named_toDkim.
Qed.

Lemma At_toDkim hl idxs sel sel' :
  Spec.At hl idxs sel -> Spec.At (Spec.toDkim <$> hl) idxs sel' ->
  Spec.toDkim <$> sel = sel'.
Proof.
  unfold Spec.At. intros Hat. revert sel'.
  induction Hat as [|i h idxs sel Hi _ IH]; intros sel' Hat'.
  - by inversion Hat'.
  - inversion Hat' as [|i' h' idxs' sel'' Hi' Hrest]; subst.
    rewrite list_lookup_fmap, Hi in Hi'. injection Hi' as <-.
    simpl. f_equal. by apply IH.
Qed.

End Agreement.

(** X11.  The two implementations of the header selection agree: on a header
    list whose [index] fields are the positions (as [parseHeaders] of the
    CLI builds it), the loop of [assembleCanonicalizedHeaderBlock] selects
    the same headers, in the same order, as [selectSignedHeaders] of the
    verifier selects from the names and values of that list. *)
Theorem X11_selections_agree
        (hl : list EmailParser.Header) (hList : list string)
        (Hidx : Spec.indexed hl) :
  Spec.toDkim <$> EmailParser.selectedHeaders hl hList
  = Dkim.selectSignedHeaders (Spec.toDkim <$> hl) hList.
Proof.
  destruct (selectedHeaders_selects hl hList Hidx) as (idxs & Hs & _ & Hat).
  destruct (selectSignedHeaders_selects (Spec.toDkim <$> hl) hList)
    as (idxs' & Hs' & _ & Hat').
  apply Selects_toDkim in Hs.
  rewrite (Selects_det _ _ _ _ _ _ Hs' Hs) in Hat'.
  by eapply At_toDkim.
Qed.

Lemma X11_selections_agree_witness :
  Spec.toDkim <$> EmailParser.selectedHeaders Examples.abaParsed Examples.aab
  = Dkim.selectSignedHeaders (Spec.toDkim <$> Examples.abaParsed)
                             Examples.aab.
Proof.
  apply (X11_selections_agree Examples.abaParsed Examples.aab).
  apply parseHeaders_indexed.
Defined.

(** X12.  [selectSignedHeaders] selects headers of the message only, each
    under a name of the signed-header list (letter case apart), and no more
    of them than the list has names or the message has headers. *)
Theorem X12_selection_bounds
        (hdrs : list Dkim.Header) (hList : list string) :
  let sel := Dkim.selectSignedHeaders hdrs hList in
  (length sel <= length hList)%nat
  /\ (length sel <= length hdrs)%nat
  /\ forall h, h ∈ sel ->
       h ∈ hdrs
       /\ exists n, n ∈ hList
                    /\ JS.toLowerCase (Dkim.name h) = JS.toLowerCase n.
Proof.
  intros sel. subst sel.
  destruct (selectSignedHeaders_selects hdrs hList)
    as (idxs & Hs & Hnd & Hat).
  rewrite <- (Forall2_length _ _ _ Hat). split; [|split].
  - by eapply Selects_length.
  - apply NoDup_positions_length; [done|]. intros i Hi.
    destruct (Selects_named _ _ _ _ _ _ Hs Hi) as (n & _ & h & Hh & _).
    by exists h.
  - intros h [k Hk]%list_elem_of_lookup_1.
    destruct (Forall2_lookup_r _ _ _ _ _ Hat Hk) as (i & Hi & Hh).
    split; [by eapply list_elem_of_lookup_2|].
    apply list_elem_of_lookup_2 in Hi.
    destruct (Selects_named _ _ _ _ _ _ Hs Hi) as (n & Hn & h' & Hh' & Hnm).
    exists n. split; [done|]. congruence.
Qed.

(* ===================================================================== *)
(** * Further properties: the end of the header section *)
(* ===================================================================== *)

Section BlankLine.

Lemma splitLines_cons c r :
  JS.splitLines (String c r)
  = if Ascii.eqb c JS.LF then "" :: JS.splitLines r
    else match r with
         | String c2 r2 =>
             if Ascii.eqb c JS.CR && Ascii.eqb c2 JS.LF
             then "" :: JS.splitLines r2
             else JS.consFirst c (JS.splitLines r)
         | EmptyString => JS.consFirst c (JS.splitLines r)
         end.
Proof. by destruct r. Qed.

Lemma consFirst_nonempty c l : JS.consFirst c l <> [].
Proof. by destruct l. Qed.

Lemma splitLines_nonempty s : JS.splitLines s <> [].
Proof.
  destruct s as [|c r]; [done|]. rewrite splitLines_cons.
  destruct (Ascii.eqb c JS.LF); [done|].
  destruct r as [|c2 r2]; [apply consFirst_nonempty|].
  destruct (_ && _); [done|apply consFirst_nonempty].
Qed.

Lemma consFirst_app c l1 l2 :
  l1 <> [] -> JS.consFirst c (l1 ++ l2) = JS.consFirst c l1 ++ l2.
Proof. by destruct l1. Qed.

(** A CRLF between two texts separates their lines. *)
Lemma splitLines_app_crlf a b :
  JS.splitLines (a +:+ JS.CRLF +:+ b) = JS.splitLines a ++ JS.splitLines b.
Proof.
  remember (String.length a) as n eqn:Hn.
  revert a Hn. induction (lt_wf n) as [n _ IH]. intros a Hn.
  destruct a as [|c r]; [reflexivity|].
  rewrite string_app_cons, !splitLines_cons.
  destruct (Ascii.eqb c JS.LF) eqn:Ec.
  { by rewrite (IH (String.length r) ltac:(subst n; simpl; lia) r eq_refl). }
  destruct r as [|c2 r2].
  - destruct (Ascii.eqb c JS.CR); reflexivity.
  - rewrite string_app_cons.
    destruct (Ascii.eqb c JS.CR && Ascii.eqb c2 JS.LF) eqn:Ecr.
    + by rewrite (IH (String.length r2) ltac:(subst n; simpl; lia)
                     r2 eq_refl).
    + rewrite <- string_app_cons.
      rewrite (IH (String.length (String c2 r2))
                  ltac:(subst n; simpl; lia) (String c2 r2) eq_refl).
      apply consFirst_app, splitLines_nonempty.
Qed.

(** The loop of [parseHeaders] stops at the first empty line. *)
Lemma parseLoop_stops lines rest st :
  Dkim.parseLoop (lines ++ "" :: rest) st = Dkim.parseLoop lines st.
Proof.
  revert st. induction lines as [|line lines IH]; intros st; [done|].
  cbn [app Dkim.parseLoop].
  destruct (JS.headIs JS.isWsp line); [apply IH|].
  destruct (String.eqb (JS.trim line) ""); [done|].
  destruct (_ =? -1); apply IH.
Qed.

End BlankLine.

(** X13.  [parseHeaders] reads the header section only: what follows the
    first empty line (a message body, say) changes neither the header list
    nor the DKIM-Signature block it returns. *)
Theorem X13_parseHeaders_stops_at_blank_line (head body : string) :
  Dkim.parseHeaders (head +:+ JS.CRLF +:+ JS.CRLF +:+ body)
  = Dkim.parseHeaders head.
Proof.
  unfold Dkim.parseHeaders, Dkim.allRawBlocks.
  rewrite splitLines_app_crlf.
  replace (JS.splitLines (JS.CRLF +:+ body))
    with ("" :: JS.splitLines body) by reflexivity.
  by rewrite parseLoop_stops.
Qed.

(* ===================================================================== *)
(** * Further properties: the public key *)
(* ===================================================================== *)

Section KeyFacts.

Lemma string_app_nil_r s : s +:+ "" = s.
Proof.
  induction s as [|x s IH]; [done|]. by rewrite string_app_cons, IH.
Qed.

Lemma string_app_length s t :
  String.length (s +:+ t) = (String.length s + String.length t)%nat.
Proof.
  induction s as [|x s IH]; [done|]. rewrite string_app_cons. simpl.
  by rewrite IH.
Qed.

Lemma allChars_app p s t :
  Spec.allChars p (s +:+ t) = Spec.allChars p s && Spec.allChars p t.
Proof.
  induction s as [|x s IH]; [done|]. rewrite string_app_cons. simpl.
  by rewrite IH, andb_assoc.
Qed.

Lemma allChars_impl (p q : ascii -> bool) s :
  (forall x, p x = true -> q x = true) ->
  Spec.allChars p s = true -> Spec.allChars q s = true.
Proof.
  intros Hpq. induction s as [|x s IH]; [done|]. simpl.
  intros [Hx Hs]%andb_true_iff. by rewrite (Hpq _ Hx), IH.
Qed.

Lemma join_empty_cons s (l : list string) :
  JS.join "" (s :: l) = s +:+ JS.join "" l.
Proof. destruct l; [by rewrite string_app_nil_r|done]. Qed.

(** The pieces of [/.{1,64}/g] on a text without line terminators: they
    are the text cut into lines of at most 64 characters. *)
Lemma chunksGo_lines s :
  forall acc n,
    n = String.length acc -> (n <= 64)%nat ->
    Spec.allChars (fun x => negb (JS.isLineTerminator x)) s = true ->
    JS.join "" (Dkim.chunksGo acc n s) = acc +:+ s
    /\ Forall (fun l => (1 <= String.length l <= 64)%nat)
              (Dkim.chunksGo acc n s).
Proof.
  induction s as [|x r IH]; intros acc n Hn Hle Hs.
  - cbn [Dkim.chunksGo]. rewrite string_app_nil_r.
    destruct acc as [|y acc']; [done|]. cbn [JS.truthy]. split; [done|].
    constructor; [|done]. subst n. simpl in *. lia.
  - cbn [Spec.allChars] in Hs. apply andb_true_iff in Hs as [Hx Hr].
    apply negb_true_iff in Hx. cbn [Dkim.chunksGo]. rewrite Hx.
    destruct (n =? 64)%nat eqn:E64.
    + apply Nat.eqb_eq in E64.
      destruct (IH (String x "") 1%nat eq_refl ltac:(lia) Hr) as [Hj Hf].
      rewrite join_empty_cons, Hj. split; [done|].
      constructor; [lia|done].
    + apply Nat.eqb_neq in E64.
      destruct (IH (acc +:+ String x "") (S n)) as [Hj Hf]; [..|done|].
      * rewrite string_app_length. simpl. lia.
      * lia.
      * split; [|done]. by rewrite Hj, string_app_assoc.
Qed.

Lemma takeUntil_dropUntil p s :
  JS.takeUntil p s +:+ JS.dropUntil p s = s.
Proof.
  induction s as [|x s IH]; [done|]. simpl.
  destruct (p x); [done|]. by rewrite string_app_cons, IH.
Qed.

Lemma takeUntil_allChars p s :
  Spec.allChars (fun x => negb (p x)) (JS.takeUntil p s) = true.
Proof.
  induction s as [|x s IH]; [done|]. simpl.
  destruct (p x) eqn:E; [done|]. simpl. by rewrite E, IH.
Qed.

Lemma dropUntil_head p s :
  JS.headIs (fun x => negb (p x)) (JS.dropUntil p s) = false.
Proof.
  induction s as [|x s IH]; [done|]. simpl.
  destruct (p x) eqn:E; [|done]. simpl. by rewrite E.
Qed.

(** What [/\bp=([^;\s]+)/] captures. *)
Lemma matchP_Some s :
  forall prevWord p,
    Dkim.matchP prevWord s = Some p ->
    exists pre post,
      s = pre +:+ "p=" +:+ p +:+ post
      /\ p <> ""
      /\ Spec.allChars (fun x => negb (Dkim.endsKey x)) p = true
      /\ JS.headIs (fun x => negb (Dkim.endsKey x)) post = false.
Proof.
  induction s as [|x r IH]; intros prevWord p; [done|].
  cbn [Dkim.matchP].
  destruct (negb prevWord && Ascii.eqb x "p" && _) eqn:E.
  - apply andb_true_iff in E as [[_ Hx]%andb_true_iff Hr].
    apply Ascii.eqb_eq in Hx as ->.
    destruct r as [|e v]; [done|].
    apply andb_true_iff in Hr as [He Hv]. apply Ascii.eqb_eq in He as ->.
    cbn [JS.skipn]. intros [= <-].
    exists "", (JS.dropUntil Dkim.endsKey v). repeat split.
    + change ("" +:+ "p=" +:+ ?t) with (String "p" (String "=" t)).
      by rewrite takeUntil_dropUntil.
    + destruct v as [|y v]; [done|]. cbn [JS.headIs] in Hv.
      apply negb_true_iff in Hv. cbn [JS.takeUntil]. by rewrite Hv.
    + apply takeUntil_allChars.
    + apply dropUntil_head.
  - intros (pre & post & -> & Hp)%IH.
    exists (String x pre), post. by rewrite string_app_cons.
Qed.

End KeyFacts.

(** X14.  [wrapPem] on key material without line terminators: between the
    BEGIN and END lines of the PEM stand lines of 1 to 64 characters that,
    put together, are the key material, unchanged. *)
Theorem X14_wrapPem_lines
        (key : string)
        (Hkey : Spec.allChars (fun x => negb (JS.isLineTerminator x)) key
                = true) :
  exists lines,
    Dkim.wrapPem key
    = "-----BEGIN PUBLIC KEY-----" +:+ Dkim.NL +:+ JS.join Dkim.NL lines
        +:+ Dkim.NL +:+ "-----END PUBLIC KEY-----" +:+ Dkim.NL
    /\ JS.join "" lines = key
    /\ Forall (fun l => (1 <= String.length l <= 64)%nat) lines.
Proof.
  exists (Dkim.chunksGo "" 0 key). split; [done|].
  by destruct (chunksGo_lines key "" 0%nat eq_refl ltac:(lia) Hkey).
Qed.

Lemma X14_wrapPem_lines_witness :
  exists lines,
    Dkim.wrapPem "QUJD"
    = "-----BEGIN PUBLIC KEY-----" +:+ Dkim.NL +:+ JS.join Dkim.NL lines
        +:+ Dkim.NL +:+ "-----END PUBLIC KEY-----" +:+ Dkim.NL
    /\ JS.join "" lines = "QUJD"
    /\ Forall (fun l => (1 <= String.length l <= 64)%nat) lines.
Proof. apply (X14_wrapPem_lines "QUJD"). reflexivity. Defined.

(** X15.  The key [fetchDkimPublicKey] returns is the PEM of what follows a
    [p=] in the joined TXT records of the name [selector._domainkey.domain]:
    a text that is not empty, has no semicolon and no white space (hence no
    line terminator), and runs up to the next semicolon or white space or
    to the end of the records. *)
Theorem X15_fetched_key
        (resolveTxt : string -> result (list (list string)))
        (selector dom pem : string)
        (Hkey : Dkim.fetchDkimPublicKey resolveTxt selector dom = Some pem) :
  exists records pre p post,
    resolveTxt (selector +:+ "._domainkey." +:+ dom) = Ok records
    /\ Spec.flatTxt records = pre +:+ "p=" +:+ p +:+ post
    /\ p <> ""
    /\ Spec.allChars (fun x => negb (Dkim.endsKey x)) p = true
    /\ Spec.allChars (fun x => negb (JS.isLineTerminator x)) p = true
    /\ JS.headIs (fun x => negb (Dkim.endsKey x)) post = false
    /\ pem = Dkim.wrapPem p.
Proof.
  revert Hkey. unfold Dkim.fetchDkimPublicKey, Dkim.keyName.
  destruct (resolveTxt _) as [records|]; [|done].
  destruct (Dkim.matchP false _) as [p|] eqn:Ep; [|done]. intros [= <-].
  apply matchP_Some in Ep as (pre & post & Hflat & Hne & Hall & Hpost).
  exists records, pre, p, post. repeat split; try done.
  revert Hall. apply allChars_impl. intros x Hx.
  apply negb_true_iff in Hx. apply negb_true_iff.
  unfold Dkim.endsKey in Hx. apply orb_false_iff in Hx as [_ Hx].
  by destruct x as [[] [] [] [] [] [] [] []].
Qed.

Lemma X15_fetched_key_witness :
  exists records pre p post,
    Examples.anyKey ("sel1" +:+ "._domainkey." +:+ "example.com")
    = Ok records
    /\ Spec.flatTxt records = pre +:+ "p=" +:+ p +:+ post
    /\ p <> "".
Proof.
  destruct (X15_fetched_key Examples.anyKey "sel1" "example.com"
              (Dkim.wrapPem "QUJD") eq_refl)
    as (records & pre & p & post & Hr & Hflat & Hne & _).
  by exists records, pre, p, post.
Defined.

(* ===================================================================== *)
(** * Further properties: the parsed signature *)
(* ===================================================================== *)

Section SignatureFields.

Lemma allChars_trimStart p s :
  Spec.allChars p s = true -> Spec.allChars p (JS.trimStart s) = true.
Proof.
  induction s as [|x s IH]; [done|]. cbn [JS.trimStart].
  destruct (JS.isWhiteSpace x); [|done]. simpl.
  intros [_ Hs]%andb_true_iff. by apply IH.
Qed.

Lemma allChars_trimEnd p s :
  Spec.allChars p s = true -> Spec.allChars p (JS.trimEnd s) = true.
Proof.
  induction s as [|x s IH]; [done|]. cbn [JS.trimEnd].
  destruct (_ && _); [done|]. simpl.
  intros [Hx Hs]%andb_true_iff. by rewrite Hx, IH.
Qed.

Lemma allChars_trim p s :
  Spec.allChars p s = true -> Spec.allChars p (JS.trim s) = true.
Proof. intros. by apply allChars_trimEnd, allChars_trimStart. Qed.

Lemma lowerChar_colon x :
  Ascii.eqb (JS.lowerChar x) ":" = Ascii.eqb x ":".
Proof. by destruct x as [[] [] [] [] [] [] [] []]. Qed.

Lemma allChars_toLowerCase_colon s :
  Spec.allChars (fun x => negb (Ascii.eqb x ":")) (JS.toLowerCase s)
  = Spec.allChars (fun x => negb (Ascii.eqb x ":")) s.
Proof.
  induction s as [|x s IH]; [done|]. simpl. by rewrite lowerChar_colon, IH.
Qed.

(** The pieces of a split hold no separator. *)
Lemma split_pieces sep s :
  Forall (fun piece =>
            Spec.allChars (fun x => negb (Ascii.eqb x sep)) piece = true)
         (JS.split sep s).
Proof.
  induction s as [|c r IH]; [by repeat constructor|]. cbn [JS.split].
  destruct (Ascii.eqb c sep) eqn:E; [by constructor|].
  destruct (JS.split sep r) as [|w ws].
  { constructor; [|done]. simpl. by rewrite E. }
  cbn [JS.consFirst]. inversion IH as [|? ? Hw Hws]; subst.
  constructor; [|done]. simpl. by rewrite E, Hw.
Qed.

(** A replacement of the runs of a class by nothing leaves no character of
    the class. *)
Lemma replaceRuns_empty_allChars isC inRun s :
  Spec.allChars (fun x => negb (isC x)) (JS.replaceRuns isC "" inRun s)
  = true.
Proof.
  revert inRun. induction s as [|x s IH]; intros inRun; [done|].
  cbn [JS.replaceRuns]. destruct (isC x) eqn:E.
  - destruct inRun; apply IH.
  - simpl. by rewrite E, IH.
Qed.

Lemma truthy_ne s : JS.truthy s = true <-> s <> "".
Proof. by destruct s. Qed.

Lemma optOr_truthy o d : d <> "" -> JS.optOr o d <> "".
Proof.
  intros Hd. destruct o as [s|]; [|done]. unfold JS.optOr, JS.orElse.
  by destruct s.
Qed.

Lemma hNames_entries tags :
  Forall (fun n => n <> "" /\ JS.toLowerCase n = n
                   /\ Spec.allChars (fun x => negb (Ascii.eqb x ":")) n
                      = true)
         (Dkim.hNames tags).
Proof.
  unfold Dkim.hNames. apply Forall_forall. intros n Hn.
  apply list_elem_of_In, filter_In in Hn as [Hn Ht].
  apply list_elem_of_In, list_elem_of_fmap in Hn as (piece & -> & Hpiece).
  split; [by apply truthy_ne|]. split; [apply toLowerCase_idem|].
  rewrite allChars_toLowerCase_colon. apply allChars_trim.
  pose proof (split_pieces ":" (JS.optOr (tags !! "h") "")) as Hall.
  by apply (proj1 (Forall_forall _ _) Hall).
Qed.

End SignatureFields.

(** X16.  What [parseDkimSignature] returns is usable as it stands: the
    block starts with [dkim-signature:] (case apart); algorithm, domain,
    selector, canonicalization and signature value are not empty; the
    signed-header list is not empty and its names are not empty, in lower
    case and without colon; the signature value holds no white space. *)
Theorem X16_parsed_signature_fields
        (raw : string) (sig : Dkim.DkimSig)
        (Hsig : Dkim.parseDkimSignature raw = Some sig) :
  Dkim.isDkimBlock raw = true
  /\ Dkim.sig_a sig <> "" /\ Dkim.sig_d sig <> "" /\ Dkim.sig_s sig <> ""
  /\ Dkim.sig_c sig <> "" /\ Dkim.sig_b sig <> "" /\ Dkim.sig_h sig <> []
  /\ Forall (fun n => n <> "" /\ JS.toLowerCase n = n
                      /\ Spec.allChars (fun x => negb (Ascii.eqb x ":")) n
                         = true)
            (Dkim.sig_h sig)
  /\ Spec.allChars (fun x => negb (JS.isWhiteSpace x)) (Dkim.sig_b sig)
     = true.
Proof.
  apply parseDkimSignature_Some in Hsig
    as (Hblk & d & s & _ & Hd & _ & Hs & -> & Hh & Hb).
  cbn [Dkim.sig_a Dkim.sig_d Dkim.sig_s Dkim.sig_c Dkim.sig_b Dkim.sig_h].
  split; [done|]. split; [by apply optOr_truthy|].
  split; [by apply truthy_ne|]. split; [by apply truthy_ne|].
  split; [by apply optOr_truthy|]. split; [by apply truthy_ne|].
  split; [done|]. split; [apply hNames_entries|].
  apply replaceRuns_empty_allChars.
Qed.

Lemma X16_parsed_signature_fields_witness :
  exists sig,
    Dkim.parseDkimSignature Examples.noAlgorithmBlock = Some sig
    /\ Dkim.sig_a sig <> ""
    /\ Forall (fun n => n <> "" /\ JS.toLowerCase n = n
                        /\ Spec.allChars (fun x => negb (Ascii.eqb x ":")) n
                           = true)
              (Dkim.sig_h sig).
Proof.
  destruct (Dkim.parseDkimSignature Examples.noAlgorithmBlock) as [sig|]
    eqn:E; [|by vm_compute in E].
  exists sig. split; [done|].
  destruct (X16_parsed_signature_fields Examples.noAlgorithmBlock sig E)
    as (_ & Ha & _ & _ & _ & _ & _ & Hh & _).
  by split.
Defined.

(* ===================================================================== *)
(** * Further properties: the library path *)
(* ===================================================================== *)

Section LibraryFacts.

Lemma find_isPass_None results :
  Forall (fun x => Dkim.statusResult x <> Some "pass") results ->
  List.find Dkim.isPass results = None.
Proof.
  induction 1 as [|x results Hx _ IH]; [done|]. simpl.
  unfold Dkim.isPass at 1. by rewrite bool_decide_eq_false_2.
Qed.

Lemma fmap_toLowerCase_lower (l : list string) :
  Forall (fun h => JS.toLowerCase h = h) (JS.toLowerCase <$> l).
Proof.
  apply Forall_forall. intros h (x & -> & _)%list_elem_of_fmap.
  apply toLowerCase_idem.
Qed.

End LibraryFacts.

(** X17.  [verifyRawEmailWithLibrary] answers [ok] exactly when the library
    was loaded, its call returned a list of results, and the result it goes
    by (the first one with status [pass] or, when there is none, the first
    one) names a signing domain and a selector that are not empty.  The
    outcome then carries that domain and no reason, and signed-header names
    in lower case; every other outcome is a failure with a reason. *)
Theorem X17_library_verdict
        (importDkimVerify :
           result (option (string -> result (list Dkim.LibResult))))
        (rawEmail : string) :
  let v := Dkim.verifyRawEmailWithLibrary importDkimVerify rawEmail in
  (Dkim.ok v = true
   <-> exists dkimVerify results r d s,
        importDkimVerify = Ok (Some dkimVerify)
        /\ dkimVerify rawEmail = Ok results
        /\ (List.find Dkim.isPass results = Some r
            \/ (List.find Dkim.isPass results = None
                /\ head results = Some r))
        /\ Dkim.signingDomain r = Some d /\ d <> ""
        /\ Dkim.selector r = Some s /\ s <> ""
        /\ Dkim.domain v = Some d /\ Dkim.reason v = None)
  /\ (forall hs, Dkim.signedHeaders v = Some hs ->
                 Forall (fun h => JS.toLowerCase h = h) hs)
  /\ (Dkim.ok v = false -> exists why, v = Dkim.failure why).
Proof.
  intros v. subst v. unfold Dkim.verifyRawEmailWithLibrary.
  destruct importDkimVerify as [[dkimVerify|]|msg].
  2:{ split; [split; [done|]|split; [done|by eexists]].
      by intros (? & ? & ? & ? & ? & ? & _). }
  2:{ split; [split; [done|]|split; [done|by eexists]].
      by intros (? & ? & ? & ? & ? & ? & _). }
  destruct (dkimVerify rawEmail) as [results|msg] eqn:Eres.
  2:{ split; [split; [done|]|split; [done|by eexists]].
      intros (f & ? & ? & ? & ? & [= <-] & Hf & _). congruence. }
  set (choice := match List.find Dkim.isPass results with
                 | Some r => Some r
                 | None => head results
                 end).
  assert (forall r,
            choice = Some r
            <-> (List.find Dkim.isPass results = Some r
                 \/ (List.find Dkim.isPass results = None
                     /\ head results = Some r))) as Hchoice.
  { intros r. subst choice.
    destruct (List.find Dkim.isPass results) as [x|]; split.
    - intros ->. by left.
    - by intros [?|[? _]].
    - intros ?. by right.
    - by intros [?|[_ ?]]. }
  destruct choice as [pass|] eqn:Ec.
  2:{ split; [split; [done|]|split; [done|by eexists]].
      intros (f & rs & r & ? & ? & [= <-] & Hrs & Hr & _).
      rewrite Eres in Hrs. injection Hrs as <-.
      apply Hchoice in Hr. congruence. }
  destruct (JS.optFalsy (Dkim.signingDomain pass)) eqn:Ed.
  { cbn [orb]. split; [split; [done|]|split; [done|by eexists]].
    intros (f & rs & r & d & s & [= <-] & Hrs & Hr & Hd & Hdne & _).
    rewrite Eres in Hrs. injection Hrs as <-.
    apply Hchoice in Hr. injection Hr as <-. rewrite Hd in Ed.
    by destruct d. }
  destruct (JS.optFalsy (Dkim.selector pass)) eqn:Es.
  { cbn [orb]. split; [split; [done|]|split; [done|by eexists]].
    intros (f & rs & r & d & s & [= <-] & Hrs & Hr & _ & _ & Hs & Hsne & _).
    rewrite Eres in Hrs. injection Hrs as <-.
    apply Hchoice in Hr. injection Hr as <-. rewrite Hs in Es.
    by destruct s. }
  cbn [orb Dkim.ok Dkim.domain Dkim.reason Dkim.signedHeaders].
  apply truthy_optFalsy in Ed as (d & Hd & Hdt).
  apply truthy_optFalsy in Es as (s & Hs & Hst).
  split; [|split; [|done]].
  - split; [|done]. intros _.
    exists dkimVerify, results, pass, d, s. rewrite Hd.
    repeat split; try done; [by apply Hchoice|by destruct d|by destruct s].
  - intros hs Hhs. apply fmap_Some in Hhs as (l & _ & ->).
    apply fmap_toLowerCase_lower.
Qed.

(** X18.  The library path does not ask for a passing signature: when none
    of the results the library reports has status [pass], the first result
    is gone by, and if it names a signing domain and a selector the outcome
    is [ok] for that domain. *)
Theorem X18_library_accepts_without_pass
        (importDkimVerify :
           result (option (string -> result (list Dkim.LibResult))))
        (dkimVerify : string -> result (list Dkim.LibResult))
        (rawEmail d s : string)
        (r : Dkim.LibResult) (rest : list Dkim.LibResult)
        (Himport : importDkimVerify = Ok (Some dkimVerify))
        (Hresults : dkimVerify rawEmail = Ok (r :: rest))
        (Hnone : Forall (fun x => Dkim.statusResult x <> Some "pass")
                        (r :: rest))
        (Hd : Dkim.signingDomain r = Some d) (Hdne : d <> "")
        (Hs : Dkim.selector r = Some s) (Hsne : s <> "") :
  let v := Dkim.verifyRawEmailWithLibrary importDkimVerify rawEmail in
  Dkim.ok v = true /\ Dkim.domain v = Some d /\ Dkim.reason v = None.
Proof.
  intros v. subst v. unfold Dkim.verifyRawEmailWithLibrary.
  rewrite Himport, Hresults, (find_isPass_None _ Hnone).
  cbn [head]. rewrite Hd, Hs. cbn [JS.optFalsy].
  apply truthy_ne in Hdne, Hsne. by rewrite Hdne, Hsne.
Qed.

Lemma X18_library_accepts_without_pass_witness :
  Dkim.statusResult Examples.failedResult = Some "fail"
  /\ Dkim.ok (Dkim.verifyRawEmailWithLibrary Examples.failingLibrary
                                             Examples.rawMsg) = true
  /\ Route.status
       (Route.POST Examples.anyKey Examples.accept Examples.failingLibrary
                   Examples.hashOf 2000 2000 "sid-1" "" Examples.rawMsg
                   Examples.theStore).1 = 200.
Proof.
  split; [reflexivity|]. split; [|vm_compute; reflexivity].
  refine (proj1 (X18_library_accepts_without_pass
            Examples.failingLibrary (fun _ => Ok [Examples.failedResult])
            Examples.rawMsg "example.com" "sel1" Examples.failedResult []
            eq_refl eq_refl _ eq_refl _ eq_refl _)); try done.
  by repeat constructor.
Defined.

(* ===================================================================== *)
(** * Further properties: the commitment store (zkUsers.ts) *)
(* ===================================================================== *)

Section Commitments.

Import ZkUsers.

Implicit Types (MEM : gmap string (list string)) (d h : string).

Lemma includes_spec (arr : list string) h :
  includes arr h = true <-> h ∈ arr.
Proof. unfold includes. apply bool_decide_eq_true. Qed.

Lemma hasZKUser_true dom h MEM :
  hasZKUser dom h MEM = Ok true
  <-> exists arr, MEM !! JS.toLowerCase dom = Some arr /\ h ∈ arr.
Proof.
  unfold hasZKUser, commitments.
  destruct (MEM !! JS.toLowerCase dom) as [arr|]; cbn [bindR].
  - split.
    + intros [= Hin]. exists arr. split; [done|]. by apply includes_spec.
    + intros (arr' & [= <-] & Hin). f_equal. by apply includes_spec.
  - split; [|by intros (? & ? & _)].
    by destruct (inherited _).
Qed.

Lemma addZKUser_Ok dom h MEM MEM' :
  addZKUser dom h MEM = Ok MEM' ->
  exists arr,
    commitments MEM (JS.toLowerCase dom) = Ok arr
    /\ MEM' = <[JS.toLowerCase dom :=
                  if includes arr h then arr else arr ++ [h]]> MEM
    /\ (forall x, x ∈ arr -> MEM !! JS.toLowerCase dom = Some arr).
Proof.
  unfold addZKUser. destruct (commitments MEM _) as [arr|] eqn:E; [|done].
  cbn [bindR]. intros [= <-]. exists arr. split; [done|]. split; [done|].
  intros x Hx. unfold commitments in E.
  destruct (MEM !! JS.toLowerCase dom) as [arr'|]; [congruence|].
  destruct (inherited _); [done|]. injection E as <-.
  by apply elem_of_nil in Hx.
Qed.

End Commitments.

(** X19.  A commitment that [addZKUser] recorded for a domain is found by
    [hasZKUser] under every spelling of the domain that differs in letter
    case only; recording it again changes nothing; no commitment recorded
    before is lost, and nothing but the new commitment is added. *)
Theorem X19_addZKUser_then_has
        (dom dom' hHex : string) (MEM MEM' : gmap string (list string))
        (Hadd : ZkUsers.addZKUser dom hHex MEM = Ok MEM')
        (Hcase : JS.toLowerCase dom' = JS.toLowerCase dom) :
  ZkUsers.hasZKUser dom' hHex MEM' = Ok true
  /\ ZkUsers.addZKUser dom' hHex MEM' = Ok MEM'
  /\ (forall d h, ZkUsers.hasZKUser d h MEM = Ok true ->
                  ZkUsers.hasZKUser d h MEM' = Ok true)
  /\ (forall d h, ZkUsers.hasZKUser d h MEM' = Ok true ->
                  (JS.toLowerCase d = JS.toLowerCase dom /\ h = hHex)
                  \/ ZkUsers.hasZKUser d h MEM = Ok true).
Proof.
  apply addZKUser_Ok in Hadd as (arr & Harr & -> & Hown).
  set (arr' := if ZkUsers.includes arr hHex then arr else arr ++ [hHex]).
  assert (hHex ∈ arr') as Hin.
  { subst arr'. destruct (ZkUsers.includes arr hHex) eqn:E.
    - by apply includes_spec.
    - apply elem_of_app. right. by left. }
  assert (forall x, x ∈ arr -> x ∈ arr') as Hsub.
  { intros x Hx. subst arr'. destruct (ZkUsers.includes arr hHex); [done|].
    apply elem_of_app. by left. }
  split; [|split; [|split]].
  - apply hasZKUser_true. exists arr'. rewrite Hcase.
    by rewrite lookup_insert_eq.
  - unfold ZkUsers.addZKUser, ZkUsers.commitments. rewrite Hcase.
    rewrite lookup_insert_eq. cbn [bindR].
    rewrite (proj2 (includes_spec arr' hHex) Hin).
    by rewrite insert_insert_eq.
  - intros d h (a & Ha & Hh)%hasZKUser_true. apply hasZKUser_true.
    destruct (decide (JS.toLowerCase dom = JS.toLowerCase d)) as [E|Hne].
    + exists arr'. rewrite <- E, lookup_insert_eq. split; [done|].
      apply Hsub. rewrite <- E in Ha.
      unfold ZkUsers.commitments in Harr. rewrite Ha in Harr.
      by injection Harr as <-.
    + exists a. by rewrite lookup_insert_ne.
  - intros d h (a & Ha & Hh)%hasZKUser_true.
    destruct (decide (JS.toLowerCase dom = JS.toLowerCase d)) as [E|Hne].
    + rewrite <- E, lookup_insert_eq in Ha. injection Ha as <-.
      subst arr'. destruct (ZkUsers.includes arr hHex) eqn:Einc.
      * right. apply hasZKUser_true. exists arr. rewrite <- E.
        split; [by eapply Hown|done].
      * apply elem_of_app in Hh as [Hh|Hh].
        -- right. apply hasZKUser_true. exists arr. rewrite <- E.
           split; [by eapply Hown|done].
        -- left. apply list_elem_of_singleton in Hh. by split.
    + rewrite lookup_insert_ne in Ha by done. right.
      apply hasZKUser_true. by exists a.
Qed.

Lemma X19_addZKUser_then_has_witness :
  ZkUsers.hasZKUser "EXAMPLE.com" "0xabc"
    (<["example.com" := ["0xabc"]]> ∅) = Ok true.
Proof.
  refine (proj1 (X19_addZKUser_then_has "Example.COM" "EXAMPLE.com" "0xabc"
                   ∅ (<["example.com" := ["0xabc"]]> ∅) _ _)).
  - reflexivity.
  - reflexivity.
Defined.

(** X20.  The store is a plain object, so a domain whose lower case is
    [constructor] or [__proto__] and that has no entry of its own is
    answered by [Object.prototype]: [addZKUser] and [hasZKUser] throw
    instead of returning, and nothing is recorded. *)
Theorem X20_inherited_keys_throw
        (dom hHex : string) (MEM : gmap string (list string))
        (Hkey : JS.toLowerCase dom = "constructor"
                \/ JS.toLowerCase dom = "__proto__")
        (Hown : MEM !! JS.toLowerCase dom = None) :
  ZkUsers.addZKUser dom hHex MEM = Throw "arr.includes is not a function"
  /\ ZkUsers.hasZKUser dom hHex MEM = Throw "arr.includes is not a function".
Proof.
  unfold ZkUsers.addZKUser, ZkUsers.hasZKUser, ZkUsers.commitments.
  rewrite Hown. by destruct Hkey as [-> | ->].
Qed.

Lemma X20_inherited_keys_throw_witness :
  ZkUsers.addZKUser "Constructor" "0xabc" ∅
  = Throw "arr.includes is not a function".
Proof.
  refine (proj1 (X20_inherited_keys_throw "Constructor" "0xabc" ∅ _ _)).
  - left. reflexivity.
  - apply lookup_empty.
Defined.

(* ===================================================================== *)
(** * Further properties: the e-mail parser CLI *)
(* ===================================================================== *)

Section LineEndings.

Lemma normalizeLineEndings_cons c r :
  EmailParser.normalizeLineEndings (String c r)
  = if Ascii.eqb c JS.LF
    then JS.CRLF +:+ EmailParser.normalizeLineEndings r
    else if Ascii.eqb c JS.CR then
      match r with
      | String c2 r2 =>
          if Ascii.eqb c2 JS.LF
          then JS.CRLF +:+ EmailParser.normalizeLineEndings r2
          else JS.CRLF +:+ EmailParser.normalizeLineEndings r
      | EmptyString => JS.CRLF
      end
    else String c (EmailParser.normalizeLineEndings r).
Proof. by destruct r. Qed.

Lemma crlfOnly_cons c r :
  Spec.crlfOnly (String c r)
  = if Ascii.eqb c JS.LF then false
    else if Ascii.eqb c JS.CR then
      match r with
      | String c2 r2 => Ascii.eqb c2 JS.LF && Spec.crlfOnly r2
      | EmptyString => false
      end
    else Spec.crlfOnly r.
Proof. by destruct r. Qed.

Lemma crlfOnly_crlf s : Spec.crlfOnly (JS.CRLF +:+ s) = Spec.crlfOnly s.
Proof. reflexivity. Qed.

Lemma normalizeLineEndings_crlfOnly s :
  Spec.crlfOnly (EmailParser.normalizeLineEndings s) = true.
Proof.
  remember (String.length s) as n eqn:Hn.
  revert s Hn. induction (lt_wf n) as [n _ IH]. intros s Hn.
  destruct s as [|c r]; [done|]. rewrite normalizeLineEndings_cons.
  assert (Spec.crlfOnly (EmailParser.normalizeLineEndings r) = true) as Hr
      by (apply (IH (String.length r)); [subst n; simpl; lia|done]).
  destruct (Ascii.eqb c JS.LF) eqn:Elf; [by rewrite crlfOnly_crlf|].
  destruct (Ascii.eqb c JS.CR) eqn:Ecr.
  - destruct r as [|c2 r2]; [done|].
    destruct (Ascii.eqb c2 JS.LF); rewrite crlfOnly_crlf; [|done].
    apply (IH (String.length r2)); [subst n; simpl; lia|done].
  - by rewrite crlfOnly_cons, Elf, Ecr.
Qed.

Lemma normalizeLineEndings_fixed s :
  Spec.crlfOnly s = true -> EmailParser.normalizeLineEndings s = s.
Proof.
  remember (String.length s) as n eqn:Hn.
  revert s Hn. induction (lt_wf n) as [n _ IH]. intros s Hn.
  destruct s as [|c r]; [done|].
  rewrite normalizeLineEndings_cons, crlfOnly_cons.
  destruct (Ascii.eqb c JS.LF) eqn:Elf; [done|].
  destruct (Ascii.eqb c JS.CR) eqn:Ecr.
  - destruct r as [|c2 r2]; [done|].
    intros [Hc2 Hr2]%andb_true_iff. rewrite Hc2.
    apply Ascii.eqb_eq in Ecr as ->. apply Ascii.eqb_eq in Hc2 as ->.
    rewrite (IH (String.length r2)); [done|subst n; simpl; lia|done|done].
  - intros Hr. f_equal.
    apply (IH (String.length r)); [subst n; simpl; lia|done|done].
Qed.

End LineEndings.

(** X21.  [normalizeLineEndings] leaves CRLF as the only line break: in its
    result no LF stands without a CR before it and no CR without a LF after
    it; a text that is like that already is returned unchanged, so
    normalizing twice is normalizing once. *)
Theorem X21_normalizeLineEndings_normal (s : string) :
  Spec.crlfOnly (EmailParser.normalizeLineEndings s) = true
  /\ (Spec.crlfOnly s = true -> EmailParser.normalizeLineEndings s = s)
  /\ EmailParser.normalizeLineEndings (EmailParser.normalizeLineEndings s)
     = EmailParser.normalizeLineEndings s.
Proof.
  split; [apply normalizeLineEndings_crlfOnly|].
  split; [apply normalizeLineEndings_fixed|].
  apply normalizeLineEndings_fixed, normalizeLineEndings_crlfOnly.
Qed.

Section HeadersAndBody.

Lemma indexOf_unfold s p :
  JS.indexOf s p
  = if JS.startsWith s p then 0
    else match s with
         | EmptyString => -1
         | String _ r =>
             let i := JS.indexOf r p in if i <? 0 then -1 else 1 + i
         end.
Proof. by destruct s. Qed.

Lemma startsWith_app p post : JS.startsWith (p +:+ post) p = true.
Proof.
  induction p as [|a p IH]; [by destruct post|].
  rewrite string_app_cons. simpl. by rewrite Ascii.eqb_refl, IH.
Qed.

Lemma startsWith_decompose s p :
  JS.startsWith s p = true -> exists post, s = p +:+ post.
Proof.
  revert s. induction p as [|a p IH]; intros s; [by exists s|].
  destruct s as [|b s]; [done|]. simpl.
  intros [Hab Hs]%andb_true_iff. apply Ascii.eqb_eq in Hab as ->.
  destruct (IH _ Hs) as [post ->]. by exists post.
Qed.

(** Where [indexOf] finds the pattern, the pattern stands. *)
Lemma indexOf_decompose s p :
  0 <= JS.indexOf s p ->
  exists pre post,
    s = pre +:+ p +:+ post /\ JS.len pre = JS.indexOf s p.
Proof.
  induction s as [|c r IH]; rewrite indexOf_unfold.
  - destruct (JS.startsWith "" p) eqn:E; [|lia]. intros _.
    apply startsWith_decompose in E as [post E]. by exists "", post.
  - destruct (JS.startsWith (String c r) p) eqn:E.
    + intros _. apply startsWith_decompose in E as [post E].
      by exists "", post.
    + cbn zeta. destruct (JS.indexOf r p <? 0) eqn:Elt; [lia|].
      apply Z.ltb_ge in Elt. intros _.
      destruct (IH Elt) as (pre & post & -> & Hlen).
      exists (String c pre), post. split; [done|].
      unfold JS.len in *. simpl. lia.
Qed.

(** No occurrence of the pattern starts before the place [indexOf]
    returns. *)
Lemma indexOf_first pre p post :
  0 <= JS.indexOf (pre +:+ p +:+ post) p <= JS.len pre.
Proof.
  induction pre as [|c pre IH]; rewrite indexOf_unfold.
  - change ("" +:+ p +:+ post) with (p +:+ post).
    rewrite startsWith_app. done.
  - rewrite string_app_cons.
    destruct (JS.startsWith _ p); [unfold JS.len; simpl; lia|].
    cbn zeta. destruct (_ <? 0) eqn:Elt.
    + apply Z.ltb_lt in Elt. lia.
    + unfold JS.len in *. simpl. lia.
Qed.

Lemma includes_decompose s p :
  JS.includes s p = true <-> exists pre post, s = pre +:+ p +:+ post.
Proof.
  unfold JS.includes. rewrite Z.leb_le. split.
  - intros (pre & post & Hs & _)%indexOf_decompose. by exists pre, post.
  - intros (pre & post & ->). apply indexOf_first.
Qed.

Lemma firstn_app_exact a b :
  JS.firstn (String.length a) (a +:+ b) = a.
Proof.
  induction a as [|x a IH]; [by destruct b|].
  rewrite string_app_cons. simpl. by rewrite IH.
Qed.

Lemma skipn_app_exact a b :
  JS.skipn (String.length a) (a +:+ b) = b.
Proof. induction a as [|x a IH]; [done|]. by rewrite string_app_cons. Qed.

Lemma len_app a b : JS.len (a +:+ b) = JS.len a + JS.len b.
Proof. unfold JS.len. rewrite string_app_length. lia. Qed.

Lemma len_nonneg a : 0 <= JS.len a.
Proof. unfold JS.len. lia. Qed.

(** [substring(0, k)] and [substring(k)] at the end of a prefix. *)
Lemma substring_prefix a b :
  JS.substring (a +:+ b) 0 (JS.len a) = a.
Proof.
  unfold JS.substring. rewrite len_app.
  pose proof (len_nonneg a). pose proof (len_nonneg b).
  replace (Z.min (Z.max 0 0) (JS.len a + JS.len b)) with 0 by lia.
  replace (Z.min (Z.max (JS.len a) 0) (JS.len a + JS.len b))
    with (JS.len a) by lia.
  replace (Z.max 0 (JS.len a) - Z.min 0 (JS.len a)) with (JS.len a) by lia.
  replace (Z.min 0 (JS.len a)) with 0 by lia.
  unfold JS.len. rewrite Nat2Z.id. apply firstn_app_exact.
Qed.

Lemma substringFrom_suffix a b :
  JS.substringFrom (a +:+ b) (JS.len a) = b.
Proof.
  unfold JS.substringFrom. rewrite len_app.
  pose proof (len_nonneg a). pose proof (len_nonneg b).
  replace (Z.min (Z.max (JS.len a) 0) (JS.len a + JS.len b))
    with (JS.len a) by lia.
  unfold JS.len. rewrite Nat2Z.id. apply skipn_app_exact.
Qed.

End HeadersAndBody.

(** X22.  [splitHeadersAndBody] cuts the text at its first empty line.
    Without one the whole text is the header part and the body is empty.
    With one, the header part ends with a CRLF and holds no empty line, and
    header part, CRLF and body put together are the text. *)
Theorem X22_split_headers_and_body (text : string) :
  let sep := JS.CRLF +:+ JS.CRLF in
  let headersRaw := EmailParser.headersRawOf text in
  let bodyRaw := EmailParser.bodyRawOf text in
  (JS.includes text sep = false -> headersRaw = text /\ bodyRaw = "")
  /\ (JS.includes text sep = true ->
      text = headersRaw +:+ JS.CRLF +:+ bodyRaw
      /\ JS.endsWith headersRaw JS.CRLF = true
      /\ JS.includes headersRaw sep = false).
Proof.
  intros sep headersRaw bodyRaw.
  subst headersRaw bodyRaw. unfold EmailParser.headersRawOf,
    EmailParser.bodyRawOf, JS.includes. fold sep.
  pose proof (indexOf_lower_bound text sep) as Hlow. split.
  - intros Hno%Z.leb_gt.
    replace (JS.indexOf text sep) with (-1) by lia. done.
  - intros Hyes%Z.leb_le.
    destruct (JS.indexOf text sep =? -1) eqn:E; [apply Z.eqb_eq in E; lia|].
    destruct (indexOf_decompose _ _ Hyes) as (pre & post & Htext & Hlen).
    rewrite <- Hlen. clear E Hlow.
    assert (text = (pre +:+ JS.CRLF) +:+ JS.CRLF +:+ post) as Htext2.
    { rewrite Htext. subst sep. by rewrite !string_app_assoc. }
    assert (JS.substring text 0 (JS.len pre + 2) = pre +:+ JS.CRLF) as ->.
    { replace (JS.len pre + 2) with (JS.len (pre +:+ JS.CRLF))
        by (rewrite len_app; reflexivity).
      rewrite Htext2. apply substring_prefix. }
    assert (JS.substringFrom text (JS.len pre + 4) = post) as ->.
    { replace (JS.len pre + 4)
        with (JS.len ((pre +:+ JS.CRLF) +:+ JS.CRLF))
        by (rewrite !len_app; change (JS.len JS.CRLF) with 2; lia).
      rewrite Htext2, <- string_app_assoc. apply substringFrom_suffix. }
    split; [done|]. split; [apply endsWith_app_refl|].
    apply Z.leb_gt.
    destruct (Z.le_gt_cases 0 (JS.indexOf (pre +:+ JS.CRLF) sep))
      as [Hin|Hout]; [|lia]. exfalso.
    destruct (indexOf_decompose _ _ Hin) as (pre' & post' & Hh & _).
    pose proof (indexOf_first pre' sep (post' +:+ JS.CRLF +:+ post))
      as [_ Hfirst].
    replace (pre' +:+ sep +:+ post' +:+ JS.CRLF +:+ post) with text
      in Hfirst.
    2:{ rewrite Htext2, Hh. by rewrite !string_app_assoc. }
    apply (f_equal JS.len) in Hh. rewrite !len_app in Hh.
    change (JS.len JS.CRLF) with 2 in Hh.
    change (JS.len sep) with 4 in Hh.
    pose proof (len_nonneg post'). lia.
Qed.

Section BodyLines.

Lemma splitCRLF_cons c r :
  JS.splitCRLF (String c r)
  = match r with
    | String c2 r2 =>
        if Ascii.eqb c JS.CR && Ascii.eqb c2 JS.LF
        then "" :: JS.splitCRLF r2
        else JS.consFirst c (JS.splitCRLF r)
    | EmptyString => JS.consFirst c (JS.splitCRLF r)
    end.
Proof. by destruct r. Qed.

Lemma splitCRLF_nonempty s : JS.splitCRLF s <> [].
Proof.
  destruct s as [|c r]; [done|]. rewrite splitCRLF_cons.
  destruct r as [|c2 r2]; [apply consFirst_nonempty|].
  destruct (_ && _); [done|apply consFirst_nonempty].
Qed.

(** A CRLF between two texts separates their lines. *)
Lemma splitCRLF_app_crlf a b :
  JS.splitCRLF (a +:+ JS.CRLF +:+ b) = JS.splitCRLF a ++ JS.splitCRLF b.
Proof.
  remember (String.length a) as n eqn:Hn.
  revert a Hn. induction (lt_wf n) as [n _ IH]. intros a Hn.
  destruct a as [|c r]; [reflexivity|].
  rewrite string_app_cons, !splitCRLF_cons.
  destruct r as [|c2 r2].
  - destruct (Ascii.eqb c JS.CR); reflexivity.
  - rewrite string_app_cons.
    destruct (Ascii.eqb c JS.CR && Ascii.eqb c2 JS.LF) eqn:Ecr.
    + by rewrite (IH (String.length r2) ltac:(subst n; simpl; lia)
                     r2 eq_refl).
    + rewrite <- string_app_cons.
      rewrite (IH (String.length (String c2 r2))
                  ltac:(subst n; simpl; lia) (String c2 r2) eq_refl).
      apply consFirst_app, splitCRLF_nonempty.
Qed.

Lemma dropTrailingEmpty_snoc (l : list string) :
  EmailParser.dropTrailingEmpty (l ++ [""]) = EmailParser.dropTrailingEmpty l.
Proof.
  induction l as [|x l IH]; [done|].
  cbn [app EmailParser.dropTrailingEmpty]. by rewrite IH.
Qed.

(** The lines [canonicalizeBody] works on. *)
Lemma body_lines_crlf body :
  JS.splitCRLF (body +:+ JS.CRLF)
  = (if (String.length body =? 0)%nat then [""] else JS.splitCRLF body)
      ++ [""].
Proof.
  change (body +:+ JS.CRLF) with (body +:+ JS.CRLF +:+ "").
  rewrite splitCRLF_app_crlf. by destruct body.
Qed.

End BodyLines.

(** X23.  [canonicalizeBody] ignores empty lines at the end of the body, in
    both modes: a body and the same body followed by one more CRLF have the
    same canonical form (and so has a body followed by any number of
    them). *)
Theorem X23_canonicalizeBody_trailing_lines
        (body : string) (dkimTags : option (gmap string EmailParser.TagVal)) :
  EmailParser.canonicalizeBody (body +:+ JS.CRLF) dkimTags
  = EmailParser.canonicalizeBody body dkimTags.
Proof.
  unfold EmailParser.canonicalizeBody.
  destruct (EmailParser.bodyModeOf dkimTags) as [bodyMode|]; [|done].
  cbn [bindR].
  assert ((String.length (body +:+ JS.CRLF) =? 0)%nat = false) as ->.
  { apply Nat.eqb_neq. rewrite string_app_length. simpl. lia. }
  rewrite body_lines_crlf.
  destruct (String.eqb bodyMode "simple").
  - rewrite dropTrailingEmpty_snoc.
    by destruct (String.length body =? 0)%nat.
  - rewrite fmap_app. change (EmailParser.relaxLine <$> [""]) with [""].
    rewrite dropTrailingEmpty_snoc.
    by destruct (String.length body =? 0)%nat.
Qed.

Section Choice.

Lemma findByTag_member what k test l p :
  EmailParser.findByTag what k test l = Ok (Some p) -> p ∈ l.
Proof.
  induction l as [|q l IH]; [done|]. cbn [EmailParser.findByTag].
  destruct (EmailParser.lowerTag what q k) as [[x|]|]; cbn [bindR];
    [|intros ?; right; by apply IH|done].
  destruct (test x).
  - intros [= <-]. left.
  - intros ?. right. by apply IH.
Qed.

Lemma findByTag_throw what k test l msg :
  EmailParser.findByTag what k test l = Throw msg ->
  exists q, q ∈ l /\ EmailParser.tags q !! k = Some EmailParser.TTrue.
Proof.
  induction l as [|q l IH]; [done|]. cbn [EmailParser.findByTag].
  unfold EmailParser.lowerTag at 1.
  destruct (EmailParser.tags q !! k) as [[|v]|] eqn:Eq; cbn [bindR].
  - intros _. exists q. split; [left|done].
  - destruct (JS.truthy v); [destruct (test _); [done|]|];
      intros (q' & Hq' & Ht)%IH; exists q'; (split; [by right|done]).
  - intros (q' & Hq' & Ht)%IH. exists q'. split; [by right|done].
Qed.

End Choice.

(** X24.  [chooseDKIMSignature] answers [null] exactly for an empty list,
    and what it chooses is one of the signatures it was given.  It throws
    only when a signature has a [d] or an [a] tag without a value; when no
    signature has, it chooses one from every list that is not empty. *)
Theorem X24_choice_is_a_candidate
        (parsedDKIMs : list EmailParser.ParsedDKIM)
        (claimedDomain : option string) :
  (forall p,
      EmailParser.chooseDKIMSignature parsedDKIMs claimedDomain = Ok (Some p)
      -> p ∈ parsedDKIMs)
  /\ (EmailParser.chooseDKIMSignature parsedDKIMs claimedDomain = Ok None
      <-> parsedDKIMs = [])
  /\ (forall msg,
        EmailParser.chooseDKIMSignature parsedDKIMs claimedDomain = Throw msg
        -> exists q,
            q ∈ parsedDKIMs
            /\ (EmailParser.tags q !! "d" = Some EmailParser.TTrue
                \/ EmailParser.tags q !! "a" = Some EmailParser.TTrue))
  /\ ((forall q, q ∈ parsedDKIMs -> Spec.plain "d" q /\ Spec.plain "a" q) ->
      parsedDKIMs <> [] ->
      exists p,
        EmailParser.chooseDKIMSignature parsedDKIMs claimedDomain
        = Ok (Some p)).
Proof.
  destruct parsedDKIMs as [|first rest].
  { repeat split; done. }
  set (l := first :: rest).
  assert (forall (P : result (option EmailParser.ParsedDKIM) -> Prop),
            (forall p, p ∈ l -> P (Ok (Some p))) ->
            (forall msg q,
                q ∈ l ->
                EmailParser.tags q !! "d" = Some EmailParser.TTrue
                \/ EmailParser.tags q !! "a" = Some EmailParser.TTrue ->
                P (Throw msg)) ->
            P (EmailParser.chooseDKIMSignature l claimedDomain)) as Hcases.
  { intros P Hok Hthrow. unfold EmailParser.chooseDKIMSignature. subst l.
    set (l := first :: rest) in *.
    assert (forall r,
              (forall p, r = Ok (Some p) -> p ∈ l) ->
              (forall msg, r = Throw msg ->
                 exists q, q ∈ l
                   /\ EmailParser.tags q !! "d" = Some EmailParser.TTrue) ->
              P (bindR r (fun byDomain =>
                   match byDomain with
                   | Some p => Ok (Some p)
                   | None =>
                       bindR (EmailParser.findByTag "p.tags.a.toLowerCase"
                                "a" (fun x => bool_decide
                                               (x ∈ EmailParser.supported)) l)
                         (fun byAlg =>
                            match byAlg with
                            | Some p => Ok (Some p)
                            | None => Ok (Some first)
                            end)
                   end))) as Hbind.
    { intros [[p|]|msg] Hmem Hthr; cbn [bindR].
      - by apply Hok, Hmem.
      - destruct (EmailParser.findByTag _ "a" _ l) as [[p|]|msg] eqn:Ea;
          cbn [bindR].
        + by apply Hok, (findByTag_member _ _ _ _ _ Ea).
        + apply Hok. left.
        + destruct (findByTag_throw _ _ _ _ _ Ea) as (q & Hq & Ht).
          apply (Hthrow msg q); [done|by right].
      - destruct (Hthr msg eq_refl) as (q & Hq & Ht).
        apply (Hthrow msg q); [done|by left]. }
    apply Hbind.
    - destruct (negb _); [|done]. intros p. apply findByTag_member.
    - destruct (negb _); [|done]. intros msg. apply findByTag_throw. }
  split; [|split; [|split]].
  - apply Hcases; [|done]. intros p Hp q [= Heq]. by subst q.
  - split; [|done]. apply Hcases; done.
  - apply Hcases; [done|]. intros msg q Hq Ht msg' _. by exists q.
  - intros Hplain _. apply Hcases; [intros p _; by exists p|].
    intros msg q Hq Ht. exfalso. destruct (Hplain q Hq) as [Hd Ha].
    by destruct Ht.
Qed.

(* ===================================================================== *)
(** * Further properties: request validation and session removal *)
(* ===================================================================== *)


(** [loadFromDisk] is [completeLoad] on the data file as it is. *)
Lemma loadFromDisk_completeLoad now st :
  SessionStore.loadFromDisk now st
  = SessionStore.completeLoad (SessionStore.disk st) now st.
Proof. reflexivity. Qed.

(** X26.  What [deleteSession] forgets, and when.  The session leaves the
    map at once, the other sessions stay, and the data file is as it was
    when the call returns.  When the keys of the map are the ids of its
    sessions, then once the write that the deletion starts has completed,
    [getSession] finds nothing under the id, not through the fall-back to
    the data file either.  Until then the deletion does not hold: a
    [getSession] that runs before the write has completed reads the old
    data file and, when that still holds a fresh session with the id, finds
    it again; and a read of the old data file that is answered after the
    deletion (the read started when the module was loaded, line 98, or by
    another [getSession]) puts such a session back into the map, also after
    the write has completed. *)
Theorem X26_deleteSession_forgets
        (sid : string) (now nowLoad : Z) (st : SessionStore.Store)
        (Hkeys : Spec.keyedById st) :
  let st' := SessionStore.deleteSession sid st in
  SessionStore.SESSIONS st' !! sid = None
  /\ SessionStore.disk st' = SessionStore.disk st
  /\ (forall other, other <> sid ->
        SessionStore.SESSIONS st' !! other
        = SessionStore.SESSIONS st !! other)
  /\ Spec.keyedById st'
  /\ (SessionStore.getSession now nowLoad sid
        (SessionStore.persistToDisk st')).1 = None
  /\ (forall arr s,
        SessionStore.disk st = Some arr -> s ∈ arr ->
        SessionStore.id s = sid -> SessionStore.fresh nowLoad s = true ->
        is_Some (SessionStore.getSession now nowLoad sid st').1)
  /\ (forall old s nowRead,
        s ∈ old -> SessionStore.id s = sid ->
        SessionStore.fresh nowRead s = true ->
        is_Some
          (SessionStore.SESSIONS
             (SessionStore.completeLoad (Some old) nowRead
                (SessionStore.persistToDisk st')) !! sid)).
Proof.
  intros st'. subst st'. unfold SessionStore.deleteSession.
  cbn [SessionStore.SESSIONS SessionStore.disk].
  set (M := delete sid (SessionStore.SESSIONS st)).
  assert (forall t, filter (fun ks : string * SessionStore.Session =>
                              SessionStore.fresh t ks.2 = true) M !! sid
                    = None) as Hpruned.
  { intros t. apply map_lookup_filter_None. left. subst M.
    apply lookup_delete_eq. }
  split; [subst M; apply lookup_delete_eq|]. split; [done|].
  split; [intros other Hne; subst M; by rewrite lookup_delete_ne|].
  split.
  { intros k s. cbn [SessionStore.SESSIONS]. subst M.
    intros [_ Hs]%lookup_delete_Some. by apply Hkeys. }
  split; [|split].
  - unfold SessionStore.getSession, SessionStore.persistToDisk.
    cbn [SessionStore.SESSIONS SessionStore.disk].
    rewrite Hpruned. unfold SessionStore.loadFromDisk.
    cbn [fst SessionStore.SESSIONS SessionStore.disk].
    match goal with
    | |- ?m !! sid = None => destruct (m !! sid) as [x|] eqn:Ex; [|done]
    end.
    exfalso.
    apply loadFromDisk_lookup in Ex as [Ex|(Hin & _ & Hid)];
      [by rewrite Hpruned in Ex|].
    apply list_elem_of_fmap in Hin as ([k y] & -> & Hy).
    apply elem_of_map_to_list in Hy. cbn [snd] in Hid. subst M.
    apply lookup_delete_Some in Hy as [Hne Hy].
    apply Hkeys in Hy. congruence.
  - intros arr s Hdisk Hin Hid Hfresh. unfold SessionStore.getSession.
    cbn [SessionStore.SESSIONS SessionStore.disk].
    rewrite Hpruned. unfold SessionStore.loadFromDisk.
    cbn [fst SessionStore.SESSIONS SessionStore.disk]. rewrite Hdisk.
    cbn [SessionStore.SESSIONS].
    apply loadFromDisk_loads. right. by exists s.
  - intros old s nowRead Hin Hid Hfresh.
    unfold SessionStore.completeLoad, SessionStore.persistToDisk.
    cbn [SessionStore.SESSIONS].
    apply loadFromDisk_loads. right. by exists s.
Qed.

Lemma X26_deleteSession_forgets_witness :
  (SessionStore.getSession 2000 2000 "sid-1"
     (SessionStore.persistToDisk
        (SessionStore.deleteSession "sid-1" Examples.savedStore))).1 = None
  /\ (SessionStore.getSession 2000 2000 "sid-1"
        (SessionStore.deleteSession "sid-1" Examples.savedStore)).1
     = Some Examples.theSession.
Proof.
  assert (Spec.keyedById Examples.savedStore) as Hkeys.
  { intros k s. unfold Examples.savedStore. cbn [SessionStore.SESSIONS].
    intros [<- <-]%lookup_singleton_Some. reflexivity. }
  destruct (X26_deleteSession_forgets "sid-1" 2000 2000 Examples.savedStore
              Hkeys) as (_ & _ & _ & _ & Hgone & Hback & _).
  split; [exact Hgone|].
  destruct (Hback [Examples.theSession] Examples.theSession eq_refl)
    as [s Hs]; [by left|reflexivity|reflexivity|].
  rewrite Hs. f_equal. revert Hs. vm_compute. by intros [= <-].
Defined.

(* ===================================================================== *)
(** * Further properties: relaxed header canonicalization *)
(* ===================================================================== *)

Section RelaxedForm.

Lemma collapsedFrom_weaken s :
  Spec.collapsedFrom true s = true -> Spec.collapsedFrom false s = true.
Proof.
  destruct s as [|c r]; [done|]. simpl. destruct (JS.isWsp c); [|done].
  by rewrite andb_false_r.
Qed.

(** What [replace(/[ \t]+/g, " ")] returns has no tab and no two spaces in
    a row, and such a text is returned as it is. *)
Lemma collapseWsp_collapsed b s :
  Spec.collapsedFrom b
    (JS.replaceRuns JS.isWsp (String JS.SP "") b s) = true.
Proof.
  revert b. induction s as [|c r IH]; intros b; [done|].
  cbn [JS.replaceRuns]. destruct (JS.isWsp c) eqn:E.
  - destruct b; [apply IH|].
    change (String JS.SP "" +:+ ?t) with (String JS.SP t).
    cbn [Spec.collapsedFrom]. change (JS.isWsp JS.SP) with true.
    cbn [negb andb]. change (Ascii.eqb JS.SP JS.SP) with true.
    cbn [andb]. apply IH.
  - cbn [Spec.collapsedFrom]. rewrite E. apply IH.
Qed.

Lemma collapseWsp_fixed b s :
  Spec.collapsedFrom b s = true ->
  JS.replaceRuns JS.isWsp (String JS.SP "") b s = s.
Proof.
  revert b. induction s as [|c r IH]; intros b; [done|].
  cbn [JS.replaceRuns Spec.collapsedFrom]. destruct (JS.isWsp c) eqn:E.
  - intros [[Hc Hb]%andb_true_iff Hr]%andb_true_iff.
    apply Ascii.eqb_eq in Hc as ->. apply negb_true_iff in Hb as ->.
    change (String JS.SP "" +:+ ?t) with (String JS.SP t).
    by rewrite (IH true Hr).
  - intros Hr. by rewrite (IH false Hr).
Qed.

Lemma collapsedFrom_trimStart s :
  Spec.collapsedFrom false s = true ->
  Spec.collapsedFrom false (JS.trimStart s) = true.
Proof.
  induction s as [|c r IH]; [done|]. cbn [JS.trimStart].
  destruct (JS.isWhiteSpace c); [|done]. cbn [Spec.collapsedFrom].
  destruct (JS.isWsp c).
  - intros [_ Hr]%andb_true_iff. by apply IH, collapsedFrom_weaken.
  - apply IH.
Qed.

Lemma collapsedFrom_trimEnd b s :
  Spec.collapsedFrom b s = true ->
  Spec.collapsedFrom b (JS.trimEnd s) = true.
Proof.
  revert b. induction s as [|c r IH]; intros b; [done|]. cbn [JS.trimEnd].
  destruct (_ && negb _); [done|]. cbn [Spec.collapsedFrom].
  destruct (JS.isWsp c).
  - intros [Hc Hr]%andb_true_iff. by rewrite Hc, (IH true Hr).
  - apply IH.
Qed.

Lemma trimStart_fixed s :
  JS.headIs JS.isWhiteSpace s = false -> JS.trimStart s = s.
Proof. destruct s as [|c r]; [done|]. simpl. by intros ->. Qed.

Lemma trimEnd_idem s : JS.trimEnd (JS.trimEnd s) = JS.trimEnd s.
Proof.
  induction s as [|c r IH]; [done|]. cbn [JS.trimEnd].
  destruct (JS.isWhiteSpace c && negb (JS.truthy (JS.trimEnd r))) eqn:E;
    [done|].
  cbn [JS.trimEnd]. by rewrite IH, E.
Qed.

Lemma trim_idem s : JS.trim (JS.trim s) = JS.trim s.
Proof.
  unfold JS.trim at 1. rewrite trimStart_fixed by apply trim_head.
  unfold JS.trim. apply trimEnd_idem.
Qed.

(** The value of the relaxed form. *)
Lemma relaxed_value_fixed v :
  JS.trim (JS.collapseWsp (JS.trim (JS.collapseWsp v)))
  = JS.trim (JS.collapseWsp v).
Proof.
  assert (Spec.collapsedFrom false (JS.trim (JS.collapseWsp v)) = true)
    as Hc.
  { apply collapsedFrom_trimEnd, collapsedFrom_trimStart,
      collapseWsp_collapsed. }
  unfold JS.collapseWsp at 1. rewrite (collapseWsp_fixed _ _ Hc).
  apply trim_idem.
Qed.

Lemma indexOf_colon n v :
  Spec.allChars (fun x => negb (Ascii.eqb x ":")) n = true ->
  JS.indexOf (n +:+ ":" +:+ v) ":" = JS.len n.
Proof.
  induction n as [|c n IH].
  - intros _. change ("" +:+ ":" +:+ v) with (String ":" v).
    rewrite indexOf_unfold. by destruct v.
  - cbn [Spec.allChars]. intros [Hc Hn]%andb_true_iff.
    apply negb_true_iff in Hc. rewrite string_app_cons, indexOf_unfold.
    cbn [JS.startsWith]. rewrite Ascii.eqb_sym, Hc. cbn [andb].
    cbn zeta. rewrite (IH Hn).
    destruct (JS.len n <? 0) eqn:E;
      [apply Z.ltb_lt in E; pose proof (len_nonneg n); lia|].
    unfold JS.len. simpl. lia.
Qed.

Lemma slice_prefix a b : JS.slice (a +:+ b) 0 (JS.len a) = a.
Proof.
  unfold JS.slice, JS.clampIndex. rewrite len_app.
  pose proof (len_nonneg a). pose proof (len_nonneg b).
  change (0 <? 0) with false. cbv iota.
  destruct (JS.len a <? 0) eqn:E; [apply Z.ltb_lt in E; lia|].
  replace (Z.min 0 (JS.len a + JS.len b)) with 0 by lia.
  replace (Z.min (JS.len a) (JS.len a + JS.len b) - 0)
    with (JS.len a) by lia.
  unfold JS.len. rewrite Nat2Z.id. apply firstn_app_exact.
Qed.

Lemma sliceFrom_suffix a b : JS.sliceFrom (a +:+ b) (JS.len a) = b.
Proof.
  unfold JS.sliceFrom, JS.clampIndex. rewrite len_app.
  pose proof (len_nonneg a). pose proof (len_nonneg b).
  destruct (JS.len a <? 0) eqn:E; [apply Z.ltb_lt in E; lia|].
  replace (Z.min (JS.len a) (JS.len a + JS.len b)) with (JS.len a) by lia.
  unfold JS.len. rewrite Nat2Z.id. apply skipn_app_exact.
Qed.

End RelaxedForm.

(** X27.  The relaxed form of a header is a fixed point of the relaxed
    canonicalization.  Its value, the text after the first colon, has no
    tab, no two spaces in a row and no white space at either end; and when
    the header name holds no colon, canonicalizing the relaxed form as a raw
    line (the string branch of [relaxedHeader]) returns it unchanged. *)
Theorem X27_relaxedHeader_idempotent
        (h : Dkim.Header)
        (Hname : Spec.allChars (fun x => negb (Ascii.eqb x ":")) (Dkim.name h)
                 = true) :
  let canon := Dkim.relaxedHeader (inl h) in
  let v := JS.trim (JS.collapseWsp (Dkim.value h)) in
  canon = JS.toLowerCase (Dkim.name h) +:+ ":" +:+ v
  /\ Spec.collapsedFrom false v = true
  /\ JS.trim v = v
  /\ Dkim.relaxedHeader (inr canon) = canon.
Proof.
  intros canon v. subst canon.
  cbn [Dkim.relaxedHeader]. unfold Dkim.relaxedHeaderObj. fold v.
  split; [done|]. split; [|split].
  - apply collapsedFrom_trimEnd, collapsedFrom_trimStart,
      collapseWsp_collapsed.
  - apply trim_idem.
  - unfold Dkim.relaxedHeaderStr.
    set (n := JS.toLowerCase (Dkim.name h)).
    assert (Spec.allChars (fun x => negb (Ascii.eqb x ":")) n = true) as Hn
        by (subst n; by rewrite allChars_toLowerCase_colon).
    rewrite (indexOf_colon n v Hn), slice_prefix.
    assert (JS.sliceFrom (n +:+ ":" +:+ v) (JS.len n + 1) = v) as ->.
    { replace (JS.len n + 1) with (JS.len (n +:+ ":"))
        by (rewrite len_app; reflexivity).
      rewrite <- string_app_assoc. apply sliceFrom_suffix. }
    subst n. rewrite toLowerCase_idem. subst v.
    by rewrite relaxed_value_fixed.
Qed.

Lemma X27_relaxedHeader_idempotent_witness :
  Dkim.relaxedHeader (inl Examples.spacedSubject) = "subject:Hello world"
  /\ Dkim.relaxedHeader
       (inr (Dkim.relaxedHeader (inl Examples.spacedSubject)))
     = Dkim.relaxedHeader (inl Examples.spacedSubject).
Proof.
  split; [reflexivity|].
  apply (X27_relaxedHeader_idempotent Examples.spacedSubject).
  reflexivity.
Defined.

(* ===================================================================== *)
(** * Further properties: the commitment key *)
(* ===================================================================== *)

Section HexDigits.

Import Commitment.

Local Open Scope N_scope.

Lemma be128ToBigInt_snoc bytes b :
  be128ToBigInt (bytes ++ [b]) = be128ToBigInt bytes * 256 + Byte.to_N b.
Proof.
  unfold be128ToBigInt. rewrite foldl_snoc. by rewrite N.shiftl_mul_pow2.
Qed.

Lemma be128ToBigInt_bound bytes :
  be128ToBigInt bytes < 256 ^ N.of_nat (length bytes).
Proof.
  induction bytes as [|b bytes IH] using rev_ind; [done|].
  rewrite be128ToBigInt_snoc, length_app. cbn [length].
  rewrite Nat.add_1_r, Nat2N.inj_succ, N.pow_succ_r'.
  pose proof (Byte.to_N_bounded b). lia.
Qed.

Lemma toHex_app a b : toHex (a ++ b) = toHex a +:+ toHex b.
Proof.
  induction a as [|x a IH]; [done|]. cbn [app toHex].
  by rewrite !string_app_cons, IH.
Qed.

(** The digits of the two halves of a byte. *)
Lemma byte_digits x v :
  v <= 255 ->
  (x * 256 + v) / 16 / 16 = x
  /\ ((x * 256 + v) / 16) mod 16 = v / 16
  /\ (x * 256 + v) mod 16 = v mod 16.
Proof.
  intros Hv.
  assert ((x * 256 + v) / 16 = x * 16 + v / 16) as ->.
  { replace (x * 256 + v) with (v + x * 16 * 16) by lia.
    rewrite N.div_add by done. lia. }
  assert (v / 16 < 16) by (apply N.Div0.div_lt_upper_bound; lia).
  split; [|split].
  - rewrite N.add_comm, N.div_add by done.
    rewrite N.div_small by done. lia.
  - rewrite N.add_comm, N.Div0.mod_add. by apply N.mod_small.
  - replace (x * 256 + v) with (v + x * 16 * 16) by lia.
    by rewrite N.Div0.mod_add.
Qed.

(** The two digits of each byte are the digits of the number the bytes
    stand for. *)
Lemma toHex_hexFixed bytes :
  toHex bytes = Spec.hexFixed (2 * length bytes) (be128ToBigInt bytes).
Proof.
  induction bytes as [|b bytes IH] using rev_ind; [done|].
  rewrite toHex_app, be128ToBigInt_snoc, length_app. cbn [length].
  replace (2 * (length bytes + 1))%nat with (S (S (2 * length bytes)))
    by lia.
  cbn [Spec.hexFixed].
  destruct (byte_digits (be128ToBigInt bytes) (Byte.to_N b)
              (Byte.to_N_bounded b)) as (-> & -> & ->).
  rewrite <- IH. cbn [toHex]. by rewrite string_app_assoc.
Qed.

Lemma zeros_snoc k : zeros k +:+ "0" = zeros (S k).
Proof.
  induction k as [|k IH]; [done|]. cbn [zeros]. rewrite string_app_cons.
  by rewrite IH.
Qed.

Lemma hexFixed_zero k : Spec.hexFixed k 0 = zeros k.
Proof.
  induction k as [|k IH]; [done|]. cbn [Spec.hexFixed].
  change (0 / 16) with 0. rewrite IH. apply zeros_snoc.
Qed.

(** The loop of [toString(16)] with enough fuel: its digits are those of
    [hexFixed], without the zeros in front. *)
Lemma hexGo_spec fuel :
  forall n acc (k : nat),
    n < 2 ^ N.of_nat fuel -> n < 16 ^ N.of_nat k ->
    hexGo fuel n acc = hexGo fuel n "" +:+ acc
    /\ (String.length (hexGo fuel n "") <= k)%nat
    /\ Spec.hexFixed k n
       = zeros (k - String.length (hexGo fuel n "")) +:+ hexGo fuel n "".
Proof.
  assert (forall (k : nat) acc,
            "" +:+ acc = acc /\ (String.length "" <= k)%nat
            /\ Spec.hexFixed k 0 = zeros (k - String.length "") +:+ "")
    as Hzero.
  { intros k acc. split; [done|]. split; [simpl; lia|].
    rewrite hexFixed_zero, string_app_nil_r. simpl. by rewrite Nat.sub_0_r. }
  induction fuel as [|fuel IH]; intros n acc k Hfuel Hk.
  { cbn [hexGo]. change (2 ^ N.of_nat 0) with 1 in Hfuel.
    replace n with 0 by lia. apply Hzero. }
  cbn [hexGo]. destruct (n =? 0) eqn:En.
  { apply N.eqb_eq in En as ->. apply Hzero. }
  apply N.eqb_neq in En.
  destruct k as [|k]; [change (16 ^ N.of_nat 0) with 1 in Hk; lia|].
  rewrite Nat2N.inj_succ, N.pow_succ_r' in Hfuel, Hk.
  assert (n / 16 < 2 ^ N.of_nat fuel) as Hfuel'
      by (apply N.Div0.div_lt_upper_bound; lia).
  assert (n / 16 < 16 ^ N.of_nat k) as Hk'
      by (apply N.Div0.div_lt_upper_bound; lia).
  set (d := hexDigit (n mod 16)).
  destruct (IH (n / 16) (String d acc) k Hfuel' Hk') as (Hacc & _ & _).
  destruct (IH (n / 16) (String d "") k Hfuel' Hk') as (Hone & Hlen & Hfix).
  rewrite Hacc, Hone. split; [|split].
  - by rewrite string_app_assoc.
  - rewrite string_app_length. simpl. lia.
  - cbn [Spec.hexFixed]. fold d. rewrite Hfix, string_app_assoc.
    rewrite string_app_length. cbn [String.length].
    by replace (S k - (String.length (hexGo fuel (n / 16) "") + 1))%nat
      with (k - String.length (hexGo fuel (n / 16) ""))%nat by lia.
Qed.

(** Padding puts back the zeros that [toString(16)] leaves out. *)
Lemma padStart_toString16 (k : nat) n :
  n < 16 ^ N.of_nat (S k) ->
  padStart (S k) (toString16 n) = Spec.hexFixed (S k) n.
Proof.
  intros Hk. unfold padStart, toString16. destruct (n =? 0) eqn:En.
  - apply N.eqb_eq in En as ->. rewrite hexFixed_zero.
    cbn [String.length]. replace (S k - 1)%nat with k by lia.
    apply zeros_snoc.
  - destruct (hexGo_spec (N.to_nat (N.size n)) n "" (S k))
      as (_ & _ & ->); [|done|done].
    rewrite N2Nat.id. apply N.size_gt.
Qed.

Lemma hexDigit_lower d : d < 16 -> Spec.isLowerHex (hexDigit d) = true.
Proof.
  intros Hd. unfold hexDigit.
  assert (d = 0 \/ d = 1 \/ d = 2 \/ d = 3 \/ d = 4 \/ d = 5 \/ d = 6
          \/ d = 7 \/ d = 8 \/ d = 9 \/ d = 10 \/ d = 11 \/ d = 12
          \/ d = 13 \/ d = 14 \/ d = 15) as Hcases by lia.
  repeat (destruct Hcases as [->|Hcases]; [reflexivity|]).
  by subst d.
Qed.

Lemma toHex_lower bytes : Spec.allChars Spec.isLowerHex (toHex bytes) = true.
Proof.
  induction bytes as [|b bytes IH]; [done|]. cbn [toHex Spec.allChars].
  pose proof (Byte.to_N_bounded b).
  rewrite !hexDigit_lower, IH; [done|..].
  - apply N.mod_lt. lia.
  - apply N.Div0.div_lt_upper_bound. lia.
Qed.

Lemma toHex_length bytes :
  String.length (toHex bytes) = (2 * length bytes)%nat.
Proof.
  induction bytes as [|b bytes IH]; [done|]. cbn [toHex String.length length].
  rewrite IH. lia.
Qed.

End HexDigits.

(** X28.  The commitment key is the digest in hexadecimal.  For a digest of
    32 bytes, what the scripts compute from its two limbs of 128 bits,
    ['0x' + hi.toString(16).padStart(32, '0')
    + lo.toString(16).padStart(32, '0')], is ['0x'] followed by the two
    lower-case hexadecimal digits of each byte in order, which is the key
    [prove-secret] builds from [digest("hex")]: 66 characters, 64 of them
    digits of base 16 in lower case. *)
Theorem X28_commitment_key_is_hex_digest
        (digest : list Byte.byte)
        (Hlen : length digest = 32%nat) :
  Commitment.hHexOfDigest digest = "0x" +:+ Commitment.toHex digest
  /\ String.length (Commitment.hHexOfDigest digest) = 66%nat
  /\ Spec.allChars Spec.isLowerHex (Commitment.toHex digest) = true.
Proof.
  assert (Commitment.hHexOfDigest digest = "0x" +:+ Commitment.toHex digest)
    as Hkey.
  { unfold Commitment.hHexOfDigest, Commitment.hHexOfLimbs.
    set (hi := take 16 digest). set (lo := take 16 (drop 16 digest)).
    assert (length hi = 16%nat) as Hhi
        by (subst hi; rewrite length_take; lia).
    assert (length lo = 16%nat) as Hlo
        by (subst lo; rewrite length_take, length_drop; lia).
    assert (Commitment.toHex digest
            = Commitment.toHex hi +:+ Commitment.toHex lo) as ->.
    { rewrite <- toHex_app. f_equal. subst hi lo.
      rewrite <- (take_drop 16 digest) at 1. f_equal.
      symmetry. apply take_ge. rewrite length_drop. lia. }
    pose proof (be128ToBigInt_bound hi) as Bhi.
    pose proof (be128ToBigInt_bound lo) as Blo.
    rewrite Hhi in Bhi. rewrite Hlo in Blo.
    rewrite !padStart_toString16.
    - rewrite (toHex_hexFixed hi), (toHex_hexFixed lo).
      by rewrite Hhi, Hlo.
    - exact Blo.
    - exact Bhi. }
  split; [done|]. split; [|apply toHex_lower].
  rewrite Hkey.
  change ("0x" +:+ ?t) with (String "0" (String "x" t)).
  cbn [String.length]. rewrite toHex_length, Hlen. reflexivity.
Qed.

Lemma X28_commitment_key_is_hex_digest_witness :
  Commitment.hHexOfDigest Examples.digest
  = "0x" +:+ "00000aff100123456789abcdef007f80"
         +:+ "000102030405060708090a0b0c0d0e0f".
Proof.
  refine (eq_trans
            (proj1 (X28_commitment_key_is_hex_digest Examples.digest _)) _).
  - reflexivity.
  - vm_compute. reflexivity.
Defined.

(* ===================================================================== *)
(** * Further properties: the two relaxed canonicalizations *)
(* ===================================================================== *)

Section RelaxedAgreement.

Lemma replaceRuns_cons b c r :
  JS.replaceRuns JS.isWsp (String JS.SP "") b (String c r)
  = if JS.isWsp c
    then (if b then JS.replaceRuns JS.isWsp (String JS.SP "") true r
          else String JS.SP
                 (JS.replaceRuns JS.isWsp (String JS.SP "") true r))
    else String c (JS.replaceRuns JS.isWsp (String JS.SP "") false r).
Proof. cbn [JS.replaceRuns]. by destruct (JS.isWsp c), b. Qed.

Lemma trimEndWsp_cons c r :
  JS.trimEndWsp (String c r)
  = if JS.isWsp c && negb (JS.truthy (JS.trimEndWsp r)) then ""
    else String c (JS.trimEndWsp r).
Proof. done. Qed.

(** Collapsing commutes with the removal of leading spaces and tabs. *)
Lemma trimStartWsp_collapse b s :
  JS.trimStartWsp (JS.replaceRuns JS.isWsp (String JS.SP "") b s)
  = JS.replaceRuns JS.isWsp (String JS.SP "") false (JS.trimStartWsp s).
Proof.
  revert b. induction s as [|c r IH]; intros b; [done|].
  rewrite replaceRuns_cons. cbn [JS.trimStartWsp].
  destruct (JS.isWsp c) eqn:E.
  - destruct b; [apply IH|]. cbn [JS.trimStartWsp].
    change (JS.isWsp JS.SP) with true. cbv iota. apply IH.
  - cbn [JS.trimStartWsp]. rewrite E. by rewrite replaceRuns_cons, E.
Qed.

(** A text of spaces and tabs collapses to nothing once a run is on. *)
Lemma collapse_blank s :
  JS.truthy (JS.trimEndWsp s) = false ->
  JS.replaceRuns JS.isWsp (String JS.SP "") true s = "".
Proof.
  induction s as [|c r IH]; [done|].
  rewrite trimEndWsp_cons, replaceRuns_cons.
  destruct (JS.isWsp c); [|done]. cbn [andb].
  destruct (JS.truthy (JS.trimEndWsp r)) eqn:Er; [done|]. intros _.
  by apply IH.
Qed.

Lemma collapse_not_blank b s :
  JS.truthy (JS.trimEndWsp s) = true ->
  JS.truthy (JS.replaceRuns JS.isWsp (String JS.SP "") b (JS.trimEndWsp s))
  = true.
Proof.
  revert b. induction s as [|c r IH]; intros b; [done|].
  rewrite trimEndWsp_cons. destruct (JS.isWsp c) eqn:E; cbn [andb].
  - destruct (JS.truthy (JS.trimEndWsp r)) eqn:Er; [|done].
    cbn [negb]. intros _. rewrite replaceRuns_cons, E.
    destruct b; [by apply IH|done].
  - intros _. by rewrite replaceRuns_cons, E.
Qed.

(** Collapsing commutes with the removal of trailing spaces and tabs. *)
Lemma trimEndWsp_collapse b s :
  JS.trimEndWsp (JS.replaceRuns JS.isWsp (String JS.SP "") b s)
  = JS.replaceRuns JS.isWsp (String JS.SP "") b (JS.trimEndWsp s).
Proof.
  revert b. induction s as [|c r IH]; intros b; [done|].
  rewrite trimEndWsp_cons, replaceRuns_cons.
  destruct (JS.isWsp c) eqn:E; cbn [andb].
  - destruct (JS.truthy (JS.trimEndWsp r)) eqn:Er; cbn [negb].
    + rewrite replaceRuns_cons, E.
      destruct b; [apply IH|].
      rewrite trimEndWsp_cons. change (JS.isWsp JS.SP) with true.
      cbn [andb]. by rewrite IH, (collapse_not_blank true r Er).
    + rewrite (collapse_blank r Er). by destruct b.
  - rewrite trimEndWsp_cons, E. cbn [andb].
    by rewrite replaceRuns_cons, E, IH.
Qed.

Lemma collapse_trimWsp s :
  JS.collapseWsp (JS.trimWsp s) = JS.trimWsp (JS.collapseWsp s).
Proof.
  unfold JS.collapseWsp, JS.trimWsp.
  by rewrite trimStartWsp_collapse, trimEndWsp_collapse.
Qed.

Lemma plainWs_isWsp x :
  Spec.plainWs x = true -> JS.isWhiteSpace x = JS.isWsp x.
Proof.
  unfold Spec.plainWs. destruct (JS.isWhiteSpace x) eqn:Ew; simpl.
  - by intros ->.
  - intros _. destruct x as [[] [] [] [] [] [] [] []]; try done;
      by vm_compute in Ew.
Qed.

Lemma trimStart_plain s :
  Spec.allChars Spec.plainWs s = true -> JS.trimStart s = JS.trimStartWsp s.
Proof.
  induction s as [|c r IH]; [done|]. cbn [Spec.allChars].
  intros [Hc Hr]%andb_true_iff. cbn [JS.trimStart JS.trimStartWsp].
  rewrite (plainWs_isWsp c Hc). by rewrite IH.
Qed.

Lemma trimEnd_plain s :
  Spec.allChars Spec.plainWs s = true -> JS.trimEnd s = JS.trimEndWsp s.
Proof.
  induction s as [|c r IH]; [done|]. cbn [Spec.allChars].
  intros [Hc Hr]%andb_true_iff. cbn [JS.trimEnd JS.trimEndWsp].
  by rewrite (plainWs_isWsp c Hc), IH.
Qed.

Lemma allChars_trimStartWsp p s :
  Spec.allChars p s = true -> Spec.allChars p (JS.trimStartWsp s) = true.
Proof.
  induction s as [|x s IH]; [done|]. cbn [JS.trimStartWsp].
  destruct (JS.isWsp x); [|done]. simpl.
  intros [_ Hs]%andb_true_iff. by apply IH.
Qed.

Lemma trim_plain s :
  Spec.allChars Spec.plainWs s = true -> JS.trim s = JS.trimWsp s.
Proof.
  intros Hs. unfold JS.trim, JS.trimWsp. rewrite (trimStart_plain s Hs).
  apply trimEnd_plain. by apply allChars_trimStartWsp.
Qed.

Lemma allChars_collapse p b s :
  p JS.SP = true ->
  Spec.allChars p s = true ->
  Spec.allChars p (JS.replaceRuns JS.isWsp (String JS.SP "") b s) = true.
Proof.
  intros Hsp. revert b. induction s as [|c r IH]; intros b; [done|].
  cbn [Spec.allChars]. intros [Hc Hr]%andb_true_iff.
  rewrite replaceRuns_cons. destruct (JS.isWsp c).
  - destruct b; [by apply IH|]. cbn [Spec.allChars].
    by rewrite Hsp, IH.
  - cbn [Spec.allChars]. by rewrite Hc, IH.
Qed.

(** Without CR nothing is unfolded. *)
Lemma unfoldCRLF_plain s :
  Spec.allChars Spec.plainWs s = true -> JS.unfoldCRLF s = s.
Proof.
  unfold JS.unfoldCRLF. induction s as [|c r IH]; [done|].
  cbn [Spec.allChars]. intros [Hc Hr]%andb_true_iff.
  assert (Ascii.eqb c JS.CR = false) as Hcr.
  { destruct (Ascii.eqb c JS.CR) eqn:E; [|done].
    apply Ascii.eqb_eq in E as ->. by vm_compute in Hc. }
  cbn [JS.unfoldGo andb]. rewrite Hcr. cbn [andb].
  destruct r as [|c2 r2]; [done|]. by rewrite (IH Hr).
Qed.

End RelaxedAgreement.

(** X29.  The two relaxed header canonicalizations agree on ordinary
    values.  When the white space of a header value is made of spaces and
    tabs only (no CR, LF, VT, FF or NBSP), [canonicalizeHeader] of the CLI,
    in every mode but [simple], returns what [relaxedHeader] of the verifier
    returns for the same name and value, followed by CRLF. *)
Theorem X29_relaxed_forms_agree
        (h : EmailParser.Header) (headerMode : string)
        (Hmode : JS.toLowerCase (JS.orElse headerMode "simple") <> "simple")
        (Hvalue : Spec.allChars Spec.plainWs (EmailParser.value h) = true) :
  EmailParser.canonicalizeHeader h headerMode
  = Dkim.relaxedHeader (inl (Spec.toDkim h)) +:+ JS.CRLF.
Proof.
  unfold EmailParser.canonicalizeHeader.
  destruct (String.eqb _ "simple") eqn:E;
    [by apply String.eqb_eq in E|].
  cbn [Dkim.relaxedHeader]. unfold Dkim.relaxedHeaderObj, Spec.toDkim.
  cbn [Dkim.name Dkim.value].
  rewrite (unfoldCRLF_plain _ Hvalue), collapse_trimWsp.
  rewrite <- trim_plain.
  - by rewrite !string_app_assoc.
  - unfold JS.collapseWsp. by apply allChars_collapse.
Qed.

Lemma X29_relaxed_forms_agree_witness :
  EmailParser.canonicalizeHeader
    {| EmailParser.name := "Subject";
       EmailParser.value := Dkim.value Examples.spacedSubject;
       EmailParser.raw := ""; EmailParser.index := 0 |} "relaxed"
  = "subject:Hello world" +:+ JS.CRLF.
Proof.
  refine (eq_trans (X29_relaxed_forms_agree _ "relaxed" _ _) _).
  - discriminate.
  - reflexivity.
  - reflexivity.
Defined.

(* ===================================================================== *)
(** * Further properties: the two header parsers *)
(* ===================================================================== *)

Section ParsersAgree.

Lemma splitLines_single l :
  Spec.allChars (fun x => negb (JS.isLineTerminator x)) l = true ->
  JS.splitLines l = [l].
Proof.
  induction l as [|c r IH]; [done|]. cbn [Spec.allChars].
  intros [Hc Hr]%andb_true_iff. apply negb_true_iff in Hc.
  apply orb_false_iff in Hc as [Hlf Hcr].
  rewrite splitLines_cons, Hlf, Hcr, (IH Hr). cbn [andb].
  by destruct r.
Qed.

Lemma splitCRLF_single l :
  Spec.allChars (fun x => negb (JS.isLineTerminator x)) l = true ->
  JS.splitCRLF l = [l].
Proof.
  induction l as [|c r IH]; [done|]. cbn [Spec.allChars].
  intros [Hc Hr]%andb_true_iff. apply negb_true_iff in Hc.
  apply orb_false_iff in Hc as [Hlf Hcr].
  rewrite splitCRLF_cons, Hcr, (IH Hr). cbn [andb].
  by destruct r.
Qed.

Lemma headerLine_spec line :
  Spec.headerLine line = true ->
  JS.headIs JS.isWsp line = false
  /\ JS.includes line ":" = true
  /\ Spec.allChars (fun x => negb (JS.isLineTerminator x)) line = true.
Proof.
  unfold Spec.headerLine.
  intros [[Hh Hc]%andb_true_iff Hl]%andb_true_iff.
  by apply negb_true_iff in Hh.
Qed.

(** The lines of a text made of header lines. *)
Lemma splitLines_crlfLines lines :
  Forall (fun l => Spec.headerLine l = true) lines ->
  JS.splitLines (Spec.crlfLines lines) = lines ++ [""]
  /\ JS.splitCRLF (Spec.crlfLines lines) = lines ++ [""].
Proof.
  induction 1 as [|l lines Hl _ [IH1 IH2]]; [done|].
  apply headerLine_spec in Hl as (_ & _ & Hl). cbn [Spec.crlfLines].
  rewrite splitLines_app_crlf, splitCRLF_app_crlf, IH1, IH2.
  by rewrite (splitLines_single l Hl), (splitCRLF_single l Hl).
Qed.

Lemma no_colon_not_included s :
  Spec.allChars (fun x => negb (Spec.isColon x)) s = true ->
  JS.includes s ":" = false.
Proof.
  induction s as [|c r IH]; [done|]. cbn [Spec.allChars].
  intros [Hc Hr]%andb_true_iff. apply negb_true_iff in Hc.
  rewrite includes_cons, (IH Hr). cbn [JS.startsWith].
  unfold Spec.isColon in Hc. by rewrite Ascii.eqb_sym, Hc.
Qed.

Lemma dropUntil_colon line :
  JS.includes line ":" = true ->
  exists post, JS.dropUntil Spec.isColon line = String ":" post.
Proof.
  induction line as [|c r IH]; [done|]. cbn [JS.dropUntil].
  destruct (Spec.isColon c) eqn:Ec.
  - intros _. apply Ascii.eqb_eq in Ec as ->. by exists r.
  - rewrite includes_cons. cbn [JS.startsWith].
    unfold Spec.isColon in Ec. rewrite Ascii.eqb_sym, Ec. apply IH.
Qed.

Lemma trimEnd_blank s :
  JS.trimEnd s = "" -> Spec.allChars JS.isWhiteSpace s = true.
Proof.
  induction s as [|c r IH]; [done|]. cbn [JS.trimEnd Spec.allChars].
  destruct (JS.isWhiteSpace c); [|done]. cbn [andb].
  destruct (JS.trimEnd r); [|done]. intros _. by apply IH.
Qed.

Lemma trimStart_blank s :
  Spec.allChars JS.isWhiteSpace (JS.trimStart s) = true ->
  Spec.allChars JS.isWhiteSpace s = true.
Proof.
  induction s as [|c r IH]; [done|]. cbn [JS.trimStart Spec.allChars].
  destruct (JS.isWhiteSpace c) eqn:E; [done|].
  cbn [Spec.allChars]. by rewrite E.
Qed.

(** A line with a colon, cut at its first colon. *)
Lemma line_at_colon line :
  JS.includes line ":" = true ->
  exists post,
    JS.dropUntil Spec.isColon line = String ":" post
    /\ line = JS.takeUntil Spec.isColon line +:+ ":" +:+ post
    /\ JS.indexOf line ":" = JS.len (JS.takeUntil Spec.isColon line).
Proof.
  intros (post & Hpost)%dropUntil_colon. exists post. split; [done|].
  pose proof (takeUntil_dropUntil Spec.isColon line) as Hcut.
  rewrite Hpost in Hcut.
  change (String ":" post) with (":" +:+ post) in Hcut.
  split; [done|]. rewrite <- Hcut at 1. apply indexOf_colon.
  apply (takeUntil_allChars Spec.isColon).
Qed.

(** Both parsers read the header [headerOf] of a header line. *)
Lemma line_fields line :
  Spec.headerLine line = true ->
  let idx := JS.indexOf line ":" in
  (idx =? -1) = false
  /\ JS.slice line 0 idx = Dkim.name (Spec.headerOf line)
  /\ JS.substring line 0 idx = Dkim.name (Spec.headerOf line)
  /\ JS.trim (JS.sliceFrom line (idx + 1)) = Dkim.value (Spec.headerOf line)
  /\ JS.trim (JS.substringFrom line (idx + 1))
     = Dkim.value (Spec.headerOf line)
  /\ String.eqb (JS.trim line) "" = false
  /\ String.eqb line "" = false.
Proof.
  intros (_ & Hinc & _)%headerLine_spec idx. subst idx.
  destruct (line_at_colon line Hinc) as (post & Hdrop & Hline & Hidx).
  rewrite Hidx. unfold Spec.headerOf. cbn [Dkim.name Dkim.value].
  rewrite Hdrop. cbn [JS.skipn].
  set (n := JS.takeUntil Spec.isColon line) in *.
  pose proof (len_nonneg n) as Hn.
  split; [apply Z.eqb_neq; lia|].
  split; [rewrite Hline at 1; apply slice_prefix|].
  split; [rewrite Hline at 1; apply substring_prefix|].
  assert (line = (n +:+ ":") +:+ post) as Hline2
      by (by rewrite string_app_assoc).
  assert (JS.len n + 1 = JS.len (n +:+ ":")) as ->
      by (rewrite len_app; reflexivity).
  split; [by rewrite Hline2 at 1; rewrite sliceFrom_suffix|].
  split; [by rewrite Hline2 at 1; rewrite substringFrom_suffix|].
  split.
  - apply String.eqb_neq. intros Ht.
    assert (Spec.allChars JS.isWhiteSpace line = true) as Hws
        by (by apply trimStart_blank, trimEnd_blank).
    rewrite Hline, !allChars_app in Hws. cbn in Hws.
    by rewrite andb_false_r in Hws.
  - apply String.eqb_neq. intros ->. by destruct n.
Qed.

Lemma dkim_parseLoop_lines lines :
  Forall (fun l => Spec.headerLine l = true) lines ->
  forall st,
    Dkim.headers (Dkim.parseLoop (lines ++ [""]) st)
    = Dkim.headers st ++ (Spec.headerOf <$> lines).
Proof.
  induction 1 as [|line lines Hline _ IH]; intros st.
  - cbn. by rewrite app_nil_r.
  - destruct (line_fields line Hline) as (Hidx & Hn & _ & Hv & _ & Ht & _).
    apply headerLine_spec in Hline as (Hhead & _ & _).
    cbn [app Dkim.parseLoop]. rewrite Hhead, Ht, Hidx, IH.
    cbn [Dkim.headers]. rewrite Hn, Hv, <- app_assoc. by destruct st.
Qed.

Lemma cli_parseLoop_lines lines :
  Forall (fun l => Spec.headerLine l = true) lines ->
  forall hl idx,
    Spec.toDkim <$> EmailParser.parseLoop (lines ++ [""]) hl idx
    = (Spec.toDkim <$> hl) ++ (Spec.headerOf <$> lines).
Proof.
  induction 1 as [|line lines Hline _ IH]; intros hl idx.
  - cbn. by rewrite app_nil_r.
  - destruct (line_fields line Hline) as (Hidx & _ & Hn & _ & Hv & _ & Hne).
    apply headerLine_spec in Hline as (Hhead & _ & _).
    cbn [app EmailParser.parseLoop]. rewrite Hne, Hhead, Hidx, IH.
    rewrite fmap_app, <- app_assoc. cbn [fmap list_fmap app].
    unfold Spec.toDkim at 2. cbn [EmailParser.name EmailParser.value].
    by rewrite Hn, Hv.
Qed.

End ParsersAgree.

(** X30.  The two header parsers agree on unfolded headers.  For a text
    made of lines that do not start with a space or tab, have a colon and
    no line terminator, each followed by CRLF, [parseHeaders] of the
    verifier and [parseHeaders] of the CLI return the same names and values,
    one header for each line: the name is the text before the first colon of
    the line and the value the trimmed text after it. *)
Theorem X30_parsers_agree
        (lines : list string)
        (Hlines : Forall (fun l => Spec.headerLine l = true) lines) :
  let text := Spec.crlfLines lines in
  Dkim.hlist (Dkim.parseHeaders text) = Spec.headerOf <$> lines
  /\ Spec.toDkim <$> EmailParser.parseHeaders text = Spec.headerOf <$> lines.
Proof.
  intros text. subst text.
  destruct (splitLines_crlfLines lines Hlines) as [Hl Hc]. split.
  - unfold Dkim.parseHeaders. cbn [Dkim.hlist].
    by rewrite Hl, dkim_parseLoop_lines.
  - unfold EmailParser.parseHeaders.
    by rewrite Hc, cli_parseLoop_lines.
Qed.

Lemma X30_parsers_agree_witness :
  Spec.toDkim
    <$> EmailParser.parseHeaders
          (Spec.crlfLines ["From: a@example.com"; "Subject:  Verify  x "])
  = [ {| Dkim.name := "From"; Dkim.value := "a@example.com" |};
      {| Dkim.name := "Subject"; Dkim.value := "Verify  x" |} ].
Proof.
  refine (proj2 (X30_parsers_agree
                   ["From: a@example.com"; "Subject:  Verify  x "] _)).
  by repeat constructor.
Defined.
